(** * ReviewThor: webhook ingestion and review orchestration

    A shallow embedding of the TypeScript sources
      - [src/handlers/webhook.ts]            (module [Webhook])
      - [src/ai/context-builder.ts]          (module [ContextBuilder])
      - [src/ai/engine.ts], [src/ai/prompt-manager.ts] (module [Engine])
      - [src/github/client.ts]               (module [GitHub])
      - [src/handlers/events/pull-request.ts], [src/index.ts] (module [Pipeline])
    together with the properties of the specification that are about them.

    Conventions.  A JavaScript string is a sequence of code units; it is
    modelled by [string], and only lengths, prefixes, suffixes and
    concatenations are ever taken.  Numbers are the integers [Z] (JSON
    numbers with a fractional part are not modelled; like every non-zero
    integer they are truthy).  A thrown exception is an explicit [Throw]
    result; asynchronous calls are awaited one after the other in the
    source, so they are sequenced in a trace-and-exception monad. *)

From Stdlib Require Import String Ascii List ZArith Lia Bool Arith DecimalString.
From Equations Require Import Equations.
Import ListNotations.

Local Open Scope string_scope.
Local Open Scope Z_scope.

(* ===================================================================== *)
(** ** JavaScript values and exceptions *)
(* ===================================================================== *)

Module JS.

(** The values [JSON.parse] can produce, plus [undefined]. An object is the
    list of its own properties; a property is read at its first binding. *)
#[warnings="-register-all"]
Inductive value : Type :=
| VUndefined
| VNull
| VBool (b : bool)
| VNum (n : Z)
| VStr (s : string)
| VArr (elems : list value)
| VObj (fields : list (string * value)).

(** What a [throw] can carry: an [Error] instance (of some class, with a
    message and, for HTTP client errors, a status) or any other value. *)
Inductive thrown : Type :=
| JsError (cls : string) (message : string) (status : option Z)
| NonError (v : value).

Definition Error (msg : string) : thrown := JsError "Error" msg None.
Definition TypeError (msg : string) : thrown := JsError "TypeError" msg None.
Definition RangeError (msg : string) : thrown := JsError "RangeError" msg None.

Inductive result (A : Type) : Type :=
| Ok (a : A)
| Throw (e : thrown).
Arguments Ok {A} a.
Arguments Throw {A} e.

Definition rbind {A B} (r : result A) (k : A -> result B) : result B :=
  match r with
  | Ok a => k a
  | Throw e => Throw e
  end.

(** [error instanceof Error ? error.message : 'Unknown error'] *)
Definition message_of (e : thrown) : string :=
  match e with
  | JsError _ m _ => m
  | NonError _ => "Unknown error"
  end.

(** ToBoolean. *)
Definition truthy (v : value) : bool :=
  match v with
  | VUndefined | VNull => false
  | VBool b => b
  | VNum n => negb (n =? 0)
  | VStr s => negb (String.eqb s "")
  | VArr _ | VObj _ => true
  end.

Definition nullish (v : value) : bool :=
  match v with
  | VUndefined | VNull => true
  | _ => false
  end.

Fixpoint lookup (k : string) (fields : list (string * value)) : value :=
  match fields with
  | [] => VUndefined
  | (k', v) :: rest => if String.eqb k k' then v else lookup k rest
  end.

(** Reading one of the property names the sources use ([installation],
    [id], [draft], ...) from a value that is not an object gives
    [undefined]: none of them is a property of a string, number, boolean
    or array. *)
Definition prop (v : value) (k : string) : value :=
  match v with
  | VObj fields => lookup k fields
  | _ => VUndefined
  end.

(** [v.k]: a [TypeError] when [v] is [null] or [undefined]. *)
Definition get (v : value) (k : string) : result value :=
  if nullish v
  then Throw (TypeError ("Cannot read properties of " ++
                         (if match v with VNull => true | _ => false end
                          then "null" else "undefined") ++
                         " (reading '" ++ k ++ "')"))
  else Ok (prop v k).

(** [v?.k] *)
Definition opt_get (v : value) (k : string) : value :=
  if nullish v then VUndefined else prop v k.

Definition Z_to_string (n : Z) : string := NilZero.string_of_int (Z.to_int n).

Fixpoint join (sep : string) (l : list string) : string :=
  match l with
  | [] => ""
  | [s] => s
  | s :: rest => s ++ sep ++ join sep rest
  end.

(** ToString, as applied by a template literal and by a computed
    property key. *)
Fixpoint to_string (v : value) : string :=
  match v with
  | VUndefined => "undefined"
  | VNull => "null"
  | VBool true => "true"
  | VBool false => "false"
  | VNum n => Z_to_string n
  | VStr s => s
  | VArr elems =>
      join "," (map (fun e => if nullish e then "" else to_string e) elems)
  | VObj _ => "[object Object]"
  end.

(** [v === 'lit'] *)
Definition is_str (v : value) (lit : string) : bool :=
  match v with
  | VStr s => String.eqb s lit
  | _ => false
  end.

(** [lits.includes(v)] for an array of string literals. *)
Definition includes (lits : list string) (v : value) : bool :=
  existsb (is_str v) lits.

(** [typeof v === 'object'] *)
Definition typeof_object (v : value) : bool :=
  match v with
  | VNull | VArr _ | VObj _ => true
  | _ => false
  end.

Definition typeof_string (v : value) : bool :=
  match v with
  | VStr _ => true
  | _ => false
  end.

(** [s.startsWith(p)] and [s.endsWith(p)] *)
Definition startsWith (s p : string) : bool := String.prefix p s.

Definition endsWith (s p : string) : bool :=
  let n := String.length s in
  let m := String.length p in
  (m <=? n)%nat && String.eqb (String.substring (n - m) m s) p.

End JS.

Import JS.

Notation "x <-r c ;; k" := (rbind c (fun x => k))
  (at level 61, c at next level, right associativity).

(* ===================================================================== *)
(** ** src/handlers/webhook.ts *)
(* ===================================================================== *)

Module Webhook.

Inductive EventType : Type :=
| pull_request_opened
| pull_request_synchronize
| pull_request_reopened
| pull_request_review_submitted.

Definition EventType_name (t : EventType) : string :=
  match t with
  | pull_request_opened => "pull_request.opened"
  | pull_request_synchronize => "pull_request.synchronize"
  | pull_request_reopened => "pull_request.reopened"
  | pull_request_review_submitted => "pull_request_review.submitted"
  end.

Record GitHubEvent : Type := {
  type : EventType;
  payload : value;
  repository_name : value;
  repository_owner : value;
  installationId : value
}.

(** *** validateSignature *)

Section Signature.

(** [crypto.createHmac('sha256', key).update(payload).digest('hex')]:
    Node's HMAC is a total function of a string key and a string payload. *)
Variable hmac_sha256_hex : string -> string -> string.

(** [Buffer.from(s)] *)
Definition Buffer_from (s : string) : list ascii := list_ascii_of_string s.

Fixpoint bytes_eqb (a b : list ascii) : bool :=
  match a, b with
  | [], [] => true
  | x :: a', y :: b' => Ascii.eqb x y && bytes_eqb a' b'
  | _, _ => false
  end.

(** [crypto.timingSafeEqual(a, b)] throws a [RangeError] when the two
    buffers differ in length. *)
Definition timingSafeEqual (a b : list ascii) : result bool :=
  if (List.length a =? List.length b)%nat
  then Ok (bytes_eqb a b)
  else Throw (RangeError "Input buffers must have the same byte length").

(** The header value is [undefined]/[null] ([None]) or a string. *)
Definition validateSignature (webhookSecret payload : string)
    (signature : option string) : result bool :=
  match signature with
  | None => Ok false
  | Some sig =>
      if negb (truthy (VStr sig)) || negb (startsWith sig "sha256=")
      then Ok false
      else
        let expectedSignature :=
          "sha256=" ++ hmac_sha256_hex webhookSecret payload in
        let signatureBuffer := Buffer_from sig in
        let expectedBuffer := Buffer_from expectedSignature in
        if negb (List.length signatureBuffer =? List.length expectedBuffer)%nat
        then Ok false
        else timingSafeEqual signatureBuffer expectedBuffer
  end.

End Signature.

(** *** parseEvent *)

(** [`pull_request.${action}`] for an action of the accepted list. *)
Definition pull_request_event (action : value) : option EventType :=
  if is_str action "opened" then Some pull_request_opened
  else if is_str action "synchronize" then Some pull_request_synchronize
  else if is_str action "reopened" then Some pull_request_reopened
  else None.

(** Private; its only caller [parseEvent] has read a property of
    [payload] before, so [payload] is neither [null] nor [undefined]. *)
Definition determineEventType (payload : value) : result EventType :=
  let action := prop payload "action" in
  let accepted :=
    if truthy (prop payload "pull_request") && truthy action then
      if includes ["opened"; "synchronize"; "reopened"] action
      then pull_request_event action
      else None
    else None in
  match accepted with
  | Some t => Ok t
  | None =>
      if truthy (prop payload "review") && is_str action "submitted"
      then Ok pull_request_review_submitted
      else Throw (Error ("Unsupported event type: " ++
             to_string (if truthy action then action else VStr "unknown")))
  end.

Definition parseEvent (payload : value) : result GitHubEvent :=
  installation <-r get payload "installation" ;;
  if negb (truthy (opt_get installation "id"))
  then Throw (Error "Missing installation ID")
  else
    let repository := prop payload "repository" in
    if negb (truthy (opt_get repository "name")) ||
       negb (truthy (opt_get (opt_get repository "owner") "login"))
    then Throw (Error "Missing repository information")
    else
      eventType <-r determineEventType payload ;;
      Ok {| type := eventType;
            payload := payload;
            repository_name := prop repository "name";
            repository_owner := prop (prop repository "owner") "login";
            installationId := prop installation "id" |}.

Definition is_pull_request_type (t : EventType) : bool :=
  match t with
  | pull_request_review_submitted => false
  | _ => true
  end.

End Webhook.

(* ===================================================================== *)
(** ** src/ai/context-builder.ts *)
(* ===================================================================== *)

Module ContextBuilder.

Record FileContext : Type := {
  path : string;
  content : string;
  diff : string;
  language : string
}.

Record PRContext : Type := {
  title : string;
  description : string;
  author : string;
  targetBranch : string;
  sourceBranch : string
}.

Record RelatedFiles : Type := {
  imports : list string;
  exports : list string;
  tests : list string
}.

Record FullContext : Type := {
  files : list FileContext;
  pr : PRContext;
  relatedFiles : list (string * RelatedFiles);
  totalTokens : Z
}.

Record OptimizedContext : Type := {
  opt_files : list FileContext;
  opt_pr : PRContext;
  truncated : bool;
  tokenCount : Z
}.

(** The instance and its two read-only fields. *)
Record ContextBuilder : Type := {
  MAX_TOKENS : Z;
  AVG_CHARS_PER_TOKEN : Z
}.

Definition new_ContextBuilder : ContextBuilder :=
  {| MAX_TOKENS := 150000; AVG_CHARS_PER_TOKEN := 4 |}.

(** The same class with another token budget. *)
Definition with_budget (B : Z) : ContextBuilder :=
  {| MAX_TOKENS := B; AVG_CHARS_PER_TOKEN := 4 |}.

(** [s.length] *)
Definition len (s : string) : Z := Z.of_nat (String.length s).

Section Methods.

Variable this : ContextBuilder.

(** [Math.ceil(n / this.AVG_CHARS_PER_TOKEN)] for an integer [n] and a
    positive divisor. *)
Definition ceil_tokens (n : Z) : Z :=
  (n + AVG_CHARS_PER_TOKEN this - 1) / AVG_CHARS_PER_TOKEN this.

Definition estimateFileChars (file : FileContext) : Z :=
  len (path file) + len (content file) + len (diff file) + 50.

Definition estimateFileTokens (file : FileContext) : Z :=
  ceil_tokens (estimateFileChars file).

Definition estimateTokens (fs : list FileContext) (p : PRContext) : Z :=
  let totalChars := len (title p) + len (description p) + 100 in
  ceil_tokens (fold_left (fun acc file => acc + estimateFileChars file)
                         fs totalChars).

(** [s.substring(0, n)]: the end index is clamped to [0 .. s.length]. *)
Definition substring0 (s : string) (n : Z) : string :=
  String.substring 0 (Z.to_nat n) s.

Definition truncation_marker : string :=
  String (ascii_of_nat 10) "... (truncated)".

Definition truncateFile (file : FileContext) (maxTokens : Z) : FileContext :=
  let maxChars := maxTokens * AVG_CHARS_PER_TOKEN this in
  let pathAndMetadata := len (path file) + 50 in
  let availableChars := maxChars - pathAndMetadata in
  if len (diff file) <=? availableChars then
    {| path := path file; content := "";
       diff := diff file; language := language file |}
  else
    {| path := path file; content := "";
       diff := substring0 (diff file) availableChars ++ truncation_marker;
       language := language file |}.

(** The [for ... of] loop of [optimizeForTokenLimit], with its [break]. *)
Fixpoint pack_loop (fs : list FileContext) (currentTokens : Z)
    (optimizedFiles : list FileContext) : list FileContext :=
  match fs with
  | [] => optimizedFiles
  | file :: rest =>
      let fileTokens := estimateFileTokens file in
      if currentTokens + fileTokens <=? MAX_TOKENS this then
        pack_loop rest (currentTokens + fileTokens)
                  (optimizedFiles ++ [file])%list
      else
        let remainingTokens := MAX_TOKENS this - currentTokens in
        (optimizedFiles ++ [truncateFile file remainingTokens])%list
  end.

Definition optimizeForTokenLimit (context : FullContext) : OptimizedContext :=
  let estimatedTokens := estimateTokens (files context) (pr context) in
  if estimatedTokens <=? MAX_TOKENS this then
    {| opt_files := files context; opt_pr := pr context;
       truncated := false; tokenCount := estimatedTokens |}
  else
    let currentTokens := estimateTokens [] (pr context) in
    {| opt_files := pack_loop (files context) currentTokens [];
       opt_pr := pr context;
       truncated := true; tokenCount := MAX_TOKENS this |}.

End Methods.

(** [c.toLowerCase()] for the letters A to Z. Other code units are left
    as they are: none of them becomes a letter of the keys of
    [languageMap], so the lookup below is not affected. *)
Definition lower_char (c : ascii) : ascii :=
  let n := nat_of_ascii c in
  if ((65 <=? n) && (n <=? 90))%nat then ascii_of_nat (n + 32) else c.

Fixpoint toLowerCase (s : string) : string :=
  match s with
  | EmptyString => EmptyString
  | String c rest => String (lower_char c) (toLowerCase rest)
  end.

(** [path.split('.').pop()]: the text after the last dot, and the whole
    path when it has no dot. [segment] is the text after the last dot seen
    so far. *)
Fixpoint after_last_dot (segment : string) (s : string) : string :=
  match s with
  | EmptyString => segment
  | String c rest =>
      if Ascii.eqb c "."%char then after_last_dot rest rest
      else after_last_dot segment rest
  end.

Definition last_segment (path : string) : string := after_last_dot path path.

(** [languageMap[ext]]. The object literal inherits [constructor] and
    [__proto__] from [Object.prototype]: for these two keys the lookup
    gives an object, written [VObj []] here, and not [undefined]. *)
Definition languageMap (ext : string) : value :=
  if String.eqb ext "js" then VStr "javascript"
  else if String.eqb ext "jsx" then VStr "javascript"
  else if String.eqb ext "ts" then VStr "typescript"
  else if String.eqb ext "tsx" then VStr "typescript"
  else if String.eqb ext "mjs" then VStr "javascript"
  else if String.eqb ext "cjs" then VStr "javascript"
  else if String.eqb ext "constructor" then VObj []
  else if String.eqb ext "__proto__" then VObj []
  else VUndefined.

Definition detectLanguage (path : string) : value :=
  let ext := toLowerCase (last_segment path) in
  let found := languageMap ext in
  if truthy found then found else VStr "unknown".

(** [filePath.replace(/\.(js|jsx|ts|tsx)$/, '')] *)
Definition strip_source_extension (filePath : string) : string :=
  let n := String.length filePath in
  if endsWith filePath ".js" then String.substring 0 (n - 3) filePath
  else if endsWith filePath ".jsx" then String.substring 0 (n - 4) filePath
  else if endsWith filePath ".ts" then String.substring 0 (n - 3) filePath
  else if endsWith filePath ".tsx" then String.substring 0 (n - 4) filePath
  else filePath.

Definition findTestFiles (filePath : string) : list string :=
  let baseName := strip_source_extension filePath in
  [baseName ++ ".test.js"; baseName ++ ".test.ts";
   baseName ++ ".spec.js"; baseName ++ ".spec.ts";
   "__tests__/" ++ baseName ++ ".js"; "__tests__/" ++ baseName ++ ".ts"].

End ContextBuilder.

(* ===================================================================== *)
(** ** The outside world: effects, oracles and the monad of the handlers *)
(* ===================================================================== *)

Module Env.

(** [Comment] of [github/client.ts] and [ai/engine.ts]. The engine copies
    [issue.file] and [issue.line] into it unchanged, so they are values. *)
Record Comment : Type := {
  c_path : value;
  c_line : value;
  c_body : string
}.

(** One element of the [comments] array sent to the host. *)
Record ReviewComment : Type := {
  rc_path : value;
  rc_line : value;
  rc_body : string;
  rc_side : string
}.

(** [File] of [github/client.ts], as the host's API returns it. *)
Record File : Type := {
  filename : string;
  file_status : string;
  additions : Z;
  deletions : Z;
  changes : Z;
  patch : option string
}.

Record ContentBlock : Type := {
  block_type : string;
  block_text : string
}.

Record Config : Type := {
  githubWebhookSecret : string;
  githubAppId : value;
  githubPrivateKey : string;
  anthropicApiKey : string;
  anthropicModel : string
}.

Record CustomInstructions : Type := {
  focusAreas : list string;
  customRules : list string;
  ignorePatterns : list string;
  rawContent : string
}.

(** [CodeContext] of [ai/engine.ts]. The handler fills [prDescription]
    with [pullRequest.body || ''], whatever value the payload holds. *)
Record CodeFile : Type := {
  cf_path : string;
  cf_content : string;
  cf_diff : string
}.

Record CodeContext : Type := {
  cc_files : list CodeFile;
  prDescription : value;
  repository : string
}.

(** Calls that leave the process. *)
Inductive Call : Type :=
| CGetConfig
| CGetInstallationOctokit (installationId : value)
| CListFiles (owner repo pull_number : value)
| CGetContent (owner repo : value) (path ref : string)
| CMessagesCreate (prompt : string)
| CCreateReview (owner repo pull_number : value)
                (comments : list ReviewComment).

(** Program points of [src/index.ts] that are recorded in the trace so
    that their order can be stated; they have no other effect. *)
Inductive Point : Type :=
| ValidateSignature (valid : bool)
| ParseEvent
| RouteEvent.

Inductive Effect : Type :=
| Log (level message correlationId : string) (error : option string)
| Ext (c : Call)
| At (p : Point).

Definition Trace : Type := list Effect.


(** The answers of the outside world. An answer may depend on everything
    that happened before the call (the trace), so the same call can
    succeed once and fail later. The last fields are library functions
    that are pure but outside this development. *)
Record World : Type := {
  getConfig : Trace -> result Config;
  getInstallationOctokit : Trace -> value -> result unit;
  pulls_listFiles : Trace -> value -> value -> value -> result (list File);
  (** [Some c]: a file with decoded content [c]; [None]: not a file *)
  repos_getContent :
    Trace -> value -> value -> string -> string -> result (option string);
  messages_create : Trace -> string -> result (list ContentBlock);
  pulls_createReview :
    Trace -> value -> value -> value -> list ReviewComment -> result unit;
  hmac_sha256_hex : string -> string -> string;
  JSON_parse : string -> result value;
  (** [new RegExp(`^${regex}$`).test(path)] for the regex that
      [matchesPattern] derives from a glob *)
  glob_regex_test : string -> string -> result bool;
  parseInstructionFile : string -> CustomInstructions;
  (** the fixed prompt text of [AIReviewEngine.buildReviewPrompt] with the
      context interpolated *)
  buildReviewPrompt : CodeContext -> string;
  generateCorrelationId : string
}.

(** Computations that append to the trace and may throw. *)
Definition M (A : Type) : Type := Trace -> result A * Trace.

Definition ret {A} (a : A) : M A := fun t => (Ok a, t).

Definition bind {A B} (m : M A) (k : A -> M B) : M B :=
  fun t =>
    match m t with
    | (Ok a, t') => k a t'
    | (Throw e, t') => (Throw e, t')
    end.

Definition throw {A} (e : thrown) : M A := fun t => (Throw e, t).

Definition lift {A} (r : result A) : M A := fun t => (r, t).

(** [try { m } catch (e) { h e }]: what [m] did stays done. *)
Definition try_catch {A} (m : M A) (h : thrown -> M A) : M A :=
  fun t =>
    match m t with
    | (Ok a, t') => (Ok a, t')
    | (Throw e, t') => h e t'
    end.

Definition emit (e : Effect) : M unit := fun t => (Ok tt, (t ++ [e])%list).

(** [await] of an external call: recorded, then answered by the world
    from what happened so far. *)
Definition call {A} (c : Call) (answer : Trace -> result A) : M A :=
  fun t => (answer t, (t ++ [Ext c])%list).

Definition log (level message correlationId : string) : M unit :=
  emit (Log level message correlationId None).

Definition log_error (message correlationId : string) (e : thrown) : M unit :=
  emit (Log "error" message correlationId (Some (message_of e))).

(** [xs.filter(p)] for a callback with effects. *)
Fixpoint filterM {A} (p : A -> M bool) (xs : list A) : M (list A) :=
  match xs with
  | [] => ret []
  | x :: rest =>
      bind (p x) (fun keep =>
      bind (filterM p rest) (fun rest' =>
      ret (if keep then x :: rest' else rest')))
  end.

(** [arr.slice(0, n)] *)
Definition slice0 {A} (n : nat) (xs : list A) : list A := firstn n xs.

End Env.

Import Env.

Notation "x <- c ;; k" := (bind c (fun x => k))
  (at level 61, c at next level, right associativity).
Notation "c ;;; k" := (bind c (fun _ => k))
  (at level 61, right associativity).

(* ===================================================================== *)
(** ** src/github/client.ts *)
(* ===================================================================== *)

Module GitHub.

(** The client's only state: whether [this.octokit] is set. *)
Record GitHubClient : Type := { octokit : bool }.

Definition new_GitHubClient : GitHubClient := {| octokit := false |}.

Definition not_authenticated : thrown := Error "GitHub client not authenticated".

Definition authenticate (w : World) (client : GitHubClient)
    (installationId : value) : M GitHubClient :=
  try_catch
    (call (CGetInstallationOctokit installationId)
          (fun t => getInstallationOctokit w t installationId) ;;;
     ret {| octokit := true |})
    (fun e => throw (Error ("Authentication failed: " ++ message_of e))).

(** [/\.(js|jsx|ts|tsx)$/.test(name)] *)
Definition is_source_file (name : string) : bool :=
  endsWith name ".js" || endsWith name ".jsx" ||
  endsWith name ".ts" || endsWith name ".tsx".

Definition getFiles (w : World) (client : GitHubClient)
    (owner repo pull_number : value) : M (list File) :=
  if negb (octokit client) then throw not_authenticated
  else
    data <- call (CListFiles owner repo pull_number)
                 (fun t => pulls_listFiles w t owner repo pull_number) ;;
    ret (filter (fun file => is_source_file (filename file)) data).

(** [error.status === 404] in the [catch] of [getFile]; reading a property
    of a thrown [null] or [undefined] throws in turn. *)
Definition status_is_404 (e : thrown) : result bool :=
  match e with
  | JsError _ _ st =>
      Ok (match st with Some n => n =? 404 | None => false end)
  | NonError v =>
      st <-r get v "status" ;;
      Ok (match st with VNum n => n =? 404 | _ => false end)
  end.

Definition getFile (w : World) (client : GitHubClient)
    (owner repo : value) (path ref : string) : M (option string) :=
  if negb (octokit client) then throw not_authenticated
  else
    try_catch
      (call (CGetContent owner repo path ref)
            (fun t => repos_getContent w t owner repo path ref))
      (fun e =>
         is404 <- lift (status_is_404 e) ;;
         if is404 then ret None else throw e).

Definition BATCH_SIZE : nat := 100.

(** [comments.slice(i, j)] for [0 <= i <= j]. *)
Definition slice {A} (i j : nat) (xs : list A) : list A :=
  firstn (j - i) (skipn i xs).

(** [for (let i = 0; i < comments.length; i += BATCH_SIZE)
       batches.push(comments.slice(i, i + BATCH_SIZE));] *)
Equations? batches_from {A} (comments : list A) (i : nat) : list (list A)
    by wf (List.length comments - i)%nat lt :=
  batches_from comments i with lt_dec i (List.length comments) => {
    | left _ :=
        slice i (i + BATCH_SIZE) comments ::
        batches_from comments (i + BATCH_SIZE);
    | right _ := [] }.
Proof. unfold BATCH_SIZE. lia. Qed.

Definition to_review_comment (c : Comment) : ReviewComment :=
  {| rc_path := c_path c; rc_line := c_line c; rc_body := c_body c;
     rc_side := "RIGHT" |}.

(** [for (const batch of batches) await octokit.pulls.createReview(...)] *)
Fixpoint post_batches (w : World) (owner repo pull_number : value)
    (batches : list (list Comment)) : M unit :=
  match batches with
  | [] => ret tt
  | batch :: rest =>
      let body := map to_review_comment batch in
      call (CCreateReview owner repo pull_number body)
           (fun t => pulls_createReview w t owner repo pull_number body) ;;;
      post_batches w owner repo pull_number rest
  end.

Definition createReview (w : World) (client : GitHubClient)
    (owner repo pull_number : value) (comments : list Comment) : M unit :=
  if negb (octokit client) then throw not_authenticated
  else if (List.length comments =? 0)%nat then ret tt
  else post_batches w owner repo pull_number (batches_from comments 0).

End GitHub.

(* ===================================================================== *)
(** ** src/ai/prompt-manager.ts, src/ai/anthropic-client.ts *)
(* ===================================================================== *)

Module PromptManager.

Definition nl : string := String (ascii_of_nat 10) "".

(** [icons[issue.severity]]: own properties only. *)
Definition icons (key : string) : value :=
  if String.eqb key "error" then VStr "❌"
  else if String.eqb key "warning" then VStr "⚠️"
  else if String.eqb key "info" then VStr "ℹ️"
  else VUndefined.

Definition categoryLabels (key : string) : value :=
  if String.eqb key "bug" then VStr "Bug"
  else if String.eqb key "security" then VStr "Security"
  else if String.eqb key "performance" then VStr "Performance"
  else if String.eqb key "code-quality" then VStr "Code Quality"
  else if String.eqb key "type-safety" then VStr "Type Safety"
  else if String.eqb key "documentation" then VStr "Documentation"
  else VUndefined.

Definition formatComment (issue : value) : result string :=
  severity <-r get issue "severity" ;;
  let icon := icons (to_string severity) in
  let label := categoryLabels (to_string (prop issue "category")) in
  let category := if truthy label then label else prop issue "category" in
  let comment :=
    to_string icon ++ " **" ++ to_string category ++ "**: " ++
    to_string (prop issue "message") in
  let suggestion := prop issue "suggestion" in
  if truthy suggestion then
    Ok (comment ++ nl ++ nl ++ "**Suggestion:**" ++ nl ++ "```javascript" ++
        nl ++ to_string suggestion ++ nl ++ "```")
  else Ok comment.

(** [customInstructions] is a string or [undefined] ([None]). *)
Definition buildPromptWithInstructions (basePrompt : string)
    (customInstructions : option string) : string :=
  match customInstructions with
  | Some instructions =>
      if negb (truthy (VStr instructions)) then basePrompt
      else basePrompt ++ nl ++ nl ++ "Additional Instructions:" ++ nl ++
           instructions
  | None => basePrompt
  end.

End PromptManager.

Module AnthropicClient.

(** A thrown error of class ["APIError"] stands for an instance of the
    SDK's [APIError]. *)
Definition is_APIError (e : thrown) : bool :=
  match e with
  | JsError cls _ _ => String.eqb cls "APIError"
  | NonError _ => false
  end.

(** Returns the [content] of the [AIResponse]. *)
Definition createMessage (w : World) (prompt : string) : M string :=
  try_catch
    (blocks <- call (CMessagesCreate prompt)
                    (fun t => messages_create w t prompt) ;;
     ret (join PromptManager.nl
            (map block_text
               (filter (fun b => String.eqb (block_type b) "text") blocks))))
    (fun e =>
       if is_APIError e
       then throw (Error ("Anthropic API error: " ++ message_of e))
       else throw e).

(** [validateApiKey]: a test request, [true] when it is answered. *)
Definition validateApiKey (w : World) : M bool :=
  try_catch
    (createMessage w "Hello" ;;; ret true)
    (fun _ => ret false).

End AnthropicClient.

(* ===================================================================== *)
(** ** src/ai/engine.ts *)
(* ===================================================================== *)

Module Engine.

Inductive Severity : Type := error | warning | info.

Definition Severity_name (s : Severity) : string :=
  match s with
  | error => "error"
  | warning => "warning"
  | info => "info"
  end.

(** The engine's only mutable state. *)
Record AIReviewEngine : Type := { minimumSeverity : Severity }.

Definition new_AIReviewEngine : AIReviewEngine := {| minimumSeverity := info |}.

Definition setMinimumSeverity (severity : Severity) (engine : AIReviewEngine)
  : AIReviewEngine := {| minimumSeverity := severity |}.

(** [severityOrder[key]], [None] for [undefined]. *)
Definition severityOrder (key : string) : option Z :=
  if String.eqb key "error" then Some 0
  else if String.eqb key "warning" then Some 1
  else if String.eqb key "info" then Some 2
  else None.

Definition rank (s : Severity) : Z :=
  match severityOrder (Severity_name s) with
  | Some n => n
  | None => 0
  end.

(** [a <= b] where [a] may be [undefined]: then the comparison is false. *)
Definition js_le (a : option Z) (b : Z) : bool :=
  match a with
  | Some x => x <=? b
  | None => false
  end.

Fixpoint filter_r {A} (p : A -> result bool) (xs : list A) : result (list A) :=
  match xs with
  | [] => Ok []
  | x :: rest =>
      keep <-r p x ;;
      rest' <-r filter_r p rest ;;
      Ok (if keep then x :: rest' else rest')
  end.

Fixpoint map_r {A B} (f : A -> result B) (xs : list A) : result (list B) :=
  match xs with
  | [] => Ok []
  | x :: rest =>
      y <-r f x ;;
      rest' <-r map_r f rest ;;
      Ok (y :: rest')
  end.

Fixpoint for_each_r {A} (f : A -> result unit) (xs : list A) : result unit :=
  match xs with
  | [] => Ok tt
  | x :: rest => _ <-r f x ;; for_each_r f rest
  end.

Definition required_fields : list string :=
  ["file"; "line"; "severity"; "message"; "category"].

Definition accepted_severities : list string := ["error"; "warning"; "info"].

(** The body of the [for] loop of [validateAnalysis]. *)
Definition validateIssue (issue : value) : result unit :=
  file <-r get issue "file" ;;
  if negb (truthy file) || negb (truthy (prop issue "line")) ||
     negb (truthy (prop issue "severity")) ||
     negb (truthy (prop issue "message")) ||
     negb (truthy (prop issue "category"))
  then Throw (Error
    "Each issue must have file, line, severity, message, and category")
  else if negb (includes accepted_severities (prop issue "severity"))
  then Throw (Error "Issue severity must be error, warning, or info")
  else Ok tt.

Definition validateAnalysis (analysis : value) : result unit :=
  if negb (truthy analysis) || negb (typeof_object analysis)
  then Throw (Error "Analysis must be an object")
  else
    match prop analysis "issues" with
    | VArr issues =>
        if negb (truthy (prop analysis "summary")) ||
           negb (typeof_string (prop analysis "summary"))
        then Throw (Error "Analysis must contain a summary string")
        else if negb (truthy (prop analysis "stats")) ||
                negb (typeof_object (prop analysis "stats"))
        then Throw (Error "Analysis must contain stats object")
        else for_each_r validateIssue issues
    | _ => Throw (Error "Analysis must contain an issues array")
    end.

(** The [try] block of [analyzeCode] and its [catch]. *)
Definition parse_and_validate (w : World) (content : string) : result value :=
  match (analysis <-r JSON_parse w content ;;
         _ <-r validateAnalysis analysis ;;
         Ok analysis) with
  | Ok analysis => Ok analysis
  | Throw e =>
      Throw (Error ("Invalid AI response format: " ++ message_of e))
  end.

Definition analyzeCode (w : World) (context : CodeContext) : M value :=
  let prompt := buildReviewPrompt w context in
  content <- AnthropicClient.createMessage w prompt ;;
  lift (parse_and_validate w content).

Section Comments.

(** [this.promptManager.formatComment], a dependency given to the
    engine's constructor. *)
Variable formatComment : value -> result string.

(** The callback of [filter]. *)
Definition severe_enough (floor : Severity) (issue : value) : result bool :=
  severity <-r get issue "severity" ;;
  Ok (js_le (severityOrder (to_string severity)) (rank floor)).

(** The callback of [map]. *)
Definition to_comment (issue : value) : result Comment :=
  file <-r get issue "file" ;;
  body <-r formatComment issue ;;
  Ok {| c_path := file; c_line := prop issue "line"; c_body := body |}.

Definition generateComments (engine : AIReviewEngine) (analysis : value)
  : result (list Comment) :=
  issues <-r get analysis "issues" ;;
  match issues with
  | VArr issues =>
      kept <-r filter_r (severe_enough (minimumSeverity engine)) issues ;;
      map_r to_comment kept
  | _ => Throw (TypeError "analysis.issues.filter is not a function")
  end.

End Comments.

End Engine.

(* ===================================================================== *)
(** ** src/ai/instruction-processor.ts, src/config/default.ts *)
(* ===================================================================== *)

Module InstructionProcessor.

Definition DEFAULT_BRANCH : string := "HEAD".

Definition fetchCustomInstructions (w : World) (client : GitHub.GitHubClient)
    (owner repo : value) : M (option CustomInstructions) :=
  content <- GitHub.getFile w client owner repo ".reviewthor.md" DEFAULT_BRANCH ;;
  match content with
  | Some c =>
      if truthy (VStr c) then ret (Some (parseInstructionFile w c))
      else ret None
  | None => ret None
  end.

Definition MAX_RULE_LENGTH : nat := 200.

Record ReviewConfig : Type := {
  cfg_focusAreas : list string;
  cfg_customRules : list string;
  cfg_ignorePatterns : list string;
  cfg_severity : Engine.Severity;
  cfg_maxCommentsPerPR : Z;
  cfg_enabledChecks : list string
}.

Record ValidationResult : Type := {
  isValid : bool;
  errors : list string
}.

Definition getDefaultConfig : ReviewConfig :=
  {| cfg_focusAreas :=
       ["Code quality"; "Bug detection"; "Security issues"; "Performance";
        "Best practices"];
     cfg_customRules :=
       ["Use const/let instead of var"; "Handle errors properly";
        "Add appropriate TypeScript types";
        "Follow consistent naming conventions"];
     cfg_ignorePatterns :=
       ["node_modules/**"; "dist/**"; "build/**"; "*.min.js"; "*.bundle.js"];
     cfg_severity := Engine.warning;
     cfg_maxCommentsPerPR := 20;
     cfg_enabledChecks :=
       ["syntax"; "security"; "performance"; "best-practices"; "type-safety"]
  |}.

(** [[...new Set(xs)]]: each string once, at its first occurrence.
    [seen] holds the strings already in the set. *)
Fixpoint set_from (seen : list string) (xs : list string) : list string :=
  match xs with
  | [] => []
  | x :: rest =>
      if existsb (String.eqb x) seen then set_from seen rest
      else x :: set_from (x :: seen) rest
  end.

Definition set_of (xs : list string) : list string := set_from [] xs.

(** The optional [severity] of the interface [CustomInstructions], which
    the record of [Env] leaves out, is passed beside it. *)
Definition mergeWithDefaults (custom : CustomInstructions)
    (custom_severity : option Engine.Severity) : ReviewConfig :=
  let defaults := getDefaultConfig in
  {| cfg_focusAreas :=
       set_of (cfg_focusAreas defaults ++ focusAreas custom)%list;
     cfg_customRules := (cfg_customRules defaults ++ customRules custom)%list;
     cfg_ignorePatterns :=
       (cfg_ignorePatterns defaults ++ ignorePatterns custom)%list;
     cfg_severity := match custom_severity with
                     | Some severity => severity
                     | None => cfg_severity defaults
                     end;
     cfg_maxCommentsPerPR := cfg_maxCommentsPerPR defaults;
     cfg_enabledChecks := cfg_enabledChecks defaults |}.

(** The loop of [isValidGlobPattern] over the characters, then the test
    [bracketCount !== 0]. *)
Fixpoint brackets_close (pattern : string) (bracketCount : Z) : bool :=
  match pattern with
  | EmptyString => bracketCount =? 0
  | String char rest =>
      let opened :=
        if Ascii.eqb char "["%char then bracketCount + 1 else bracketCount in
      let closed :=
        if Ascii.eqb char "]"%char then opened - 1 else opened in
      if closed <? 0 then false else brackets_close rest closed
  end.

(** The character class of [validPattern]. *)
Definition allowed_char (c : ascii) : bool :=
  let n := nat_of_ascii c in
  ((97 <=? n) && (n <=? 122) || (65 <=? n) && (n <=? 90) ||
   (48 <=? n) && (n <=? 57))%nat ||
  existsb (Ascii.eqb c)
    ["-"; "_"; "."; "*"; "/"; "?"; "["; "]"; "!"; "{"; "}"]%char.

Fixpoint all_allowed (pattern : string) : bool :=
  match pattern with
  | EmptyString => true
  | String c rest => allowed_char c && all_allowed rest
  end.

(** [/^[a-zA-Z0-9\-_.*/?[\]!{}]+$/.test(pattern)] *)
Definition validPattern_test (pattern : string) : bool :=
  negb (String.eqb pattern "") && all_allowed pattern.

Definition isValidGlobPattern (pattern : string) : bool :=
  if negb (brackets_close pattern 0) then false
  else validPattern_test pattern.

Definition too_long (s : string) : bool :=
  (MAX_RULE_LENGTH <? String.length s)%nat.

Definition validateInstructions (instructions : CustomInstructions)
  : ValidationResult :=
  let area_errors :=
    flat_map (fun area =>
                if too_long area
                then ["Focus area too long (max 200 characters)"] else [])
             (focusAreas instructions) in
  let rule_errors :=
    flat_map (fun rule =>
                if too_long rule
                then ["Custom rule too long (max 200 characters)"] else [])
             (customRules instructions) in
  let pattern_errors :=
    flat_map (fun pattern =>
                if negb (isValidGlobPattern pattern)
                then ["Invalid ignore pattern: " ++ pattern] else [])
             (ignorePatterns instructions) in
  let errors := (area_errors ++ rule_errors ++ pattern_errors)%list in
  {| isValid := (List.length errors =? 0)%nat; errors := errors |}.

End InstructionProcessor.

Module defaultConfig.

Definition ignoredPaths : list string :=
  ["node_modules/**"; "dist/**"; "build/**"; "coverage/**";
   "**/*.min.js"; "**/*.bundle.js"; "vendor/**"].

Definition maxCommentsPerPR : nat := 20.
Definition maxFileSize : Z := 1024 * 1024.
Definition maxFilesPerReview : nat := 50.

End defaultConfig.

(* ===================================================================== *)
(** ** src/handlers/events/pull-request.ts, src/index.ts *)
(* ===================================================================== *)

Module Pipeline.

Import Webhook.

(** [pattern.slice(0, -3)] *)
Definition drop_last3 (pattern : string) : string :=
  String.substring 0 (String.length pattern - 3) pattern.

(** [path] is a file name of the host or the [file] of a finding; only a
    string has [startsWith]. *)
Definition matchesPattern (w : World) (path : value) (pattern : string)
  : result bool :=
  if endsWith pattern "/**" then
    let base := drop_last3 pattern in
    match path with
    | VStr p => Ok (startsWith p (base ++ "/") || String.eqb p base)
    | _ => Throw (TypeError "path.startsWith is not a function")
    end
  else glob_regex_test w pattern (to_string path).

(** [patterns.some(pattern => matchesPattern(path, pattern))] *)
Fixpoint matches_some (w : World) (path : value) (patterns : list string)
  : result bool :=
  match patterns with
  | [] => Ok false
  | pattern :: rest =>
      hit <-r matchesPattern w path pattern ;;
      if hit then Ok true else matches_some w path rest
  end.

(** The callback of [files.filter]. *)
Definition keep_file (w : World) (correlationId : string) (file : File)
  : M bool :=
  if changes file >? defaultConfig.maxFileSize then
    log "info" "Skipping large file" correlationId ;;;
    ret false
  else
    shouldIgnore <- lift (matches_some w (VStr (filename file))
                                       defaultConfig.ignoredPaths) ;;
    if shouldIgnore then
      log "debug" "Ignoring file based on pattern" correlationId ;;;
      ret false
    else ret true.

Definition to_code_file (file : File) : CodeFile :=
  {| cf_path := filename file;
     cf_content := "";
     cf_diff := match patch file with
                | Some p => if truthy (VStr p) then p else ""
                | None => ""
                end |}.

(** The callback of [comments.filter]. *)
Definition keep_comment (w : World) (patterns : list string) (comment : Comment)
  : result bool :=
  shouldIgnore <-r matches_some w (c_path comment) patterns ;;
  Ok (negb shouldIgnore).

(** The [try] block of [handlePullRequest]. *)
Definition handlePullRequest_try (w : World) (event : GitHubEvent)
    (pullRequest : value) (correlationId : string) : M unit :=
  if truthy (prop pullRequest "draft") then
    log "info" "Skipping draft PR" correlationId
  else
    config <- call CGetConfig (getConfig w) ;;
    let githubClient := GitHub.new_GitHubClient in
    githubClient <- GitHub.authenticate w githubClient (installationId event) ;;
    files <- GitHub.getFiles w githubClient (repository_owner event)
               (repository_name event) (prop pullRequest "number") ;;
    filesToReview <- filterM (keep_file w correlationId) files ;;
    if (List.length filesToReview =? 0)%nat then
      log "info" "No files to review" correlationId
    else
      let limitedFiles := slice0 defaultConfig.maxFilesPerReview filesToReview in
      (if (List.length limitedFiles <? List.length filesToReview)%nat
       then log "warn" "File limit exceeded, reviewing subset" correlationId
       else ret tt) ;;;
      let aiEngine := Engine.new_AIReviewEngine in
      customInstructions <-
        InstructionProcessor.fetchCustomInstructions w githubClient
          (repository_owner event) (repository_name event) ;;
      (match customInstructions with
       | Some _ => log "info" "Found custom instructions" correlationId
       | None => ret tt
       end) ;;;
      let body := prop pullRequest "body" in
      let reviewContext :=
        {| cc_files := map to_code_file limitedFiles;
           prDescription := if truthy body then body else VStr "";
           repository := to_string (repository_owner event) ++ "/" ++
                         to_string (repository_name event) |} in
      log "info" "Starting AI analysis" correlationId ;;;
      analysis <- Engine.analyzeCode w reviewContext ;;
      log "info" "AI analysis complete" correlationId ;;;
      comments <- lift (Engine.generateComments PromptManager.formatComment
                          aiEngine analysis) ;;
      filteredComments <-
        match customInstructions with
        | Some ci =>
            lift (Engine.filter_r (keep_comment w (ignorePatterns ci)) comments)
        | None => ret comments
        end ;;
      let finalComments := slice0 defaultConfig.maxCommentsPerPR filteredComments in
      (if (0 <? List.length finalComments)%nat then
         log "info" "Posting review comments" correlationId ;;;
         GitHub.createReview w githubClient (repository_owner event)
           (repository_name event) (prop pullRequest "number") finalComments
       else log "info" "No comments to post" correlationId) ;;;
      log "info" "Pull request processing complete" correlationId.

Definition handlePullRequest (w : World) (event : GitHubEvent)
    (correlationId : string) : M unit :=
  pullRequest <- lift (get (payload event) "pull_request") ;;
  _ <- lift (get pullRequest "number") ;;
  log "info" "Processing pull request" correlationId ;;;
  try_catch
    (handlePullRequest_try w event pullRequest correlationId)
    (fun e => log_error "Error processing pull request" correlationId e).

(** [WebhookHandler.routeEvent], given the registered handler. *)
Definition routeEvent (pullRequestHandler : option (GitHubEvent -> M unit))
    (event : GitHubEvent) : M unit :=
  match type event with
  | pull_request_opened | pull_request_synchronize | pull_request_reopened =>
      match pullRequestHandler with
      | Some handler => handler event
      | None => ret tt
      end
  | pull_request_review_submitted => ret tt
  end.

(** What the responder reads from the request: [req.body] ([undefined]
    when absent), [req.rawBody] decoded as UTF-8, and three headers. *)
Record Request : Type := {
  body : value;
  rawBody : option string;
  x_github_delivery : option string;
  x_hub_signature_256 : option string;
  x_github_event : option string
}.

Record Response : Type := {
  status : Z;
  sent : string
}.

(** Truthiness of a header value that is a string or [undefined]. *)
Definition present (h : option string) : bool :=
  match h with
  | Some s => truthy (VStr s)
  | None => false
  end.

Definition header_text (h : option string) : string :=
  match h with
  | Some s => s
  | None => ""
  end.

Definition respond (st : Z) (text : string) : M Response :=
  ret {| status := st; sent := text |}.

Definition reviewthor (w : World) (req : Request) : M Response :=
  let correlationId :=
    if present (x_github_delivery req)
    then header_text (x_github_delivery req)
    else generateCorrelationId w in
  log "info" "Webhook received" correlationId ;;;
  try_catch
    (match rawBody req with
     | Some raw =>
         if negb (truthy (body req)) then
           log "warn" "Missing request body" correlationId ;;;
           respond 400 "Missing request body"
         else
           let signature := x_hub_signature_256 req in
           if negb (present signature) then
             log "warn" "Missing signature header" correlationId ;;;
             respond 401 "Invalid signature"
           else
             let eventType := x_github_event req in
             if negb (present eventType) then
               log "warn" "Missing event type header" correlationId ;;;
               respond 400 "Missing event type"
             else if negb (String.eqb (header_text eventType) "pull_request") &&
                     negb (String.eqb (header_text eventType)
                                      "pull_request_review") then
               log "info" "Ignoring non-pull request event" correlationId ;;;
               respond 200 "Event ignored"
             else
               config <- call CGetConfig (getConfig w) ;;
               valid <- lift (validateSignature (hmac_sha256_hex w)
                                (githubWebhookSecret config) raw signature) ;;
               emit (At (ValidateSignature valid)) ;;;
               if negb valid then
                 log "warn" "Invalid webhook signature" correlationId ;;;
                 respond 401 "Invalid signature"
               else
                 emit (At ParseEvent) ;;;
                 event <- lift (parseEvent (body req)) ;;
                 let handler :=
                   Some (fun evt => handlePullRequest w evt correlationId) in
                 emit (At RouteEvent) ;;;
                 routeEvent handler event ;;;
                 log "info" "Webhook processed successfully" correlationId ;;;
                 respond 200 "OK"
     | None =>
         log "warn" "Missing request body" correlationId ;;;
         respond 400 "Missing request body"
     end)
    (fun e =>
       log_error "Error processing webhook" correlationId e ;;;
       respond 500 "Internal server error").

End Pipeline.

(* ===================================================================== *)
(** ** The properties of the specification, in the terms of the model *)
(* ===================================================================== *)

Module Spec.

Import Webhook.








(** The function [validateSignature] computes: the header is exactly the
    expected one. *)
Definition signature_accepted (hmac : string -> string -> string)
    (secret payload : string) (signature : option string) : bool :=
  match signature with
  | None => false
  | Some sig =>
      startsWith sig "sha256=" &&
      String.eqb sig ("sha256=" ++ hmac secret payload)
  end.

(** *** Packing under the token budget *)

Import ContextBuilder.

(** [f'] is [f] with its content dropped and its diff kept or clipped:
    a prefix of it followed by the truncation marker. *)
Definition cut_down (f f' : FileContext) : Prop :=
  path f' = path f /\
  language f' = language f /\
  content f' = "" /\
  (diff f' = diff f \/
   exists clipped,
     String.prefix clipped (diff f) = true /\
     diff f' = clipped ++ truncation_marker).

(** [output] is a non-empty prefix of [input] whose last file, and no
    other, is cut down. *)
Definition truncated_prefix (input output : list FileContext) : Prop :=
  exists pre f post f',
    input = (pre ++ f :: post)%list /\
    output = (pre ++ [f'])%list /\
    cut_down f f'.

(** The packing property as the specification states it. *)
Definition pack_claim (this : ContextBuilder) (context : FullContext) : Prop :=
  let r := optimizeForTokenLimit this context in
  let estimated := estimateTokens this (files context) (pr context) in
  if estimated <=? MAX_TOKENS this then
    opt_files r = files context /\ truncated r = false /\
    tokenCount r = estimated
  else
    truncated_prefix (files context) (opt_files r) /\
    truncated r = true /\ tokenCount r = MAX_TOKENS this.

(** The same, with the case of an input without files set apart. *)
Definition pack_property (this : ContextBuilder) (context : FullContext)
  : Prop :=
  let r := optimizeForTokenLimit this context in
  let estimated := estimateTokens this (files context) (pr context) in
  if estimated <=? MAX_TOKENS this then
    opt_files r = files context /\ truncated r = false /\
    tokenCount r = estimated
  else
    match files context with
    | [] => opt_files r = []
    | _ :: _ => truncated_prefix (files context) (opt_files r)
    end /\
    truncated r = true /\ tokenCount r = MAX_TOKENS this.

Definition sum_file_chars (fs : list FileContext) : Z :=
  fold_right (fun f acc => estimateFileChars f + acc) 0 fs.

Definition sum_file_tokens (this : ContextBuilder) (fs : list FileContext) : Z :=
  fold_right (fun f acc => estimateFileTokens this f + acc) 0 fs.

(** A string of [2 ^ n] copies of [s]. *)
Definition doubled (n : nat) (s : string) : string :=
  Nat.iter n (fun x => x ++ x) s.

(** No files, and a description of [2 ^ 20] characters. *)
Definition oversized_description : FullContext :=
  {| files := [];
     pr := {| title := "Test"; description := doubled 20 "x";
              author := "user"; targetBranch := "main";
              sourceBranch := "feature" |};
     relatedFiles := [];
     totalTokens := 0 |}.

(** *** Posting review comments in batches *)

Import GitHub.

(** The effect of posting one batch, and the host's answer to the batch
    number [i] of [batches] when the batches before it have been sent
    after the trace [t]. *)
Definition review_call (owner repo pull_number : value) (batch : list Comment)
  : Effect :=
  Ext (CCreateReview owner repo pull_number (map to_review_comment batch)).

Definition answer_at (w : World) (owner repo pull_number : value) (t : Trace)
    (batches : list (list Comment)) (i : nat) : result unit :=
  pulls_createReview w
    (t ++ map (review_call owner repo pull_number) (firstn i batches))%list
    owner repo pull_number (map to_review_comment (nth i batches [])).

(** Every batch was sent, in order, each after the one before it was
    answered without error. *)
Definition all_posted (w : World) (owner repo pull_number : value) (t : Trace)
    (batches : list (list Comment)) (run : result unit * Trace) : Prop :=
  fst run = Ok tt /\
  snd run = (t ++ map (review_call owner repo pull_number) batches)%list /\
  forall i, (i < List.length batches)%nat ->
            answer_at w owner repo pull_number t batches i = Ok tt.

(** The batch number [j] was the first one refused: the batches up to it
    were sent and stay sent, no later one was, and the error is thrown. *)
Definition aborted_at (w : World) (owner repo pull_number : value) (t : Trace)
    (batches : list (list Comment)) (run : result unit * Trace) : Prop :=
  exists j e,
    (j < List.length batches)%nat /\
    (forall i, (i < j)%nat ->
               answer_at w owner repo pull_number t batches i = Ok tt) /\
    answer_at w owner repo pull_number t batches j = Throw e /\
    fst run = Throw e /\
    snd run = (t ++ map (review_call owner repo pull_number)
                        (firstn (S j) batches))%list.

(** *** Review analysis and comments *)

Import Engine.


(** The first four checks of [validateAnalysis]. *)
Definition structure_ok (analysis : value) : bool :=
  truthy analysis && typeof_object analysis &&
  truthy (prop analysis "summary") && typeof_string (prop analysis "summary") &&
  truthy (prop analysis "stats") && typeof_object (prop analysis "stats").

(** A finding that lacks one of the five required fields, or whose
    severity is not one of the three accepted values. *)
Definition bad_finding (issue : value) : Prop :=
  (exists field, In field required_fields /\ prop issue field = VUndefined) \/
  includes accepted_severities (prop issue "severity") = false.

(** *** The handlers *)

Import Pipeline.

(** Whatever the computation does, it only appends effects that satisfy
    [P] to the trace. *)
Definition emits (P : Effect -> Prop) {A} (m : M A) : Prop :=
  forall t, exists new, snd (m t) = (t ++ new)%list /\ Forall P new.

(** Logging and calls to the outside, as opposed to the recorded program
    points of the responder. *)
Definition log_or_call (e : Effect) : Prop :=
  match e with
  | At _ => False
  | _ => True
  end.

Definition OK_response : Response := {| status := 200; sent := "OK" |}.
Definition ignored_response : Response :=
  {| status := 200; sent := "Event ignored" |}.
Definition invalid_signature_response : Response :=
  {| status := 401; sent := "Invalid signature" |}.

(** The correlation identifier the responder uses for a request. *)
Definition correlationId_of (w : World) (req : Request) : string :=
  if present (x_github_delivery req)
  then header_text (x_github_delivery req)
  else generateCorrelationId w.

Definition received (w : World) (req : Request) : Effect :=
  Log "info" "Webhook received" (correlationId_of w req) None.

(** The event-type header names one of the two pull-request events. *)
Definition pull_request_header (req : Request) : bool :=
  present (x_github_event req) &&
  (String.eqb (header_text (x_github_event req)) "pull_request" ||
   String.eqb (header_text (x_github_event req)) "pull_request_review").



(** *** Sample worlds and inputs *)

Definition sample_config : Config :=
  {| githubWebhookSecret := "test-secret";
     githubAppId := VNum 123456;
     githubPrivateKey := "test-private-key";
     anthropicApiKey := "test-api-key";
     anthropicModel := "claude-3-opus-20240229" |}.

Definition sample_digest : string :=
  "0000000000000000000000000000000000000000000000000000000000000000".

(** A world given by the answers to authentication, to the listing of
    files, and to the review request, and by what the response parses to.
    There is no instruction file in the repository. *)
Definition sample_world (auth : result unit) (listed : list File)
    (blocks : result (list ContentBlock)) (parsed : result value) : World :=
  {| getConfig := fun _ => Ok sample_config;
     getInstallationOctokit := fun _ _ => auth;
     pulls_listFiles := fun _ _ _ _ => Ok listed;
     repos_getContent := fun _ _ _ _ _ =>
       Throw (JsError "HttpError" "Not Found" (Some 404));
     messages_create := fun _ _ => blocks;
     pulls_createReview := fun _ _ _ _ _ => Ok tt;
     hmac_sha256_hex := fun _ _ => sample_digest;
     JSON_parse := fun _ => parsed;
     glob_regex_test := fun _ _ => Ok false;
     parseInstructionFile := fun c =>
       {| focusAreas := []; customRules := []; ignorePatterns := [];
          rawContent := c |};
     buildReviewPrompt := fun _ => "Please review the following code changes";
     generateCorrelationId := "rev-0-000000000" |}.

Definition sample_file : File :=
  {| filename := "src/index.js"; file_status := "modified";
     additions := 5; deletions := 2; changes := 7;
     patch := Some "@@ -1,5 +1,5 @@" |}.

(** A finding without a line number. *)
Definition finding_without_line : value :=
  VObj [("file", VStr "src/index.js"); ("severity", VStr "warning");
        ("message", VStr "Consider using const");
        ("category", VStr "code-quality")].

Definition sample_finding : value :=
  VObj [("file", VStr "src/index.js"); ("line", VNum 10);
        ("severity", VStr "warning");
        ("message", VStr "Consider using const");
        ("category", VStr "code-quality")].

Definition analysis_of (issues : list value) : value :=
  VObj [("issues", VArr issues); ("summary", VStr "Found issues");
        ("stats", VObj [("total", VNum 1)])].

Definition sample_payload (pull_request : value) : value :=
  VObj [("action", VStr "opened");
        ("pull_request", pull_request);
        ("repository", VObj [("name", VStr "test-repo");
                             ("owner", VObj [("login", VStr "test-owner")])]);
        ("installation", VObj [("id", VNum 123)])].

Definition sample_event (pull_request : value) : GitHubEvent :=
  {| type := pull_request_opened;
     payload := sample_payload pull_request;
     repository_name := VStr "test-repo";
     repository_owner := VStr "test-owner";
     installationId := VNum 123 |}.

Definition sample_request (signature event : option string) : Request :=
  {| body := sample_payload (VObj [("number", VNum 1); ("draft", VBool false)]);
     rawBody := Some "{}";
     x_github_delivery := Some "delivery-1";
     x_hub_signature_256 := signature;
     x_github_event := event |}.

Definition processing (correlationId : string) : Effect :=
  Log "info" "Processing pull request" correlationId None.

Definition has_body (req : Request) : Prop :=
  truthy (body req) = true /\ exists raw, rawBody req = Some raw.


(** The paths through the responder: what it answers and what it adds
    to the trace [t], under which conditions. *)
Inductive outcome (w : World) (req : Request) (t : Trace)
  : result Response * Trace -> Prop :=
| missing_body :
    truthy (body req) = false \/ rawBody req = None ->
    outcome w req t
      (Ok {| status := 400; sent := "Missing request body" |},
       t ++ [received w req;
             Log "warn" "Missing request body" (correlationId_of w req) None])%list
| missing_signature :
    has_body req ->
    present (x_hub_signature_256 req) = false ->
    outcome w req t
      (Ok invalid_signature_response,
       t ++ [received w req;
             Log "warn" "Missing signature header" (correlationId_of w req) None])%list
| missing_event_type :
    has_body req ->
    present (x_hub_signature_256 req) = true ->
    present (x_github_event req) = false ->
    outcome w req t
      (Ok {| status := 400; sent := "Missing event type" |},
       t ++ [received w req;
             Log "warn" "Missing event type header" (correlationId_of w req) None])%list
| event_ignored :
    has_body req ->
    present (x_hub_signature_256 req) = true ->
    present (x_github_event req) = true ->
    pull_request_header req = false ->
    outcome w req t
      (Ok ignored_response,
       t ++ [received w req;
             Log "info" "Ignoring non-pull request event"
                 (correlationId_of w req) None])%list
| config_failed e :
    has_body req ->
    present (x_hub_signature_256 req) = true ->
    pull_request_header req = true ->
    getConfig w (t ++ [received w req])%list = Throw e ->
    outcome w req t
      (Ok {| status := 500; sent := "Internal server error" |},
       t ++ [received w req; Ext CGetConfig;
             Log "error" "Error processing webhook" (correlationId_of w req)
                 (Some (message_of e))])%list
| signature_rejected config raw :
    truthy (body req) = true ->
    rawBody req = Some raw ->
    present (x_hub_signature_256 req) = true ->
    pull_request_header req = true ->
    getConfig w (t ++ [received w req])%list = Ok config ->
    validateSignature (hmac_sha256_hex w) (githubWebhookSecret config) raw
      (x_hub_signature_256 req) = Ok false ->
    outcome w req t
      (Ok invalid_signature_response,
       t ++ [received w req; Ext CGetConfig; At (ValidateSignature false);
             Log "warn" "Invalid webhook signature"
                 (correlationId_of w req) None])%list
| parse_failed config raw e :
    truthy (body req) = true ->
    rawBody req = Some raw ->
    present (x_hub_signature_256 req) = true ->
    pull_request_header req = true ->
    getConfig w (t ++ [received w req])%list = Ok config ->
    validateSignature (hmac_sha256_hex w) (githubWebhookSecret config) raw
      (x_hub_signature_256 req) = Ok true ->
    parseEvent (body req) = Throw e ->
    outcome w req t
      (Ok {| status := 500; sent := "Internal server error" |},
       t ++ [received w req; Ext CGetConfig; At (ValidateSignature true);
             At ParseEvent;
             Log "error" "Error processing webhook" (correlationId_of w req)
                 (Some (message_of e))])%list
| processed config raw event handled :
    truthy (body req) = true ->
    rawBody req = Some raw ->
    present (x_hub_signature_256 req) = true ->
    pull_request_header req = true ->
    getConfig w (t ++ [received w req])%list = Ok config ->
    validateSignature (hmac_sha256_hex w) (githubWebhookSecret config) raw
      (x_hub_signature_256 req) = Ok true ->
    parseEvent (body req) = Ok event ->
    Forall log_or_call handled ->
    outcome w req t
      (Ok OK_response,
       t ++ [received w req; Ext CGetConfig; At (ValidateSignature true);
             At ParseEvent; At RouteEvent] ++ handled ++
            [Log "info" "Webhook processed successfully"
                 (correlationId_of w req) None])%list.

(** The webhook was accepted: it has a body, a signature that is valid
    for the configured secret, a pull-request event type, and a payload
    that classifies as [event]. *)
Definition accepted (w : World) (req : Request) (t : Trace)
    (event : GitHubEvent) : Prop :=
  truthy (body req) = true /\
  present (x_hub_signature_256 req) = true /\
  pull_request_header req = true /\
  (exists raw config,
     rawBody req = Some raw /\
     getConfig w (t ++ [received w req])%list = Ok config /\
     validateSignature (hmac_sha256_hex w) (githubWebhookSecret config) raw
       (x_hub_signature_256 req) = Ok true) /\
  parseEvent (body req) = Ok event.

End Spec.

(* ===================================================================== *)
(** ** Further properties of the code, in the terms of the model *)
(* ===================================================================== *)

Module Props.

Import Webhook ContextBuilder GitHub Engine Pipeline Spec.

(** *** A program logic for the handlers *)

(** Whatever [m] does from any trace, it only appends effects that
    satisfy [P], and a value it returns satisfies [Q]. *)
Definition triple {A} (P : Effect -> Prop) (m : M A) (Q : A -> Prop) : Prop :=
  forall t, exists new,
    snd (m t) = (t ++ new)%list /\ Forall P new /\
    forall a, fst (m t) = Ok a -> Q a.

(** *** What the pull-request handler does *)

(** [payload.pull_request] of an event. *)
Definition pull_request_of (event : GitHubEvent) : value :=
  prop (payload event) "pull_request".

(** The context the handler sends for review, for the files it kept. *)
Definition review_context_of (event : GitHubEvent) (kept : list File)
  : CodeContext :=
  let body := prop (pull_request_of event) "body" in
  {| cc_files := map to_code_file kept;
     prDescription := if truthy body then body else VStr "";
     repository := to_string (repository_owner event) ++ "/" ++
                   to_string (repository_name event) |}.

(** A file the handler lets through: a JavaScript or TypeScript file of
    at most [maxFileSize] changes that matches none of the ignored
    paths. *)
Definition reviewable (w : World) (file : File) : Prop :=
  is_source_file (filename file) = true /\
  changes file <= defaultConfig.maxFileSize /\
  matches_some w (VStr (filename file)) defaultConfig.ignoredPaths = Ok false.

(** Everything [handlePullRequest] may add to the trace for [event]. *)
Definition handler_effect (w : World) (event : GitHubEvent)
    (correlationId : string) (e : Effect) : Prop :=
  match e with
  | Log _ _ c _ => c = correlationId
  | Ext CGetConfig => True
  | Ext (CGetInstallationOctokit id) => id = installationId event
  | Ext (CListFiles owner repo number) =>
      owner = repository_owner event /\ repo = repository_name event /\
      number = prop (pull_request_of event) "number"
  | Ext (CGetContent owner repo path ref) =>
      owner = repository_owner event /\ repo = repository_name event /\
      path = ".reviewthor.md" /\ ref = "HEAD"
  | Ext (CMessagesCreate prompt) =>
      exists kept,
        prompt = buildReviewPrompt w (review_context_of event kept) /\
        (1 <= List.length kept <= defaultConfig.maxFilesPerReview)%nat /\
        Forall (reviewable w) kept
  | Ext (CCreateReview owner repo number comments) =>
      owner = repository_owner event /\ repo = repository_name event /\
      number = prop (pull_request_of event) "number" /\
      (1 <= List.length comments <= defaultConfig.maxCommentsPerPR)%nat /\
      Forall (fun c => rc_side c = "RIGHT") comments
  | At _ => False
  end.

(** The log entries carry the correlation identifier [c]. *)
Definition logs_with (c : string) (e : Effect) : Prop :=
  match e with
  | Log _ _ c' _ => c' = c
  | _ => True
  end.

(** What the handler sends for review: between 1 and 50 reviewable
    files, without their content, with the description of the pull
    request and the name of the repository. *)
Definition review_request_ok (w : World) (event : GitHubEvent) (e : Effect)
  : Prop :=
  match e with
  | Ext (CMessagesCreate prompt) =>
      exists kept,
        prompt = buildReviewPrompt w (review_context_of event kept) /\
        (1 <= List.length kept <= 50)%nat /\
        Forall (reviewable w) kept /\
        Forall (fun f => cf_content f = "") (map to_code_file kept)
  | _ => True
  end.

(** What the handler posts: between 1 and 20 comments on the pull
    request of the event, each on the right side of the diff. *)
Definition review_post_ok (event : GitHubEvent) (e : Effect) : Prop :=
  match e with
  | Ext (CCreateReview owner repo number comments) =>
      owner = repository_owner event /\ repo = repository_name event /\
      number = prop (pull_request_of event) "number" /\
      (1 <= List.length comments <= 20)%nat /\
      Forall (fun c => rc_side c = "RIGHT") comments
  | _ => True
  end.

(** Whom the handler talks to: the installation, the repository and the
    pull request of the event, and the one instruction file. *)
Definition addresses_event (event : GitHubEvent) (e : Effect) : Prop :=
  match e with
  | Ext (CGetInstallationOctokit id) => id = installationId event
  | Ext (CListFiles owner repo number) =>
      owner = repository_owner event /\ repo = repository_name event /\
      number = prop (pull_request_of event) "number"
  | Ext (CGetContent owner repo path ref) =>
      owner = repository_owner event /\ repo = repository_name event /\
      path = ".reviewthor.md" /\ ref = "HEAD"
  | Ext (CCreateReview owner repo number _) =>
      owner = repository_owner event /\ repo = repository_name event /\
      number = prop (pull_request_of event) "number"
  | _ => True
  end.

(** The kinds of external calls, and how many calls of a kind a list of
    effects holds. *)
Inductive CallKind : Type :=
| KGetConfig | KAuthenticate | KListFiles | KGetContent
| KMessagesCreate | KCreateReview.

Definition kind_of (c : Call) : CallKind :=
  match c with
  | CGetConfig => KGetConfig
  | CGetInstallationOctokit _ => KAuthenticate
  | CListFiles _ _ _ => KListFiles
  | CGetContent _ _ _ _ => KGetContent
  | CMessagesCreate _ => KMessagesCreate
  | CCreateReview _ _ _ _ => KCreateReview
  end.

Definition CallKind_eqb (a b : CallKind) : bool :=
  match a, b with
  | KGetConfig, KGetConfig | KAuthenticate, KAuthenticate
  | KListFiles, KListFiles | KGetContent, KGetContent
  | KMessagesCreate, KMessagesCreate | KCreateReview, KCreateReview => true
  | _, _ => false
  end.

Definition is_call (k : CallKind) (e : Effect) : nat :=
  match e with
  | Ext c => if CallKind_eqb (kind_of c) k then 1 else 0
  | _ => 0
  end.

Definition calls_of (k : CallKind) (l : list Effect) : nat :=
  list_sum (map (is_call k) l).

(** Whatever [m] does from any trace, it adds at most [n] calls of the
    kind [k]. *)
Definition at_most (k : CallKind) (n : nat) {A} (m : M A) : Prop :=
  forall t, exists new,
    snd (m t) = (t ++ new)%list /\ (calls_of k new <= n)%nat.

(** The six answers of the responder. *)
Definition responses : list Response :=
  [ {| status := 200; sent := "OK" |};
    {| status := 200; sent := "Event ignored" |};
    {| status := 400; sent := "Missing request body" |};
    {| status := 400; sent := "Missing event type" |};
    {| status := 401; sent := "Invalid signature" |};
    {| status := 500; sent := "Internal server error" |} ].

(** *** Findings *)

(** A finding that [validateAnalysis] lets through: an object-like value
    with the five required fields truthy and one of the three
    severities. *)
Definition complete_finding (issue : value) : bool :=
  negb (nullish issue) &&
  truthy (prop issue "file") && truthy (prop issue "line") &&
  truthy (prop issue "severity") && truthy (prop issue "message") &&
  truthy (prop issue "category") &&
  includes accepted_severities (prop issue "severity").

(** *** Instructions of a repository *)

(** The instructions [custom] with other focus areas, or other rules. *)
Definition with_focusAreas (areas : list string) (custom : CustomInstructions)
  : CustomInstructions :=
  {| focusAreas := areas; customRules := customRules custom;
     ignorePatterns := ignorePatterns custom; rawContent := rawContent custom |}.

Definition with_customRules (rules : list string) (custom : CustomInstructions)
  : CustomInstructions :=
  {| focusAreas := focusAreas custom; customRules := rules;
     ignorePatterns := ignorePatterns custom; rawContent := rawContent custom |}.

(** The three lists of a merged configuration, read as instructions. *)
Definition instructions_of (config : InstructionProcessor.ReviewConfig)
    (raw : string) : CustomInstructions :=
  {| focusAreas := InstructionProcessor.cfg_focusAreas config;
     customRules := InstructionProcessor.cfg_customRules config;
     ignorePatterns := InstructionProcessor.cfg_ignorePatterns config;
     rawContent := raw |}.

(** How many more [[] than []] a text has. *)
Fixpoint bracket_depth (s : string) : Z :=
  match s with
  | EmptyString => 0
  | String c rest =>
      (if Ascii.eqb c "["%char then 1 else 0) -
      (if Ascii.eqb c "]"%char then 1 else 0) + bracket_depth rest
  end.

(** Every bracket that closes has been opened, and every bracket that
    has been opened closes. *)
Definition brackets_balanced (pattern : string) : Prop :=
  (forall n, 0 <= bracket_depth (String.substring 0 n pattern)) /\
  bracket_depth pattern = 0.

(** How many items of a list a test selects. *)
Definition count_if {A} (test : A -> bool) (xs : list A) : nat :=
  List.length (filter test xs).

(** *** Ignored directories *)

(** The directories [defaultConfig.ignoredPaths] names as a whole. *)
Definition ignored_directories : list string :=
  ["node_modules"; "dist"; "build"; "coverage"; "vendor"].

(** [name] is [dir] or lies below it. *)
Definition inside (dir name : string) : Prop :=
  name = dir \/ exists rest, name = dir ++ "/" ++ rest.

Definition outside_ignored_directories (file : File) : Prop :=
  forall dir, In dir ignored_directories -> ~ inside dir (filename file).

(** A review is asked only for files outside the ignored directories. *)
Definition review_outside_ignored (w : World) (event : GitHubEvent)
    (e : Effect) : Prop :=
  match e with
  | Ext (CMessagesCreate prompt) =>
      exists kept,
        prompt = buildReviewPrompt w (review_context_of event kept) /\
        Forall outside_ignored_directories kept
  | _ => True
  end.

(** *** Classification of a payload *)

(** The fields [parseEvent] asks for before it looks at the kind. *)
Definition fields_present (payload : value) : bool :=
  truthy (prop (prop payload "installation") "id") &&
  truthy (prop (prop payload "repository") "name") &&
  truthy (prop (prop (prop payload "repository") "owner") "login").

(** The kind a payload with the action [action] is given. *)
Definition kind_for (payload : value) (kind : string) : Prop :=
  (truthy (prop payload "pull_request") = true /\
   exists action,
     In action ["opened"; "synchronize"; "reopened"] /\
     prop payload "action" = VStr action /\
     kind = "pull_request." ++ action) \/
  (truthy (prop payload "review") = true /\
   prop payload "action" = VStr "submitted" /\
   kind = "pull_request_review.submitted").

(** *** Sample inputs *)






(** One file whose diff of 256 characters does not fit a budget of 60
    tokens. *)
Definition long_diff_context : FullContext :=
  {| files := [ {| path := "src/index.ts"; content := "const x = 1;";
                   diff := doubled 5 "+const x"; language := "typescript" |} ];
     pr := {| title := "Test"; description := "A change";
              author := "user"; targetBranch := "main";
              sourceBranch := "feature" |};
     relatedFiles := [];
     totalTokens := 0 |}.

End Props.

(* ===================================================================== *)
(** ** The model on cases of the repository's test suite *)
(* ===================================================================== *)

Module Examples.

Import Webhook ContextBuilder GitHub Engine Pipeline Spec.

(** webhook-branch.test.ts *)
Example rejects_undefined_signature :
  validateSignature (fun _ _ => sample_digest) "test-webhook-secret" "{}" None
  = Ok false.
Proof. reflexivity. Qed.

Example rejects_short_signature :
  validateSignature (fun _ _ => sample_digest) "test-webhook-secret" "{}"
    (Some "sha256=short") = Ok false.
Proof. reflexivity. Qed.

Example accepts_expected_signature :
  validateSignature (fun _ _ => sample_digest) "test-webhook-secret" "{}"
    (Some ("sha256=" ++ sample_digest)) = Ok true.
Proof. reflexivity. Qed.

Example missing_repository_name :
  parseEvent
    (VObj [("action", VStr "opened");
           ("pull_request", VObj [("id", VNum 123)]);
           ("repository", VObj [("owner", VObj [("login", VStr "test-owner")])]);
           ("installation", VObj [("id", VNum 456)])])
  = Throw (Error "Missing repository information").
Proof. reflexivity. Qed.

Example unsupported_action :
  parseEvent
    (VObj [("action", VStr "locked");
           ("pull_request", VObj [("id", VNum 123)]);
           ("repository", VObj [("name", VStr "test-repo");
                                ("owner", VObj [("login", VStr "test-owner")])]);
           ("installation", VObj [("id", VNum 456)])])
  = Throw (Error "Unsupported event type: locked").
Proof. reflexivity. Qed.

Example missing_action :
  parseEvent
    (VObj [("pull_request", VObj [("id", VNum 123)]);
           ("repository", VObj [("name", VStr "test-repo");
                                ("owner", VObj [("login", VStr "test-owner")])]);
           ("installation", VObj [("id", VNum 456)])])
  = Throw (Error "Unsupported event type: unknown").
Proof. reflexivity. Qed.

Example review_submitted :
  exists event,
    parseEvent
      (VObj [("action", VStr "submitted");
             ("review", VObj [("id", VNum 789)]);
             ("pull_request", VObj [("id", VNum 123)]);
             ("repository", VObj [("name", VStr "test-repo");
                                  ("owner", VObj [("login", VStr "test-owner")])]);
             ("installation", VObj [("id", VNum 456)])]) = Ok event /\
    type event = pull_request_review_submitted.
Proof. eexists. split; reflexivity. Qed.

(** prompt-manager.test.ts *)
Example format_warning_without_suggestion :
  PromptManager.formatComment
    (VObj [("file", VStr "src/utils.js"); ("line", VNum 5);
           ("severity", VStr "warning");
           ("message", VStr "Function is too complex");
           ("category", VStr "code-quality")])
  = Ok "⚠️ **Code Quality**: Function is too complex".
Proof. reflexivity. Qed.

Example format_unknown_category :
  PromptManager.formatComment
    (VObj [("file", VStr "test.js"); ("line", VNum 1);
           ("severity", VStr "info"); ("message", VStr "Test");
           ("category", VStr "unknown-category")])
  = Ok "ℹ️ **unknown-category**: Test".
Proof. reflexivity. Qed.

(** client.test.ts: 150 comments go out as 100 + 50. *)
Example batches_of_150 :
  map (@List.length nat) (batches_from (repeat 0%nat 150) 0)
  = [100; 50]%nat.
Proof. vm_compute. reflexivity. Qed.

(** context-builder.test.ts, scaled down to a budget of 60 tokens: the
    first file fits, the second is cut down, the third is left out. *)
Example pack_three_files :
  let f1 := {| path := "a.js"; content := "const a = 1;"; diff := "diff1";
               language := "javascript" |} in
  let f2 := {| path := "b.js"; content := "const b = 2;";
               diff := "0123456789012345678901234567890123456789";
               language := "javascript" |} in
  let context :=
    {| files := [f1; f2; f1];
       pr := {| title := "Test"; description := "Test"; author := "user";
                targetBranch := "main"; sourceBranch := "feature" |};
       relatedFiles := []; totalTokens := 100 |} in
  estimateTokens (with_budget 60) (files context) (pr context) = 89 /\
  opt_files (optimizeForTokenLimit (with_budget 60) context) =
    [f1; {| path := "b.js"; content := "";
            diff := "012345" ++ truncation_marker;
            language := "javascript" |}].
Proof. split; reflexivity. Qed.

(** engine.test.ts: with the floor at [warning], an [info] finding is
    left out and an [error] finding is kept. *)
Example floor_warning_keeps_error :
  let finding severity line :=
    VObj [("file", VStr "src/index.js"); ("line", VNum line);
          ("severity", VStr severity); ("message", VStr "m");
          ("category", VStr "bug")] in
  generateComments (fun _ => Ok "formatted comment")
    (setMinimumSeverity warning new_AIReviewEngine)
    (analysis_of [finding "info" 5; finding "error" 10])
  = Ok [{| c_path := VStr "src/index.js"; c_line := VNum 10;
           c_body := "formatted comment" |}].
Proof. reflexivity. Qed.

(** pull-request.test.ts: one warning is posted as one comment. *)
Example posts_one_comment :
  let w := sample_world (Ok tt) [sample_file]
             (Ok [{| block_type := "text"; block_text := "{ ... }" |}])
             (Ok (analysis_of [sample_finding])) in
  handlePullRequest w
    (sample_event (VObj [("number", VNum 1); ("draft", VBool false)]))
    "cid" []
  = (Ok tt,
     [Log "info" "Processing pull request" "cid" None;
      Ext CGetConfig;
      Ext (CGetInstallationOctokit (VNum 123));
      Ext (CListFiles (VStr "test-owner") (VStr "test-repo") (VNum 1));
      Ext (CGetContent (VStr "test-owner") (VStr "test-repo")
             ".reviewthor.md" "HEAD");
      Log "info" "Starting AI analysis" "cid" None;
      Ext (CMessagesCreate "Please review the following code changes");
      Log "info" "AI analysis complete" "cid" None;
      Log "info" "Posting review comments" "cid" None;
      Ext (CCreateReview (VStr "test-owner") (VStr "test-repo") (VNum 1)
             [{| rc_path := VStr "src/index.js"; rc_line := VNum 10;
                 rc_body := "⚠️ **Code Quality**: Consider using const";
                 rc_side := "RIGHT" |}]);
      Log "info" "Pull request processing complete" "cid" None]).
Proof. vm_compute. reflexivity. Qed.

(** index.test.ts and pull-request.test.ts: an error of the review
    service is logged and the webhook is still answered 200. *)
Example review_service_error :
  let w := sample_world (Ok tt) [sample_file]
             (Throw (JsError "APIError" "timeout" None)) (Ok VNull) in
  reviewthor w
    (sample_request (Some ("sha256=" ++ sample_digest)) (Some "pull_request"))
    []
  = (Ok {| status := 200; sent := "OK" |},
     [Log "info" "Webhook received" "delivery-1" None;
      Ext CGetConfig; At (ValidateSignature true); At ParseEvent;
      At RouteEvent;
      Log "info" "Processing pull request" "delivery-1" None;
      Ext CGetConfig;
      Ext (CGetInstallationOctokit (VNum 123));
      Ext (CListFiles (VStr "test-owner") (VStr "test-repo") (VNum 1));
      Ext (CGetContent (VStr "test-owner") (VStr "test-repo")
             ".reviewthor.md" "HEAD");
      Log "info" "Starting AI analysis" "delivery-1" None;
      Ext (CMessagesCreate "Please review the following code changes");
      Log "error" "Error processing pull request" "delivery-1"
          (Some "Anthropic API error: timeout");
      Log "info" "Webhook processed successfully" "delivery-1" None]).
Proof. vm_compute. reflexivity. Qed.

(** engine.test.ts: a parser that throws a string gives "Unknown error". *)
Example unparseable_response :
  let w := sample_world (Ok tt) [sample_file]
             (Ok [{| block_type := "text"; block_text := "{" |}])
             (Throw (NonError (VStr "String error"))) in
  analyzeCode w {| cc_files := []; prDescription := VStr "Test";
                   repository := "test/repo" |} []
  = (Throw (Error "Invalid AI response format: Unknown error"),
     [Ext (CMessagesCreate "Please review the following code changes")]).
Proof. reflexivity. Qed.

End Examples.

(* ===================================================================== *)
(** ** Theorems: webhook.ts *)
(* ===================================================================== *)

Module WebhookProofs.

Import Webhook Spec.


Lemma length_list_ascii_of_string (s : string) :
  List.length (list_ascii_of_string s) = String.length s.
Proof. induction s; simpl; congruence. Qed.

Lemma bytes_eqb_string_eqb (a b : string) :
  bytes_eqb (Buffer_from a) (Buffer_from b) = String.eqb a b.
Proof.
  unfold Buffer_from. revert b.
  induction a as [|x a IH]; intros [|y b]; simpl; try reflexivity.
  rewrite IH. reflexivity.
Qed.

Lemma string_eqb_length (a b : string) :
  String.eqb a b = true -> String.length a = String.length b.
Proof. intros H. apply String.eqb_eq in H. subst. reflexivity. Qed.

Lemma validateSignature_total hmac secret payload signature :
  validateSignature hmac secret payload signature =
  Ok (signature_accepted hmac secret payload signature).
Proof.
  destruct signature as [sig|]; [|reflexivity].
  unfold validateSignature, signature_accepted, timingSafeEqual.
  destruct (startsWith sig "sha256=") eqn:Hp.
  - destruct (truthy (VStr sig)) eqn:Ht; cbn [negb orb andb].
    + destruct (List.length (Buffer_from sig) =?
                List.length (Buffer_from ("sha256=" ++ hmac secret payload)))%nat
        eqn:Hl; cbn [negb].
      * rewrite bytes_eqb_string_eqb. reflexivity.
      * destruct (String.eqb sig ("sha256=" ++ hmac secret payload)) eqn:He;
          [|reflexivity].
        apply String.eqb_eq in He. rewrite <- He in Hl.
        rewrite Nat.eqb_refl in Hl. discriminate.
    + destruct sig; simpl in *; discriminate.
  - rewrite orb_true_r. reflexivity.
Qed.

(** C7. [validateSignature] fails closed. For every HMAC function,
    secret, payload and header value it returns a boolean and does not
    throw: the only call that can throw, [timingSafeEqual] on buffers of
    different lengths, is never reached with such buffers. The boolean is
    false for a missing header, for an empty one, and for every header
    that does not start with the algorithm tag; being a function of its
    arguments, it has no effect. *)
Theorem validateSignature_fails_closed
    (hmac : string -> string -> string) (secret payload : string) :
  (forall signature,
     validateSignature hmac secret payload signature =
     Ok (signature_accepted hmac secret payload signature)) /\
  validateSignature hmac secret payload None = Ok false /\
  validateSignature hmac secret payload (Some "") = Ok false /\
  (forall sig,
     validateSignature hmac secret payload (Some sig) =
     Ok (startsWith sig "sha256=" &&
         signature_accepted hmac secret payload (Some sig))) /\
  (forall sig,
     validateSignature hmac secret payload (Some sig) =
     Ok ((String.length sig =?
          String.length ("sha256=" ++ hmac secret payload))%nat &&
         signature_accepted hmac secret payload (Some sig))).
Proof.
  repeat split; intros; try apply validateSignature_total.
  - rewrite validateSignature_total. cbn [signature_accepted].
    destruct (startsWith sig "sha256="); reflexivity.
  - rewrite validateSignature_total. cbn [signature_accepted].
    destruct (String.eqb sig ("sha256=" ++ hmac secret payload)) eqn:He.
    + rewrite (string_eqb_length _ _ He), Nat.eqb_refl. reflexivity.
    + rewrite !andb_false_r. reflexivity.
Qed.

(** *** parseEvent *)


(** What a successful [parseEvent] has checked and copied. *)
Lemma parseEvent_Ok (payload : value) (event : GitHubEvent) :
  parseEvent payload = Ok event ->
  nullish payload = false /\
  Webhook.payload event = payload /\
  determineEventType payload = Ok (type event) /\
  installationId event = prop (prop payload "installation") "id" /\
  repository_name event = prop (prop payload "repository") "name" /\
  repository_owner event =
    prop (prop (prop payload "repository") "owner") "login" /\
  truthy (installationId event) = true /\
  truthy (repository_name event) = true /\
  truthy (repository_owner event) = true.
Proof.
  unfold parseEvent, get.
  destruct (nullish payload) eqn:Hn; [discriminate|]. cbn [rbind].
  unfold opt_get.
  destruct (nullish (prop payload "installation")) eqn:Hi; [discriminate|].
  destruct (truthy (prop (prop payload "installation") "id")) eqn:Hid;
    [|discriminate]. cbn [negb].
  destruct (nullish (prop payload "repository")) eqn:Hr;
    [cbn; discriminate|].
  destruct (truthy (prop (prop payload "repository") "name")) eqn:Hname;
    [|cbn; discriminate]. cbn [negb orb].
  destruct (nullish (prop (prop payload "repository") "owner")) eqn:Ho;
    [cbn; discriminate|].
  destruct (truthy (prop (prop (prop payload "repository") "owner") "login"))
    eqn:Hlogin; [|cbn; discriminate]. cbn [negb].
  destruct (determineEventType payload) eqn:Ht; [|discriminate].
  cbn [rbind]. intros H. injection H as <-. cbn.
  repeat split; assumption.
Qed.







End WebhookProofs.

(* ===================================================================== *)
(** ** Theorems: context-builder.ts *)
(* ===================================================================== *)

Module ContextBuilderProofs.

Import ContextBuilder Spec.

Lemma len_append (a b : string) : len (a ++ b) = len a + len b.
Proof.
  unfold len. induction a as [|c a IH]; simpl String.length.
  - simpl. lia.
  - rewrite !Nat2Z.inj_succ. simpl in IH. lia.
Qed.

Lemma len_doubled (n : nat) (s : string) :
  len (doubled n s) = 2 ^ Z.of_nat n * len s.
Proof.
  induction n as [|n IH].
  - change (Z.of_nat 0) with 0. rewrite Z.pow_0_r. unfold doubled. simpl Nat.iter.
    lia.
  - unfold doubled in *. rewrite Nat.iter_succ, len_append, IH.
    rewrite Nat2Z.inj_succ, Z.pow_succ_r by lia. lia.
Qed.

Lemma prefix_substring0 (s : string) (n : Z) :
  String.prefix (substring0 s n) s = true.
Proof.
  unfold substring0. generalize (Z.to_nat n) as k.
  induction s as [|c s IH]; intros [|k]; simpl; try reflexivity.
  rewrite IH. destruct (ascii_dec c c); congruence.
Qed.

Section Budget.

Variable B : Z.
Let this := with_budget B.

Lemma ceil_tokens_subadditive (a b : Z) :
  ceil_tokens this (a + b) <= ceil_tokens this a + ceil_tokens this b.
Proof.
  unfold ceil_tokens. cbn [this with_budget AVG_CHARS_PER_TOKEN].
  pose proof (Z.div_mod (a + b + 4 - 1) 4 ltac:(lia)).
  pose proof (Z.div_mod (a + 4 - 1) 4 ltac:(lia)).
  pose proof (Z.div_mod (b + 4 - 1) 4 ltac:(lia)).
  pose proof (Z.mod_pos_bound (a + b + 4 - 1) 4 ltac:(lia)).
  pose proof (Z.mod_pos_bound (a + 4 - 1) 4 ltac:(lia)).
  pose proof (Z.mod_pos_bound (b + 4 - 1) 4 ltac:(lia)).
  lia.
Qed.

Lemma fold_left_chars (fs : list FileContext) (a : Z) :
  fold_left (fun acc file => acc + estimateFileChars file) fs a =
  a + sum_file_chars fs.
Proof.
  revert a. induction fs as [|f fs IH]; intros a; simpl.
  - lia.
  - rewrite IH. lia.
Qed.

Lemma ceil_sum_le (fs : list FileContext) (a : Z) :
  ceil_tokens this (a + sum_file_chars fs) <=
  ceil_tokens this a + sum_file_tokens this fs.
Proof.
  revert a. induction fs as [|f fs IH]; intros a; simpl.
  - rewrite Z.add_0_r. lia.
  - replace (a + (estimateFileChars f + sum_file_chars fs))
      with ((a + estimateFileChars f) + sum_file_chars fs) by lia.
    specialize (IH (a + estimateFileChars f)).
    pose proof (ceil_tokens_subadditive a (estimateFileChars f)).
    unfold estimateFileTokens. lia.
Qed.

(** The estimate of the whole context is at most the baseline plus the
    per-file estimates the loop adds up. *)
Lemma estimateTokens_le (fs : list FileContext) (p : PRContext) :
  estimateTokens this fs p <=
  estimateTokens this [] p + sum_file_tokens this fs.
Proof.
  unfold estimateTokens. rewrite fold_left_chars. simpl fold_left.
  apply ceil_sum_le.
Qed.

Lemma truncateFile_cut_down (f : FileContext) (maxTokens : Z) :
  cut_down f (truncateFile this f maxTokens).
Proof.
  unfold cut_down, truncateFile.
  destruct (len (diff f) <=? _); cbn; repeat split; auto.
  right. eexists. split; [apply prefix_substring0 | reflexivity].
Qed.

Lemma sum_file_tokens_cons (f : FileContext) (fs : list FileContext) :
  sum_file_tokens this (f :: fs) =
  estimateFileTokens this f + sum_file_tokens this fs.
Proof. reflexivity. Qed.

Lemma sum_file_tokens_nil : sum_file_tokens this [] = 0.
Proof. reflexivity. Qed.

(** The loop stops at the first file that does not fit; the files before
    it are pushed as they are. *)
Lemma pack_loop_stops (fs : list FileContext) :
  forall currentTokens optimizedFiles,
    MAX_TOKENS this < currentTokens + sum_file_tokens this fs ->
    currentTokens <= MAX_TOKENS this \/ fs <> [] ->
    exists pre f post,
      fs = (pre ++ f :: post)%list /\
      pack_loop this fs currentTokens optimizedFiles =
      (optimizedFiles ++ pre ++
       [truncateFile this f
          (MAX_TOKENS this - (currentTokens + sum_file_tokens this pre))])%list.
Proof.
  induction fs as [|f fs IH]; intros cur acc Hover Hne.
  - rewrite sum_file_tokens_nil in Hover.
    destruct Hne as [Hle|Hne]; [lia|congruence].
  - rewrite sum_file_tokens_cons in Hover. cbn [pack_loop].
    destruct (cur + estimateFileTokens this f <=? MAX_TOKENS this) eqn:Hfit.
    + apply Z.leb_le in Hfit.
      destruct (IH (cur + estimateFileTokens this f) (acc ++ [f])%list)
        as (pre & g & post & -> & Hrun); [lia | left; lia |].
      exists (f :: pre), g, post. split; [reflexivity|].
      rewrite Hrun, sum_file_tokens_cons, <- app_assoc, Z.add_assoc.
      reflexivity.
    + exists [], f, fs. split; [reflexivity|].
      rewrite sum_file_tokens_nil, Z.add_0_r. reflexivity.
Qed.

Lemma pack_loop_nil (currentTokens : Z) :
  pack_loop this [] currentTokens [] = [].
Proof. reflexivity. Qed.

Lemma optimizeForTokenLimit_property (context : FullContext) :
  pack_property this context.
Proof.
  unfold pack_property, optimizeForTokenLimit.
  destruct (estimateTokens this (files context) (pr context) <=? MAX_TOKENS this)
    eqn:Hfit; cbn [opt_files truncated tokenCount].
  - auto.
  - apply Z.leb_gt in Hfit.
    split; [|split; reflexivity].
    destruct (files context) as [|f fs] eqn:Hfs; [reflexivity|].
    pose proof (estimateTokens_le (f :: fs) (pr context)) as Hle.
    destruct (pack_loop_stops (f :: fs) (estimateTokens this [] (pr context)) [])
      as (pre & g & post & Hsplit & Hrun); [lia | right; congruence |].
    rewrite Hrun. exists pre, g, post. eexists.
    split; [exact Hsplit|]. split; [reflexivity|].
    apply truncateFile_cut_down.
Qed.

End Budget.

(** C2, as the code has it. For every context and every budget [B]: when
    the estimate is at most [B] the files come back unchanged with
    [truncated = false] and the estimate as [tokenCount]; otherwise
    [truncated = true] and [tokenCount = B], and the returned list is, for
    an input with at least one file, a non-empty prefix of the input in
    its order whose files are unchanged except the last, which has its
    content dropped and its diff kept or clipped to a prefix followed by
    the truncation marker, and, for an input without files, the empty
    list. *)
Theorem optimizeForTokenLimit_packs (B : Z) (context : FullContext) :
  pack_property (with_budget B) context /\
  opt_pr (optimizeForTokenLimit (with_budget B) context) = pr context.
Proof.
  split; [apply optimizeForTokenLimit_property|].
  unfold optimizeForTokenLimit.
  destruct (_ <=? _); reflexivity.
Qed.

(** C2 as stated fails for a context without files whose title and
    description alone exceed the budget of 150000 tokens: nothing is
    returned, so the result is not a non-empty prefix. *)
Lemma optimizeForTokenLimit_no_files :
  opt_files (optimizeForTokenLimit new_ContextBuilder oversized_description) = [] /\
  truncated (optimizeForTokenLimit new_ContextBuilder oversized_description) = true /\
  ~ pack_claim new_ContextBuilder oversized_description.
Proof.
  assert (Hest : estimateTokens new_ContextBuilder
                   (files oversized_description) (pr oversized_description)
                 = 262170).
  { unfold estimateTokens, oversized_description, ceil_tokens.
    cbn [files pr title description fold_left new_ContextBuilder
         AVG_CHARS_PER_TOKEN].
    rewrite len_doubled. reflexivity. }
  assert (Hrun : optimizeForTokenLimit new_ContextBuilder oversized_description =
                 {| opt_files := []; opt_pr := pr oversized_description;
                    truncated := true; tokenCount := 150000 |}).
  { unfold optimizeForTokenLimit. rewrite Hest. reflexivity. }
  rewrite Hrun. cbn [opt_files truncated].
  split; [reflexivity|]. split; [reflexivity|].
  unfold pack_claim. rewrite Hest, Hrun. cbn.
  intros [(pre & f & post & f' & _ & Hout & _) _].
  destruct pre; discriminate.
Qed.

End ContextBuilderProofs.

(* ===================================================================== *)
(** ** Theorems: github/client.ts *)
(* ===================================================================== *)

Module GitHubProofs.

Import GitHub Spec.
Local Open Scope list_scope.

Section Batches.

Context {A : Type}.

Lemma batches_from_lt (comments : list A) (i : nat) :
  (i < List.length comments)%nat ->
  batches_from comments i =
  slice i (i + BATCH_SIZE) comments :: batches_from comments (i + BATCH_SIZE).
Proof.
  intros Hlt. rewrite batches_from_equation_1.
  destruct (lt_dec i (List.length comments)); [reflexivity | contradiction].
Qed.

Lemma batches_from_ge (comments : list A) (i : nat) :
  (List.length comments <= i)%nat -> batches_from comments i = [].
Proof.
  intros Hge. rewrite batches_from_equation_1.
  destruct (lt_dec i (List.length comments)); [lia | reflexivity].
Qed.

Lemma slice_batch (comments : list A) (i : nat) :
  slice i (i + BATCH_SIZE) comments = firstn BATCH_SIZE (skipn i comments).
Proof. unfold slice. f_equal. lia. Qed.

(** The batches from index [i] on are the rest of the list, cut every
    [BATCH_SIZE] items. *)
Lemma concat_batches_from (comments : list A) :
  forall k i, (List.length comments - i <= k)%nat ->
  concat (batches_from comments i) = skipn i comments.
Proof.
  induction k as [|k IH]; intros i Hk.
  - rewrite batches_from_ge by lia. rewrite skipn_all2 by lia. reflexivity.
  - destruct (lt_dec i (List.length comments)) as [Hlt|Hge].
    + rewrite batches_from_lt by exact Hlt. cbn [concat].
      rewrite IH by (unfold BATCH_SIZE; lia).
      rewrite slice_batch, Nat.add_comm, <- skipn_skipn.
      apply firstn_skipn.
    + rewrite batches_from_ge by lia. rewrite skipn_all2 by lia. reflexivity.
Qed.

Lemma batches_from_sizes (comments : list A) :
  forall k i, (List.length comments - i <= k)%nat ->
  Forall (fun batch => 1 <= List.length batch <= BATCH_SIZE)%nat
         (batches_from comments i).
Proof.
  induction k as [|k IH]; intros i Hk.
  - rewrite batches_from_ge by lia. constructor.
  - destruct (lt_dec i (List.length comments)) as [Hlt|Hge].
    + rewrite batches_from_lt by exact Hlt. constructor.
      * rewrite slice_batch, length_firstn, length_skipn.
        unfold BATCH_SIZE. lia.
      * apply IH. unfold BATCH_SIZE. lia.
    + rewrite batches_from_ge by lia. constructor.
Qed.

Lemma ceil_div_step (n : nat) :
  (0 < n)%nat ->
  ((n + (BATCH_SIZE - 1)) / BATCH_SIZE =
   S ((n - BATCH_SIZE + (BATCH_SIZE - 1)) / BATCH_SIZE))%nat.
Proof.
  unfold BATCH_SIZE. intros Hn.
  destruct (le_lt_dec 100 n) as [Hbig|Hsmall].
  - replace (n + (100 - 1))%nat with ((n - 100 + (100 - 1)) + 1 * 100)%nat by lia.
    rewrite Nat.div_add by lia. lia.
  - replace (n - 100)%nat with 0%nat by lia.
    replace (n + (100 - 1))%nat with ((n - 1) + 1 * 100)%nat by lia.
    rewrite Nat.div_add by lia.
    rewrite !Nat.div_small by lia. reflexivity.
Qed.

Lemma length_batches_from (comments : list A) :
  forall k i, (List.length comments - i <= k)%nat ->
  List.length (batches_from comments i) =
  ((List.length comments - i + (BATCH_SIZE - 1)) / BATCH_SIZE)%nat.
Proof.
  induction k as [|k IH]; intros i Hk.
  - rewrite batches_from_ge by lia.
    replace (List.length comments - i)%nat with 0%nat by lia.
    reflexivity.
  - destruct (lt_dec i (List.length comments)) as [Hlt|Hge].
    + rewrite batches_from_lt by exact Hlt. cbn [List.length].
      rewrite IH by (unfold BATCH_SIZE; lia).
      rewrite (ceil_div_step (List.length comments - i)) by lia.
      do 3 f_equal. lia.
    + rewrite batches_from_ge by lia.
      replace (List.length comments - i)%nat with 0%nat by lia.
      reflexivity.
Qed.

End Batches.

Section Posting.

Variable w : World.
Variables owner repo pull_number : value.

Lemma answer_at_0 (t : Trace) (batch : list Comment) rest :
  answer_at w owner repo pull_number t (batch :: rest) 0 =
  pulls_createReview w t owner repo pull_number (map to_review_comment batch).
Proof. unfold answer_at. cbn. rewrite app_nil_r. reflexivity. Qed.

Lemma answer_at_S (t : Trace) (batch : list Comment) rest (i : nat) :
  answer_at w owner repo pull_number t (batch :: rest) (S i) =
  answer_at w owner repo pull_number
    (t ++ [review_call owner repo pull_number batch]) rest i.
Proof. unfold answer_at. cbn. rewrite <- app_assoc. reflexivity. Qed.

Lemma post_batches_run (batches : list (list Comment)) :
  forall t,
    let run := post_batches w owner repo pull_number batches t in
    all_posted w owner repo pull_number t batches run \/
    aborted_at w owner repo pull_number t batches run.
Proof.
  induction batches as [|batch rest IH]; intros t run.
  - left. subst run. unfold all_posted.
    cbn [post_batches ret fst snd map List.length]. rewrite app_nil_r.
    repeat split. intros i Hi. lia.
  - subst run. unfold all_posted, aborted_at in *.
    cbn [post_batches]. unfold bind, call.
    destruct (pulls_createReview w t owner repo pull_number
                (map to_review_comment batch)) as [[]|e] eqn:Hanswer.
    + specialize (IH (t ++ [Ext (CCreateReview owner repo pull_number
                                   (map to_review_comment batch))])%list).
      cbn zeta in IH.
      destruct IH as [(Hres & Htr & Hall) | (j & e & Hj & Hbefore & Hat & Hres & Htr)].
      * left. split; [exact Hres|]. split.
        { rewrite Htr, <- app_assoc. reflexivity. }
        intros [|i] Hi.
        { rewrite answer_at_0. exact Hanswer. }
        { rewrite answer_at_S. apply Hall. cbn in Hi. lia. }
      * right. exists (S j), e. split; [cbn; lia|]. split.
        { intros [|i] Hi.
          - rewrite answer_at_0. exact Hanswer.
          - rewrite answer_at_S. apply Hbefore. lia. }
        split; [rewrite answer_at_S; exact Hat|].
        split; [exact Hres|].
        rewrite Htr, <- app_assoc. reflexivity.
    + right. exists 0%nat, e. split; [cbn; lia|]. split; [intros i Hi; lia|].
      split; [rewrite answer_at_0; exact Hanswer|].
      split; reflexivity.
Qed.

End Posting.

(** C4. [createReview] makes no call for an empty list, whether or not
    the client is authenticated. A list of [n] comments is cut into
    [ceil (n / 100)] batches of 1 to 100 comments whose concatenation is
    the list. An authenticated client posts them one call per batch in
    that order, each call answered before the next is made: either all
    are posted, or the first refused batch ends the posting with its
    error, the batches sent before it staying sent and no later batch
    being sent. *)
Theorem createReview_batches
    (w : World) (owner repo pull_number : value) (comments : list Comment)
    (t : Trace) :
  (forall client,
     snd (createReview w client owner repo pull_number [] t) = t) /\
  (let batches := batches_from comments 0 in
   concat batches = comments /\
   Forall (fun batch => 1 <= List.length batch <= BATCH_SIZE)%nat batches /\
   List.length batches =
     ((List.length comments + (BATCH_SIZE - 1)) / BATCH_SIZE)%nat) /\
  (let run := createReview w {| octokit := true |} owner repo pull_number
                           comments t in
   let batches := batches_from comments 0 in
   all_posted w owner repo pull_number t batches run \/
   aborted_at w owner repo pull_number t batches run).
Proof.
  split; [|split].
  - intros [[|]]; reflexivity.
  - cbn zeta. split; [|split].
    + rewrite (concat_batches_from comments (List.length comments)) by lia.
      reflexivity.
    + apply (batches_from_sizes comments (List.length comments)). lia.
    + rewrite (length_batches_from comments (List.length comments)) by lia.
      rewrite Nat.sub_0_r. reflexivity.
  - cbn zeta. unfold createReview. cbn [octokit negb].
    destruct comments as [|c comments'].
    + cbn [List.length Nat.eqb]. rewrite batches_from_ge by (cbn; lia).
      left. unfold all_posted. cbn [ret fst snd map List.length].
      rewrite app_nil_r. repeat split. intros i Hi. lia.
    + cbn [List.length Nat.eqb]. apply post_batches_run.
Qed.

End GitHubProofs.

(* ===================================================================== *)
(** ** Theorems: engine.ts *)
(* ===================================================================== *)

Module EngineProofs.

Import Engine Spec.
Local Open Scope list_scope.

Lemma rank_values : rank error = 0 /\ rank warning = 1 /\ rank info = 2.
Proof. repeat split; reflexivity. Qed.






Section Comments.

Variable formatComment : value -> result string.




End Comments.



(** *** validateAnalysis *)

Lemma validateIssue_bad (issue : value) :
  bad_finding issue -> exists e, validateIssue issue = Throw e.
Proof.
  intros Hbad. unfold validateIssue, get.
  destruct (nullish issue) eqn:Hn; [cbn; eauto|]. cbn [rbind].
  destruct (negb (truthy (prop issue "file")) ||
            negb (truthy (prop issue "line")) ||
            negb (truthy (prop issue "severity")) ||
            negb (truthy (prop issue "message")) ||
            negb (truthy (prop issue "category"))) eqn:Hmissing; [eauto|].
  destruct Hbad as [(field & Hin & Hundef) | Hsev].
  - exfalso.
    repeat (apply orb_false_iff in Hmissing; destruct Hmissing as [Hmissing ?]).
    cbn in Hin.
    repeat (destruct Hin as [<-|Hin];
            [rewrite Hundef in *; discriminate|]).
    exact Hin.
  - rewrite Hsev. cbn. eauto.
Qed.

Lemma for_each_validateIssue_bad (issues : list value) :
  Exists bad_finding issues ->
  exists e, for_each_r validateIssue issues = Throw e.
Proof.
  induction issues as [|issue issues IH]; intros Hex.
  - inversion Hex.
  - cbn [for_each_r].
    destruct (validateIssue issue) as [[]|e] eqn:Hv; [|cbn; eauto].
    cbn [rbind]. apply IH.
    inversion Hex as [? ? Hbad|]; subst; [|assumption].
    apply validateIssue_bad in Hbad as [e He]. congruence.
Qed.

Lemma validateAnalysis_bad (analysis : value) (issues : list value) :
  structure_ok analysis = true ->
  prop analysis "issues" = VArr issues ->
  Exists bad_finding issues ->
  exists e, validateAnalysis analysis = Throw e.
Proof.
  intros Hok Hissues Hbad. unfold validateAnalysis.
  destruct (_ || _); [eauto|]. rewrite Hissues.
  destruct (_ || _); [eauto|].
  destruct (_ || _); [eauto|].
  apply for_each_validateIssue_bad, Hbad.
Qed.

(** C8. When the review service's response parses to a value that passes
    the structural checks, and one of its findings lacks one of the five
    required fields or has a severity outside the three accepted values,
    [analyzeCode] throws an error for the whole response ("Invalid AI
    response format: ..."): it returns no analysis, so no finding of that
    response is used. *)
Theorem analyzeCode_rejects_bad_finding
    (w : World) (context : CodeContext) (t t' : Trace)
    (content : string) (analysis : value) (issues : list value) :
  AnthropicClient.createMessage w (buildReviewPrompt w context) t =
    (Ok content, t') ->
  JSON_parse w content = Ok analysis ->
  structure_ok analysis = true ->
  prop analysis "issues" = VArr issues ->
  Exists bad_finding issues ->
  exists cause,
    analyzeCode w context t =
    (Throw (Error ("Invalid AI response format: " ++ cause)%string), t').
Proof.
  intros Hmsg Hparse Hok Hissues Hbad.
  destruct (validateAnalysis_bad analysis issues Hok Hissues Hbad) as [e He].
  exists (message_of e).
  unfold analyzeCode, bind. rewrite Hmsg.
  unfold lift, parse_and_validate. rewrite Hparse. cbn [rbind].
  rewrite He. reflexivity.
Qed.

Lemma analyzeCode_rejects_bad_finding_witness :
  let blocks := [{| block_type := "text"; block_text := "{ ... }" |}] in
  let w := sample_world (Ok tt) [sample_file] (Ok blocks)
             (Ok (analysis_of [sample_finding; finding_without_line])) in
  let context :=
    {| cc_files := []; prDescription := VStr "";
       repository := "test-owner/test-repo" |} in
  Exists bad_finding [sample_finding; finding_without_line] /\
  exists cause,
    analyzeCode w context [] =
    (Throw (Error ("Invalid AI response format: " ++ cause)%string),
     [Ext (CMessagesCreate (buildReviewPrompt w context))]).
Proof.
  intros blocks w context.
  assert (Hbad : Exists bad_finding [sample_finding; finding_without_line]).
  { apply Exists_cons_tl, Exists_cons_hd. left. exists "line".
    split; [cbn; auto | reflexivity]. }
  split; [exact Hbad|].
  apply (analyzeCode_rejects_bad_finding w context [] _ "{ ... }"
           (analysis_of [sample_finding; finding_without_line])
           [sample_finding; finding_without_line]);
    try reflexivity.
  exact Hbad.
Defined.

End EngineProofs.

(* ===================================================================== *)
(** ** Theorems: pull-request.ts and index.ts *)
(* ===================================================================== *)

Module PipelineProofs.

Import Webhook GitHub Engine Pipeline Spec.
Local Open Scope list_scope.

(** *** Computations only append to the trace *)

Section Emits.

Variable P : Effect -> Prop.

Lemma emits_unchanged {A} (m : M A) :
  (forall t, snd (m t) = t) -> emits P m.
Proof.
  intros H t. exists []. rewrite app_nil_r. split; [apply H | constructor].
Qed.

Lemma emits_ret {A} (a : A) : emits P (ret a).
Proof. apply emits_unchanged. reflexivity. Qed.

Lemma emits_throw {A} (e : thrown) : emits P (@throw A e).
Proof. apply emits_unchanged. reflexivity. Qed.

Lemma emits_lift {A} (r : result A) : emits P (lift r).
Proof. apply emits_unchanged. reflexivity. Qed.

Lemma emits_emit (e : Effect) : P e -> emits P (emit e).
Proof. intros He t. exists [e]. split; [reflexivity | auto]. Qed.

Lemma emits_call {A} (c : Call) (answer : Trace -> result A) :
  P (Ext c) -> emits P (call c answer).
Proof. intros He t. exists [Ext c]. split; [reflexivity | auto]. Qed.

Lemma emits_bind {A B} (m : M A) (k : A -> M B) :
  emits P m -> (forall a, emits P (k a)) -> emits P (bind m k).
Proof.
  intros Hm Hk t. destruct (Hm t) as (n1 & H1 & F1). unfold bind.
  destruct (m t) as [[a|e] t1]; cbn [snd] in *; subst t1.
  - destruct (Hk a (t ++ n1)) as (n2 & H2 & F2).
    exists (n1 ++ n2). rewrite H2, app_assoc.
    split; [reflexivity | apply Forall_app; auto].
  - exists n1. auto.
Qed.

Lemma emits_try_catch {A} (m : M A) (h : thrown -> M A) :
  emits P m -> (forall e, emits P (h e)) -> emits P (try_catch m h).
Proof.
  intros Hm Hh t. destruct (Hm t) as (n1 & H1 & F1). unfold try_catch.
  destruct (m t) as [[a|e] t1]; cbn [snd] in *; subst t1.
  - exists n1. auto.
  - destruct (Hh e (t ++ n1)) as (n2 & H2 & F2).
    exists (n1 ++ n2). rewrite H2, app_assoc.
    split; [reflexivity | apply Forall_app; auto].
Qed.

Lemma emits_filterM {A} (p : A -> M bool) (xs : list A) :
  (forall x, emits P (p x)) -> emits P (filterM p xs).
Proof.
  intros Hp. induction xs as [|x xs IH]; cbn [filterM].
  - apply emits_ret.
  - apply emits_bind; [apply Hp|]. intros keep.
    apply emits_bind; [apply IH|]. intros rest. apply emits_ret.
Qed.

End Emits.

Ltac emits_step :=
  match goal with
  | |- emits _ (bind _ _) => apply emits_bind; [|intros ?]
  | |- emits _ (ret _) => apply emits_ret
  | |- emits _ (respond _ _) => apply emits_ret
  | |- emits _ (throw _) => apply emits_throw
  | |- emits _ (lift _) => apply emits_lift
  | |- emits _ (try_catch _ _) => apply emits_try_catch; [|intros ?]
  | |- emits _ (log _ _ _) => apply emits_emit; exact I
  | |- emits _ (log_error _ _ _) => apply emits_emit; exact I
  | |- emits _ (call _ _) => apply emits_call; exact I
  | |- emits _ (filterM _ _) => apply emits_filterM; intros ?
  | |- emits _ (if ?c then _ else _) => destruct c
  | |- emits _ (match ?x with _ => _ end) => destruct x
  end.

Create HintDb emits.

Ltac emits_auto := repeat emits_step; auto with emits.

Lemma emits_authenticate w client installationId :
  emits log_or_call (authenticate w client installationId).
Proof. unfold authenticate. emits_auto. Qed.

Lemma emits_getFiles w client owner repo pull_number :
  emits log_or_call (getFiles w client owner repo pull_number).
Proof. unfold getFiles. emits_auto. Qed.

Lemma emits_getFile w client owner repo path ref :
  emits log_or_call (getFile w client owner repo path ref).
Proof. unfold getFile. emits_auto. Qed.

Lemma emits_post_batches w owner repo pull_number batches :
  emits log_or_call (post_batches w owner repo pull_number batches).
Proof.
  induction batches as [|batch rest IH]; cbn [post_batches]; emits_auto.
Qed.

#[local] Hint Resolve emits_authenticate emits_getFiles emits_getFile
  emits_post_batches : emits.

Lemma emits_createReview w client owner repo pull_number comments :
  emits log_or_call (createReview w client owner repo pull_number comments).
Proof. unfold createReview. emits_auto. Qed.

Lemma emits_fetchCustomInstructions w client owner repo :
  emits log_or_call
    (InstructionProcessor.fetchCustomInstructions w client owner repo).
Proof. unfold InstructionProcessor.fetchCustomInstructions. emits_auto. Qed.

Lemma emits_createMessage w prompt :
  emits log_or_call (AnthropicClient.createMessage w prompt).
Proof. unfold AnthropicClient.createMessage. emits_auto. Qed.

#[local] Hint Resolve emits_createReview emits_fetchCustomInstructions
  emits_createMessage : emits.

Lemma emits_analyzeCode w context :
  emits log_or_call (analyzeCode w context).
Proof. unfold analyzeCode. emits_auto. Qed.

Lemma emits_keep_file w correlationId file :
  emits log_or_call (keep_file w correlationId file).
Proof. unfold keep_file. emits_auto. Qed.

#[local] Hint Resolve emits_analyzeCode emits_keep_file : emits.

Lemma emits_handlePullRequest_try w event pullRequest correlationId :
  emits log_or_call (handlePullRequest_try w event pullRequest correlationId).
Proof. unfold handlePullRequest_try. emits_auto. Qed.

(** *** handlePullRequest *)

(** The function, once the two property reads before its [try] are done. *)
Lemma handlePullRequest_unfold w event correlationId t :
  nullish (payload event) = false ->
  nullish (prop (payload event) "pull_request") = false ->
  handlePullRequest w event correlationId t =
  match handlePullRequest_try w event (prop (payload event) "pull_request")
          correlationId (t ++ [processing correlationId]) with
  | (Ok a, t1) => (Ok a, t1)
  | (Throw e, t1) =>
      (Ok tt, t1 ++ [Log "error" "Error processing pull request" correlationId
                         (Some (message_of e))])
  end.
Proof.
  intros Hp Hpr. unfold handlePullRequest, get. rewrite Hp.
  unfold bind at 1, lift at 1. rewrite Hpr.
  unfold bind at 1, lift at 1.
  unfold bind at 1, log at 1, emit at 1.
  unfold try_catch, processing.
  destruct (handlePullRequest_try _ _ _ _ _) as [[[]|e] t1]; reflexivity.
Qed.

Lemma handlePullRequest_returns w event correlationId t :
  nullish (payload event) = false ->
  nullish (prop (payload event) "pull_request") = false ->
  exists new,
    handlePullRequest w event correlationId t = (Ok tt, t ++ new) /\
    Forall log_or_call new.
Proof.
  intros Hp Hpr. rewrite handlePullRequest_unfold by assumption.
  destruct (emits_handlePullRequest_try w event
              (prop (payload event) "pull_request") correlationId
              (t ++ [processing correlationId])) as (new & Htr & Hnew).
  destruct (handlePullRequest_try _ _ _ _ _) as [[[]|e] t1];
    cbn [snd] in Htr; subst t1; rewrite <- app_assoc.
  - eexists. split; [reflexivity|]. constructor; [exact I | exact Hnew].
  - rewrite <- app_assoc. eexists. split; [reflexivity|].
    constructor; [exact I|]. apply Forall_app. split; [exact Hnew|].
    constructor; [exact I | constructor].
Qed.



(** *** The responder *)

Lemma determineEventType_pull_request (payload : value) (ty : EventType) :
  determineEventType payload = Ok ty ->
  is_pull_request_type ty = true ->
  truthy (prop payload "pull_request") = true.
Proof.
  unfold determineEventType.
  destruct (truthy (prop payload "pull_request")); [reflexivity|].
  cbn [andb]. destruct (_ && _); [|discriminate].
  intros H. injection H as <-. discriminate.
Qed.

Lemma truthy_not_nullish (v : value) : truthy v = true -> nullish v = false.
Proof. destruct v; cbn; congruence. Qed.

(** Routing an event that [parseEvent] returned never throws. *)
Lemma routeEvent_returns w correlationId (body : value) (event : GitHubEvent) t :
  parseEvent body = Ok event ->
  exists new,
    routeEvent (Some (fun evt => handlePullRequest w evt correlationId))
               event t = (Ok tt, t ++ new) /\
    Forall log_or_call new.
Proof.
  intros Hparse. apply WebhookProofs.parseEvent_Ok in Hparse.
  destruct Hparse as (Hn & Hpayload & Hty & _).
  assert (Hskip : exists new, @ret unit tt t = (Ok tt, t ++ new) /\
                               Forall log_or_call new).
  { exists []. rewrite app_nil_r. split; [reflexivity | constructor]. }
  unfold routeEvent.
  destruct (type event) eqn:Htype; try exact Hskip;
    apply handlePullRequest_returns; rewrite Hpayload; try exact Hn;
    apply truthy_not_nullish;
    apply (determineEventType_pull_request _ _ Hty); reflexivity.
Qed.

Lemma present_header (h : option string) :
  present h = true -> h = Some (header_text h).
Proof. destruct h; [reflexivity | discriminate]. Qed.

Ltac run_to_end :=
  unfold bind, log, log_error, emit, respond, ret;
  rewrite <- ?app_assoc; cbn [app].

Lemma reviewthor_outcome (w : World) (req : Request) (t : Trace) :
  outcome w req t (reviewthor w req t).
Proof.
  unfold reviewthor. fold (correlationId_of w req).
  unfold bind at 1, log at 1, emit at 1. fold (received w req).
  unfold try_catch.
  destruct (rawBody req) as [raw|] eqn:Hraw.
  2:{ run_to_end. apply missing_body. auto. }
  destruct (truthy (body req)) eqn:Hbody; cbn [negb].
  2:{ run_to_end. apply missing_body. auto. }
  assert (Hhas : has_body req) by (split; eauto).
  destruct (present (x_hub_signature_256 req)) eqn:Hsig; cbn [negb].
  2:{ run_to_end. apply missing_signature; assumption. }
  destruct (present (x_github_event req)) eqn:Hev; cbn [negb].
  2:{ run_to_end. apply missing_event_type; assumption. }
  destruct (negb (String.eqb (header_text (x_github_event req)) "pull_request") &&
            negb (String.eqb (header_text (x_github_event req))
                             "pull_request_review")) eqn:Hpr.
  { run_to_end. apply event_ignored; try assumption.
    unfold pull_request_header. rewrite Hev. cbn [andb].
    apply andb_true_iff in Hpr as [H1 H2].
    apply negb_true_iff in H1, H2. rewrite H1, H2. reflexivity. }
  assert (Hhdr : pull_request_header req = true).
  { unfold pull_request_header. rewrite Hev. cbn [andb].
    apply andb_false_iff in Hpr as [H|H]; apply negb_false_iff in H;
      rewrite H; auto using orb_true_r. }
  unfold bind at 1, call at 1.
  destruct (getConfig w (t ++ [received w req])) as [config|e] eqn:Hcfg.
  2:{ run_to_end. apply config_failed; assumption. }
  unfold bind at 1, lift at 1.
  pose proof (WebhookProofs.validateSignature_total (hmac_sha256_hex w)
                (githubWebhookSecret config) raw (x_hub_signature_256 req))
    as Hvalid.
  rewrite Hvalid.
  destruct (signature_accepted _ _ _ _) eqn:Hacc; cbn [negb].
  2:{ run_to_end. eapply signature_rejected; eassumption. }
  unfold bind at 1, emit at 1. cbn [negb]. unfold bind at 1, emit at 1.
  unfold bind at 1, lift at 1.
  destruct (parseEvent (body req)) as [event|e] eqn:Hparse.
  2:{ run_to_end. eapply parse_failed; eassumption. }
  unfold bind at 1, emit at 1. unfold bind at 1.
  destruct (routeEvent_returns w (correlationId_of w req) (body req) event
              (((((t ++ [received w req]) ++ [Ext CGetConfig]) ++
                 [At (ValidateSignature true)]) ++ [At ParseEvent]) ++
                 [At RouteEvent]) Hparse)
    as (handled & Hroute & Hhandled).
  rewrite Hroute. run_to_end.
  eapply processed; eassumption.
Qed.





(** *** Signature verification comes first *)











End PipelineProofs.

(* ===================================================================== *)
(** ** Further theorems: the pull-request handler and the responder *)
(* ===================================================================== *)

Module HandlerProofs.

Import Webhook GitHub Engine Pipeline Spec Props.
Local Open Scope list_scope.

Section Rules.

Variable P : Effect -> Prop.

Lemma triple_pure {A} (m : M A) (r : result A) (Q : A -> Prop) :
  (forall t, m t = (r, t)) -> (forall a, r = Ok a -> Q a) -> triple P m Q.
Proof.
  intros Hm HQ t. exists []. rewrite Hm, app_nil_r. cbn.
  split; [reflexivity|]. split; [constructor | exact HQ].
Qed.

Lemma triple_ret {A} (a : A) (Q : A -> Prop) : Q a -> triple P (ret a) Q.
Proof.
  intros HQ. apply (triple_pure _ (Ok a)); [reflexivity|].
  intros b Hb. injection Hb as <-. exact HQ.
Qed.

Lemma triple_throw {A} (e : thrown) (Q : A -> Prop) : triple P (throw e) Q.
Proof. apply (triple_pure _ (Throw e)); [reflexivity | discriminate]. Qed.

Lemma triple_lift {A} (r : result A) (Q : A -> Prop) :
  (forall a, r = Ok a -> Q a) -> triple P (lift r) Q.
Proof. intros HQ. apply (triple_pure _ r); [reflexivity | exact HQ]. Qed.

Lemma triple_emit (e : Effect) (Q : unit -> Prop) :
  P e -> Q tt -> triple P (emit e) Q.
Proof.
  intros He HQ t. exists [e]. cbn. split; [reflexivity|].
  split; [auto|]. intros [] _. exact HQ.
Qed.

Lemma triple_call {A} (c : Call) (answer : Trace -> result A) (Q : A -> Prop) :
  P (Ext c) -> (forall t a, answer t = Ok a -> Q a) ->
  triple P (call c answer) Q.
Proof.
  intros Hc HQ t. exists [Ext c]. cbn. split; [reflexivity|].
  split; [auto | apply HQ].
Qed.

Lemma triple_bind {A B} (m : M A) (k : A -> M B)
    (Q : A -> Prop) (R : B -> Prop) :
  triple P m Q -> (forall a, Q a -> triple P (k a) R) ->
  triple P (bind m k) R.
Proof.
  intros Hm Hk t. destruct (Hm t) as (n1 & H1 & F1 & Q1). unfold bind.
  destruct (m t) as [[a|e] t1]; cbn [fst snd] in *; subst t1.
  - destruct (Hk a (Q1 a eq_refl) (t ++ n1)) as (n2 & H2 & F2 & Q2).
    exists (n1 ++ n2). rewrite H2, app_assoc.
    split; [reflexivity|]. split; [apply Forall_app; auto | exact Q2].
  - exists n1. split; [reflexivity|]. split; [exact F1 | discriminate].
Qed.

Lemma triple_try_catch {A} (m : M A) (h : thrown -> M A) (Q : A -> Prop) :
  triple P m Q -> (forall e, triple P (h e) Q) ->
  triple P (try_catch m h) Q.
Proof.
  intros Hm Hh t. destruct (Hm t) as (n1 & H1 & F1 & Q1). unfold try_catch.
  destruct (m t) as [[a|e] t1]; cbn [fst snd] in *; subst t1.
  - exists n1. auto.
  - destruct (Hh e (t ++ n1)) as (n2 & H2 & F2 & Q2).
    exists (n1 ++ n2). rewrite H2, app_assoc.
    split; [reflexivity|]. split; [apply Forall_app; auto | exact Q2].
Qed.

Lemma triple_weaken {A} (m : M A) (Q Q' : A -> Prop) :
  triple P m Q -> (forall a, Q a -> Q' a) -> triple P m Q'.
Proof.
  intros Hm HQ t. destruct (Hm t) as (new & H1 & F1 & Q1).
  exists new. auto.
Qed.

Lemma triple_filterM {A} (p : A -> M bool) (R0 R : A -> Prop) (xs : list A) :
  (forall x, R0 x -> triple P (p x) (fun keep => keep = true -> R x)) ->
  Forall R0 xs ->
  triple P (filterM p xs) (Forall R).
Proof.
  intros Hp. induction 1 as [|x xs Hx _ IH]; cbn [filterM].
  - apply triple_ret. constructor.
  - eapply triple_bind; [apply Hp, Hx|]. intros keep Hkeep.
    eapply triple_bind; [apply IH|]. intros rest Hrest.
    apply triple_ret. destruct keep; auto.
Qed.

Lemma triple_log (level message c : string) (Q : unit -> Prop) :
  P (Log level message c None) -> Q tt -> triple P (log level message c) Q.
Proof. apply triple_emit. Qed.

End Rules.

(** A stronger description of the effects still holds for a weaker one. *)
Lemma triple_effects {A} (P P' : Effect -> Prop) (m : M A) (Q : A -> Prop) :
  (forall e, P e -> P' e) -> triple P m Q -> triple P' m Q.
Proof.
  intros HP Hm t. destruct (Hm t) as (new & H1 & F1 & Q1).
  exists new. split; [exact H1|]. split; [|exact Q1].
  eapply Forall_impl; [|exact F1]. exact HP.
Qed.

Section Client.

Variable P : Effect -> Prop.
Variable w : World.

Lemma triple_authenticate client installationId :
  P (Ext (CGetInstallationOctokit installationId)) ->
  triple P (authenticate w client installationId)
         (fun client' => octokit client' = true).
Proof.
  intros HP. unfold authenticate.
  apply triple_try_catch; [|intros e; apply triple_throw].
  eapply triple_bind.
  - apply triple_call with (Q := fun _ => True); auto.
  - intros _ _. apply triple_ret. reflexivity.
Qed.

Lemma triple_getFiles client owner repo pull_number :
  P (Ext (CListFiles owner repo pull_number)) ->
  triple P (getFiles w client owner repo pull_number)
         (Forall (fun file => is_source_file (filename file) = true)).
Proof.
  intros HP. unfold getFiles.
  destruct (negb (octokit client)); [apply triple_throw|].
  eapply triple_bind.
  - apply triple_call with (Q := fun _ => True); auto.
  - intros data _. apply triple_ret.
    apply Forall_forall. intros file Hin.
    apply filter_In in Hin. apply Hin.
Qed.

Lemma triple_getFile client owner repo path ref :
  P (Ext (CGetContent owner repo path ref)) ->
  triple P (getFile w client owner repo path ref) (fun _ => True).
Proof.
  intros HP. unfold getFile.
  destruct (negb (octokit client)); [apply triple_throw|].
  apply triple_try_catch.
  - apply triple_call; auto.
  - intros e. eapply triple_bind.
    + apply triple_lift with (Q := fun _ => True). auto.
    + intros is404 _. destruct is404; [apply triple_ret; exact I|].
      apply triple_throw.
Qed.

Lemma triple_fetchCustomInstructions client owner repo :
  P (Ext (CGetContent owner repo ".reviewthor.md" "HEAD")) ->
  triple P (InstructionProcessor.fetchCustomInstructions w client owner repo)
         (fun _ => True).
Proof.
  intros HP. unfold InstructionProcessor.fetchCustomInstructions.
  eapply triple_bind; [apply triple_getFile; exact HP|].
  intros [content|] _; [|apply triple_ret; exact I].
  destruct (truthy (VStr content)); apply triple_ret; exact I.
Qed.

Lemma triple_createMessage prompt :
  P (Ext (CMessagesCreate prompt)) ->
  triple P (AnthropicClient.createMessage w prompt) (fun _ => True).
Proof.
  intros HP. unfold AnthropicClient.createMessage.
  apply triple_try_catch.
  - eapply triple_bind.
    + apply triple_call with (Q := fun _ => True); auto.
    + intros blocks _. apply triple_ret. exact I.
  - intros e. destruct (AnthropicClient.is_APIError e); apply triple_throw.
Qed.

Lemma triple_analyzeCode context :
  P (Ext (CMessagesCreate (buildReviewPrompt w context))) ->
  triple P (analyzeCode w context) (fun _ => True).
Proof.
  intros HP. unfold analyzeCode.
  eapply triple_bind; [apply triple_createMessage; exact HP|].
  intros content _. apply triple_lift. auto.
Qed.

End Client.

Lemma batches_from_small {A} (comments : list A) :
  (0 < List.length comments <= BATCH_SIZE)%nat ->
  batches_from comments 0 = [comments].
Proof.
  intros Hlen.
  rewrite GitHubProofs.batches_from_lt by lia.
  rewrite GitHubProofs.batches_from_ge by lia.
  rewrite GitHubProofs.slice_batch. cbn [skipn].
  rewrite firstn_all2 by lia. reflexivity.
Qed.

(** A list of at most 100 comments goes out in one call. *)
Lemma createReview_small (w : World) (owner repo pull_number : value)
    (comments : list Comment) (t : Trace) :
  (0 < List.length comments <= BATCH_SIZE)%nat ->
  createReview w {| octokit := true |} owner repo pull_number comments t =
  (pulls_createReview w t owner repo pull_number
     (map to_review_comment comments),
   t ++ [Ext (CCreateReview owner repo pull_number
                (map to_review_comment comments))]).
Proof.
  intros Hlen. unfold createReview. cbn [octokit negb].
  destruct (List.length comments =? 0)%nat eqn:H0;
    [apply Nat.eqb_eq in H0; lia|].
  rewrite batches_from_small by exact Hlen.
  cbn [post_batches]. unfold bind, call, ret.
  destruct (pulls_createReview w t owner repo pull_number
              (map to_review_comment comments)) as [[]|e]; reflexivity.
Qed.

Lemma triple_createReview (P : Effect -> Prop) (w : World)
    (client : GitHubClient) (owner repo pull_number : value)
    (comments : list Comment) :
  (0 < List.length comments <= BATCH_SIZE)%nat ->
  P (Ext (CCreateReview owner repo pull_number
            (map to_review_comment comments))) ->
  triple P (createReview w client owner repo pull_number comments)
         (fun _ => True).
Proof.
  intros Hlen HP. destruct client as [[|]].
  - intros t. rewrite createReview_small by exact Hlen.
    eexists. cbn [fst snd]. split; [reflexivity|]. split; auto.
  - unfold createReview. cbn [octokit negb]. apply triple_throw.
Qed.

Lemma Forall_slice0 {A} (R : A -> Prop) (n : nat) (xs : list A) :
  Forall R xs -> Forall R (slice0 n xs).
Proof.
  unfold slice0. intros H. revert n.
  induction H as [|x xs Hx _ IH]; intros [|n]; cbn; auto.
Qed.

Lemma get_Ok (v : value) (k : string) (a : value) :
  get v k = Ok a -> a = prop v k.
Proof. unfold get. destruct (nullish v); congruence. Qed.

Section Handler.

Variable w : World.
Variable event : GitHubEvent.
Variable correlationId : string.

Let P := handler_effect w event correlationId.

Lemma handler_log level message :
  triple P (log level message correlationId) (fun _ => True).
Proof. apply triple_log; [reflexivity | exact I]. Qed.

Lemma triple_keep_file (file : File) :
  triple P (keep_file w correlationId file)
    (fun keep => keep = true ->
       changes file <= defaultConfig.maxFileSize /\
       matches_some w (VStr (filename file)) defaultConfig.ignoredPaths
       = Ok false).
Proof.
  unfold keep_file.
  destruct (changes file >? defaultConfig.maxFileSize) eqn:Hsize.
  - eapply triple_bind; [apply handler_log|]. intros _ _.
    apply triple_ret. discriminate.
  - eapply triple_bind.
    + apply triple_lift with (Q := fun hit =>
        matches_some w (VStr (filename file)) defaultConfig.ignoredPaths
        = Ok hit). auto.
    + intros [|] Hhit.
      * eapply triple_bind; [apply handler_log|]. intros _ _.
        apply triple_ret. discriminate.
      * apply triple_ret. intros _. split; [|exact Hhit].
        rewrite Z.gtb_ltb in Hsize. apply Z.ltb_ge in Hsize. exact Hsize.
Qed.

Lemma map_to_review_comment_side (comments : list Comment) :
  Forall (fun c => rc_side c = "RIGHT"%string)
         (map to_review_comment comments).
Proof. apply Forall_forall. intros c Hin. apply in_map_iff in Hin as (x & <- & _). reflexivity. Qed.

Lemma handlePullRequest_try_effects :
  triple P (handlePullRequest_try w event (pull_request_of event) correlationId)
         (fun _ => True).
Proof.
  unfold handlePullRequest_try.
  destruct (truthy (prop (pull_request_of event) "draft"));
    [apply handler_log|].
  eapply triple_bind; [apply triple_call with (Q := fun _ => True);
                       [exact I | auto]|].
  intros config _.
  eapply triple_bind; [apply triple_authenticate; reflexivity|].
  intros client _.
  eapply triple_bind;
    [apply triple_getFiles; cbn; repeat split; reflexivity|].
  intros files Hfiles.
  eapply triple_bind.
  { eapply triple_filterM with
      (R := reviewable w); [|exact Hfiles].
    intros file Hsource. eapply triple_weaken; [apply triple_keep_file|].
    intros keep Hkeep Htrue. destruct (Hkeep Htrue).
    split; [exact Hsource|]. split; assumption. }
  intros filesToReview Hreview.
  destruct (List.length filesToReview =? 0)%nat eqn:Hnone;
    [apply handler_log|].
  apply Nat.eqb_neq in Hnone.
  eapply triple_bind.
  { instantiate (1 := fun _ => True).
    destruct (_ <? _)%nat; [apply handler_log | apply triple_ret; exact I]. }
  intros _ _.
  eapply triple_bind;
    [apply triple_fetchCustomInstructions; cbn; repeat split; reflexivity|].
  intros customInstructions _.
  eapply triple_bind.
  { instantiate (1 := fun _ => True).
    destruct customInstructions; [apply handler_log | apply triple_ret; exact I]. }
  intros _ _.
  eapply triple_bind; [apply handler_log|]. intros _ _.
  eapply triple_bind.
  { apply triple_analyzeCode.
    exists (slice0 defaultConfig.maxFilesPerReview filesToReview).
    split; [reflexivity|]. split.
    - unfold slice0. rewrite length_firstn.
      unfold defaultConfig.maxFilesPerReview. lia.
    - apply Forall_slice0. exact Hreview. }
  intros analysis _.
  eapply triple_bind; [apply handler_log|]. intros _ _.
  eapply triple_bind; [apply triple_lift with (Q := fun _ => True); auto|].
  intros comments _.
  eapply triple_bind.
  { instantiate (1 := fun _ => True).
    destruct customInstructions; [apply triple_lift; auto | apply triple_ret; exact I]. }
  intros filteredComments _.
  eapply triple_bind; [|intros _ _; apply handler_log].
  instantiate (1 := fun _ => True).
  destruct (0 <? List.length (slice0 defaultConfig.maxCommentsPerPR filteredComments))%nat
    eqn:Hsome; [|apply handler_log].
  apply Nat.ltb_lt in Hsome.
  eapply triple_bind; [apply handler_log|]. intros _ _.
  assert (Hlen : (List.length (slice0 defaultConfig.maxCommentsPerPR
                                 filteredComments) <= 20)%nat).
  { unfold slice0. rewrite length_firstn.
    unfold defaultConfig.maxCommentsPerPR. lia. }
  apply triple_createReview; [unfold BATCH_SIZE; lia|].
  cbn. repeat split; try reflexivity.
  - rewrite length_map. exact Hsome.
  - rewrite length_map. unfold defaultConfig.maxCommentsPerPR. exact Hlen.
  - apply map_to_review_comment_side.
Qed.

Lemma handlePullRequest_effects :
  triple P (handlePullRequest w event correlationId) (fun _ => True).
Proof.
  unfold handlePullRequest.
  eapply triple_bind.
  { apply triple_lift with (Q := fun pr => pr = pull_request_of event).
    intros a Ha. apply get_Ok in Ha. exact Ha. }
  intros pullRequest ->.
  eapply triple_bind; [apply triple_lift with (Q := fun _ => True); auto|].
  intros _ _.
  eapply triple_bind; [apply handler_log|]. intros _ _.
  apply triple_try_catch; [apply handlePullRequest_try_effects|].
  intros e. apply triple_emit; [reflexivity | exact I].
Qed.

End Handler.

(** Every request for review that [handlePullRequest] makes, from any
    trace and in any world, is built from at least 1 and at most 50
    files; each of them is a JavaScript or TypeScript file of at most
    [maxFileSize] changes that matches no ignored path, and is sent with
    its diff and without its content; the description is the body of
    the pull request and the repository is named owner/name. *)
Theorem handlePullRequest_review_request
    (w : World) (event : GitHubEvent) (correlationId : string) (t : Trace) :
  exists new,
    snd (handlePullRequest w event correlationId t) = t ++ new /\
    Forall (review_request_ok w event) new.
Proof.
  destruct (handlePullRequest_effects w event correlationId t)
    as (new & Htrace & Hnew & _).
  exists new. split; [exact Htrace|].
  eapply Forall_impl; [|exact Hnew].
  intros [l m c e|[| | | |prompt|]|p]; cbn; auto.
  intros (kept & Hprompt & Hlen & Hkept).
  exists kept. repeat split; try assumption; try apply Hlen.
  apply Forall_forall. intros f Hin.
  apply in_map_iff in Hin as (x & <- & _). reflexivity.
Qed.

(** Every review that [handlePullRequest] posts carries at least 1 and
    at most 20 comments, goes to the pull request of the event in its
    repository, and places each comment on the right side of the diff. *)
Theorem handlePullRequest_review_post
    (w : World) (event : GitHubEvent) (correlationId : string) (t : Trace) :
  exists new,
    snd (handlePullRequest w event correlationId t) = t ++ new /\
    Forall (review_post_ok event) new.
Proof.
  destruct (handlePullRequest_effects w event correlationId t)
    as (new & Htrace & Hnew & _).
  exists new. split; [exact Htrace|].
  eapply Forall_impl; [|exact Hnew].
  intros [l m c e|[| | | | |owner repo number comments]|p]; cbn; auto.
Qed.

(** [handlePullRequest] authenticates as the installation of the event,
    lists the files of and posts to the pull request of the event in the
    repository of the event, and reads no repository file other than
    [.reviewthor.md] at [HEAD]. *)
Theorem handlePullRequest_addresses_event
    (w : World) (event : GitHubEvent) (correlationId : string) (t : Trace) :
  exists new,
    snd (handlePullRequest w event correlationId t) = t ++ new /\
    Forall (addresses_event event) new.
Proof.
  destruct (handlePullRequest_effects w event correlationId t)
    as (new & Htrace & Hnew & _).
  exists new. split; [exact Htrace|].
  eapply Forall_impl; [|exact Hnew].
  intros [l m c e|[| | | | |owner repo number comments]|p]; cbn; auto.
  intros (Ho & Hr & Hn & _). auto.
Qed.

(** *** Counting calls *)

Section Counting.

Variable k : CallKind.

Lemma calls_of_app (a b : list Effect) :
  calls_of k (a ++ b) = (calls_of k a + calls_of k b)%nat.
Proof. unfold calls_of. rewrite map_app, list_sum_app. reflexivity. Qed.

Lemma at_most_pure {A} (m : M A) (r : result A) :
  (forall t, m t = (r, t)) -> at_most k 0 m.
Proof.
  intros Hm t. exists []. rewrite Hm, app_nil_r. split; [reflexivity|].
  cbn. lia.
Qed.

Lemma at_most_ret {A} (a : A) : at_most k 0 (ret a).
Proof. apply (at_most_pure _ (Ok a)). reflexivity. Qed.

Lemma at_most_throw {A} (e : thrown) : at_most k 0 (@throw A e).
Proof. apply (at_most_pure _ (Throw e)). reflexivity. Qed.

Lemma at_most_lift {A} (r : result A) : at_most k 0 (lift r).
Proof. apply (at_most_pure _ r). reflexivity. Qed.

Lemma at_most_log level message c : at_most k 0 (log level message c).
Proof. intros t. eexists. split; [reflexivity|]. cbn. lia. Qed.

Lemma at_most_call {A} (c : Call) (answer : Trace -> result A) :
  at_most k (is_call k (Ext c)) (call c answer).
Proof.
  intros t. exists [Ext c]. split; [reflexivity|].
  unfold calls_of. cbn [map list_sum fold_right]. lia.
Qed.

Lemma at_most_le {A} (n n' : nat) (m : M A) :
  (n <= n')%nat -> at_most k n m -> at_most k n' m.
Proof.
  intros Hle Hm t. destruct (Hm t) as (new & H1 & H2).
  exists new. split; [exact H1 | lia].
Qed.

Lemma at_most_bind {A B} (n1 n2 : nat) (m : M A) (f : A -> M B) :
  at_most k n1 m -> (forall a, at_most k n2 (f a)) ->
  at_most k (n1 + n2) (bind m f).
Proof.
  intros Hm Hf t. destruct (Hm t) as (new1 & H1 & C1). unfold bind.
  destruct (m t) as [[a|e] t1]; cbn [snd] in *; subst t1.
  - destruct (Hf a (t ++ new1)) as (new2 & H2 & C2).
    exists (new1 ++ new2). rewrite H2, app_assoc, calls_of_app.
    split; [reflexivity | lia].
  - exists new1. split; [reflexivity | lia].
Qed.

Lemma at_most_try_catch {A} (n1 n2 : nat) (m : M A) (h : thrown -> M A) :
  at_most k n1 m -> (forall e, at_most k n2 (h e)) ->
  at_most k (n1 + n2) (try_catch m h).
Proof.
  intros Hm Hh t. destruct (Hm t) as (new1 & H1 & C1). unfold try_catch.
  destruct (m t) as [[a|e] t1]; cbn [snd] in *; subst t1.
  - exists new1. split; [reflexivity | lia].
  - destruct (Hh e (t ++ new1)) as (new2 & H2 & C2).
    exists (new1 ++ new2). rewrite H2, app_assoc, calls_of_app.
    split; [reflexivity | lia].
Qed.

Lemma at_most_filterM {A} (p : A -> M bool) (xs : list A) :
  (forall x, at_most k 0 (p x)) -> at_most k 0 (filterM p xs).
Proof.
  intros Hp. induction xs as [|x xs IH]; cbn [filterM].
  - apply at_most_ret.
  - apply (at_most_bind 0 0); [apply Hp|]. intros keep.
    apply (at_most_bind 0 0); [apply IH|]. intros rest. apply at_most_ret.
Qed.

Variable w : World.

Lemma at_most_authenticate client id :
  at_most k (is_call k (Ext (CGetInstallationOctokit id)))
          (authenticate w client id).
Proof.
  unfold authenticate.
  apply at_most_le
    with (n := (is_call k (Ext (CGetInstallationOctokit id)) + 0 + 0)%nat);
    [lia|].
  apply at_most_try_catch; [|intros e; apply at_most_throw].
  apply at_most_bind; [apply at_most_call | intros _; apply at_most_ret].
Qed.

Lemma at_most_getFiles client owner repo number :
  at_most k (is_call k (Ext (CListFiles owner repo number)))
          (getFiles w client owner repo number).
Proof.
  unfold getFiles. destruct (negb (octokit client)).
  - apply at_most_le with (n := 0%nat); [lia | apply at_most_throw].
  - apply at_most_le
      with (n := (is_call k (Ext (CListFiles owner repo number)) + 0)%nat);
      [lia|].
    apply at_most_bind; [apply at_most_call | intros data; apply at_most_ret].
Qed.

Lemma at_most_getFile client owner repo path ref :
  at_most k (is_call k (Ext (CGetContent owner repo path ref)))
          (getFile w client owner repo path ref).
Proof.
  unfold getFile. destruct (negb (octokit client)).
  - apply at_most_le with (n := 0%nat); [lia | apply at_most_throw].
  - apply at_most_le
      with (n := (is_call k (Ext (CGetContent owner repo path ref)) +
                  (0 + 0))%nat); [lia|].
    apply at_most_try_catch; [apply at_most_call|].
    intros e. apply at_most_bind; [apply at_most_lift|].
    intros [|]; [apply at_most_ret | apply at_most_throw].
Qed.

Lemma at_most_fetchCustomInstructions client owner repo :
  at_most k (is_call k (Ext (CGetContent owner repo ".reviewthor.md" "HEAD")))
          (InstructionProcessor.fetchCustomInstructions w client owner repo).
Proof.
  unfold InstructionProcessor.fetchCustomInstructions.
  apply at_most_le
    with (n := (is_call k (Ext (CGetContent owner repo ".reviewthor.md"
                                  InstructionProcessor.DEFAULT_BRANCH)) + 0)%nat);
    [unfold InstructionProcessor.DEFAULT_BRANCH; lia|].
  apply at_most_bind; [apply at_most_getFile|].
  intros [content|]; [|apply at_most_ret].
  destruct (truthy (VStr content)); apply at_most_ret.
Qed.

Lemma at_most_createMessage prompt :
  at_most k (is_call k (Ext (CMessagesCreate prompt)))
          (AnthropicClient.createMessage w prompt).
Proof.
  unfold AnthropicClient.createMessage.
  apply at_most_le
    with (n := (is_call k (Ext (CMessagesCreate prompt)) + 0 + 0)%nat);
    [lia|].
  apply at_most_try_catch.
  - apply at_most_bind; [apply at_most_call|].
    intros blocks. apply at_most_ret.
  - intros e. destruct (AnthropicClient.is_APIError e); apply at_most_throw.
Qed.

Lemma at_most_analyzeCode context :
  at_most k (is_call k (Ext (CMessagesCreate (buildReviewPrompt w context))))
          (analyzeCode w context).
Proof.
  unfold analyzeCode.
  apply at_most_le
    with (n := (is_call k (Ext (CMessagesCreate (buildReviewPrompt w context)))
                + 0)%nat); [lia|].
  apply at_most_bind; [apply at_most_createMessage|].
  intros content. apply at_most_lift.
Qed.

Lemma at_most_createReview client owner repo number comments :
  (0 < List.length comments <= BATCH_SIZE)%nat ->
  at_most k (is_call k (Ext (CCreateReview owner repo number
                               (map to_review_comment comments))))
          (createReview w client owner repo number comments).
Proof.
  intros Hlen. destruct client as [[|]].
  - intros t. rewrite createReview_small by exact Hlen.
    eexists. split; [reflexivity|].
    unfold calls_of. cbn [map list_sum fold_right]. lia.
  - unfold createReview. cbn [octokit negb].
    apply at_most_le with (n := 0%nat); [lia | apply at_most_throw].
Qed.

Lemma at_most_keep_file correlationId file :
  at_most k 0 (keep_file w correlationId file).
Proof.
  unfold keep_file. destruct (_ >? _).
  - apply (at_most_bind 0 0); [apply at_most_log|].
    intros _. apply at_most_ret.
  - apply (at_most_bind 0 0); [apply at_most_lift|].
    intros [|]; [|apply at_most_ret].
    apply (at_most_bind 0 0); [apply at_most_log|].
    intros _. apply at_most_ret.
Qed.

Variable event : GitHubEvent.
Variable correlationId : string.

Let one (kind : CallKind) : nat := if CallKind_eqb kind k then 1 else 0.

Lemma at_most_zero {A} (n : nat) (m : M A) : at_most k 0 m -> at_most k n m.
Proof. apply at_most_le. lia. Qed.

Lemma at_most_handlePullRequest_try pullRequest :
  at_most k
    (one KGetConfig + (one KAuthenticate + (one KListFiles + (0 + (0 +
     (one KGetContent + (0 + (0 + (one KMessagesCreate + (0 + (0 + (0 +
     ((0 + one KCreateReview) + 0)))))))))))))
    (handlePullRequest_try w event pullRequest correlationId).
Proof.
  unfold handlePullRequest_try.
  destruct (truthy (prop pullRequest "draft"));
    [apply at_most_zero, at_most_log|].
  apply at_most_bind; [apply at_most_call|]. intros config.
  apply at_most_bind; [apply at_most_authenticate|]. intros client.
  apply at_most_bind; [apply at_most_getFiles|]. intros files.
  apply at_most_bind;
    [apply at_most_filterM; intros file; apply at_most_keep_file|].
  intros filesToReview.
  destruct (List.length filesToReview =? 0)%nat;
    [apply at_most_zero, at_most_log|].
  apply at_most_bind.
  { destruct (_ <? _)%nat; [apply at_most_log | apply at_most_ret]. }
  intros _.
  apply at_most_bind; [apply at_most_fetchCustomInstructions|].
  intros customInstructions.
  apply at_most_bind.
  { destruct customInstructions; [apply at_most_log | apply at_most_ret]. }
  intros _.
  apply at_most_bind; [apply at_most_log|]. intros _.
  apply at_most_bind; [apply at_most_analyzeCode|]. intros analysis.
  apply at_most_bind; [apply at_most_log|]. intros _.
  apply at_most_bind; [apply at_most_lift|]. intros comments.
  apply at_most_bind.
  { destruct customInstructions; [apply at_most_lift | apply at_most_ret]. }
  intros filteredComments.
  apply at_most_bind; [|intros _; apply at_most_log].
  destruct (0 <? List.length (slice0 defaultConfig.maxCommentsPerPR
                                      filteredComments))%nat eqn:Hsome;
    [|apply at_most_zero, at_most_log].
  apply Nat.ltb_lt in Hsome.
  apply at_most_bind; [apply at_most_log|]. intros _.
  apply at_most_createReview. split; [exact Hsome|].
  unfold slice0, BATCH_SIZE. rewrite length_firstn.
  unfold defaultConfig.maxCommentsPerPR. lia.
Qed.

Lemma at_most_handlePullRequest :
  at_most k 1 (handlePullRequest w event correlationId).
Proof.
  unfold handlePullRequest.
  apply at_most_le with
    (n := (0 + (0 + (0 +
       ((one KGetConfig + (one KAuthenticate + (one KListFiles + (0 + (0 +
         (one KGetContent + (0 + (0 + (one KMessagesCreate + (0 + (0 + (0 +
         ((0 + one KCreateReview) + 0))))))))))))) + 0))))%nat).
  { subst one. destruct k; cbn; lia. }
  apply at_most_bind; [apply at_most_lift|]. intros pullRequest.
  apply at_most_bind; [apply at_most_lift|]. intros _.
  apply at_most_bind; [apply at_most_log|]. intros _.
  apply at_most_try_catch; [apply at_most_handlePullRequest_try|].
  intros e t. eexists. split; [reflexivity|]. cbn. lia.
Qed.

End Counting.

(** In one run, [handlePullRequest] makes at most one external call of
    each kind: it loads the configuration, authenticates, lists the
    files, reads the instruction file, asks for a review and posts a
    review at most once each, whatever the answers are. *)
Theorem handlePullRequest_calls_once
    (w : World) (event : GitHubEvent) (correlationId : string) (t : Trace)
    (k : CallKind) :
  exists new,
    snd (handlePullRequest w event correlationId t) = t ++ new /\
    (calls_of k new <= 1)%nat.
Proof. apply at_most_handlePullRequest. Qed.

(** *** The responder *)

Lemma handler_effect_logs w event correlationId e :
  handler_effect w event correlationId e -> logs_with correlationId e.
Proof. destruct e as [l m c err|c|p]; cbn; auto. Qed.

Lemma triple_routeEvent w correlationId event :
  triple (logs_with correlationId)
    (routeEvent (Some (fun evt => handlePullRequest w evt correlationId)) event)
    (fun _ => True).
Proof.
  unfold routeEvent.
  destruct (type event); try (apply triple_ret; exact I);
    (eapply triple_effects;
     [apply handler_effect_logs | apply handlePullRequest_effects]).
Qed.

Lemma triple_reviewthor w req :
  triple (logs_with (correlationId_of w req)) (reviewthor w req) (fun _ => True).
Proof.
  unfold reviewthor. fold (correlationId_of w req).
  assert (Hlog : forall level message,
             triple (logs_with (correlationId_of w req))
                    (log level message (correlationId_of w req))
                    (fun _ => True)).
  { intros. apply triple_log; [reflexivity | exact I]. }
  assert (Hrespond : forall st text,
             triple (logs_with (correlationId_of w req)) (respond st text)
                    (fun _ => True)).
  { intros. apply triple_ret. exact I. }
  eapply triple_bind; [apply Hlog|]. intros _ _.
  apply triple_try_catch.
  2:{ intros e. eapply triple_bind; [|intros _ _; apply Hrespond].
      apply triple_emit with (Q := fun _ => True); [reflexivity | exact I]. }
  destruct (rawBody req) as [raw|].
  2:{ eapply triple_bind; [apply Hlog | intros _ _; apply Hrespond]. }
  destruct (negb (truthy (body req))).
  { eapply triple_bind; [apply Hlog | intros _ _; apply Hrespond]. }
  destruct (negb (present (x_hub_signature_256 req))).
  { eapply triple_bind; [apply Hlog | intros _ _; apply Hrespond]. }
  destruct (negb (present (x_github_event req))).
  { eapply triple_bind; [apply Hlog | intros _ _; apply Hrespond]. }
  destruct (_ && _).
  { eapply triple_bind; [apply Hlog | intros _ _; apply Hrespond]. }
  eapply triple_bind;
    [apply triple_call with (Q := fun _ => True); [exact I | auto]|].
  intros config _.
  eapply triple_bind; [apply triple_lift with (Q := fun _ => True); auto|].
  intros valid _.
  eapply triple_bind;
    [apply triple_emit with (Q := fun _ => True); [exact I | exact I]|].
  intros _ _.
  destruct (negb valid).
  { eapply triple_bind; [apply Hlog | intros _ _; apply Hrespond]. }
  eapply triple_bind;
    [apply triple_emit with (Q := fun _ => True); [exact I | exact I]|].
  intros _ _.
  eapply triple_bind; [apply triple_lift with (Q := fun _ => True); auto|].
  intros event _.
  eapply triple_bind;
    [apply triple_emit with (Q := fun _ => True); [exact I | exact I]|].
  intros _ _.
  eapply triple_bind; [apply triple_routeEvent|]. intros _ _.
  eapply triple_bind; [apply Hlog | intros _ _; apply Hrespond].
Qed.

(** Every log entry written while a request is handled, by the responder
    and by the pull-request handler it calls, carries the correlation
    identifier of the request: the [x-github-delivery] header when it is
    present and not empty, and the generated identifier otherwise. *)
Theorem reviewthor_logs_correlationId
    (w : World) (req : Request) (t : Trace) :
  exists new,
    snd (reviewthor w req t) = t ++ new /\
    Forall (logs_with (correlationId_of w req)) new /\
    correlationId_of w req =
      match x_github_delivery req with
      | Some id => if String.eqb id "" then generateCorrelationId w else id
      | None => generateCorrelationId w
      end.
Proof.
  destruct (triple_reviewthor w req t) as (new & Htrace & Hnew & _).
  exists new. split; [exact Htrace|]. split; [exact Hnew|].
  unfold correlationId_of, present.
  destruct (x_github_delivery req) as [id|]; [|reflexivity].
  cbn. destruct (String.eqb id ""); reflexivity.
Qed.

(** The responder never throws: for every request, in every world, it
    answers with one of six responses: 200 "OK", 200 "Event ignored",
    400 "Missing request body", 400 "Missing event type",
    401 "Invalid signature" or 500 "Internal server error". *)
Theorem reviewthor_always_answers (w : World) (req : Request) (t : Trace) :
  exists resp,
    fst (reviewthor w req t) = Ok resp /\ In resp responses.
Proof.
  pose proof (PipelineProofs.reviewthor_outcome w req t) as Hout.
  inversion Hout; eexists; (split; [reflexivity|]); cbn; auto 10.
Qed.







End HandlerProofs.

(* ===================================================================== *)
(** ** Further theorems: the review engine and its clients *)
(* ===================================================================== *)

Module ReviewProofs.

Import Webhook GitHub Engine Pipeline Spec Props.
Local Open Scope list_scope.

Lemma validateIssue_complete (issue : value) :
  validateIssue issue = Ok tt <-> complete_finding issue = true.
Proof.
  unfold validateIssue, complete_finding, get.
  destruct (nullish issue); cbn [negb andb rbind].
  - split; discriminate.
  - destruct (truthy (prop issue "file")); cbn [negb orb andb];
      [|split; discriminate].
    destruct (truthy (prop issue "line")); cbn [negb orb andb];
      [|split; discriminate].
    destruct (truthy (prop issue "severity")); cbn [negb orb andb];
      [|split; discriminate].
    destruct (truthy (prop issue "message")); cbn [negb orb andb];
      [|split; discriminate].
    destruct (truthy (prop issue "category")); cbn [negb orb andb];
      [|split; discriminate].
    destruct (includes accepted_severities (prop issue "severity"));
      cbn [negb]; split; congruence.
Qed.

Lemma for_each_validateIssue (issues : list value) :
  for_each_r validateIssue issues = Ok tt <->
  Forall (fun issue => complete_finding issue = true) issues.
Proof.
  induction issues as [|issue issues IH]; cbn [for_each_r].
  - split; auto.
  - destruct (validateIssue issue) as [[]|e] eqn:Hv; cbn [rbind].
    + apply validateIssue_complete in Hv. rewrite IH. split.
      * intros H. constructor; assumption.
      * intros H. inversion H. assumption.
    + split; [discriminate|]. intros H. inversion H as [|? ? Hc _].
      apply validateIssue_complete in Hc. congruence.
Qed.

Lemma validateAnalysis_accepts (analysis : value) :
  validateAnalysis analysis = Ok tt <->
  structure_ok analysis = true /\
  exists issues,
    prop analysis "issues" = VArr issues /\
    Forall (fun issue => complete_finding issue = true) issues.
Proof.
  unfold validateAnalysis, structure_ok.
  destruct (truthy analysis); cbn [negb orb andb].
  2:{ split; [discriminate | intros [H _]; discriminate]. }
  destruct (typeof_object analysis); cbn [negb orb andb].
  2:{ split; [discriminate | intros [H _]; discriminate]. }
  destruct (prop analysis "issues") as [| | | | |issues|] eqn:Hissues;
    try (split; [discriminate | intros (_ & ? & H & _); discriminate]).
  destruct (truthy (prop analysis "summary")); cbn [negb orb andb];
    [|split; [discriminate | intros [H _]; discriminate]].
  destruct (typeof_string (prop analysis "summary")); cbn [negb orb andb];
    [|split; [discriminate | intros [H _]; discriminate]].
  destruct (truthy (prop analysis "stats")); cbn [negb orb andb];
    [|split; [discriminate | intros [H _]; discriminate]].
  destruct (typeof_object (prop analysis "stats")); cbn [negb orb andb];
    [|split; [discriminate | intros [H _]; discriminate]].
  rewrite for_each_validateIssue. split.
  - intros H. split; [reflexivity|]. exists issues. auto.
  - intros (_ & issues' & Heq & H). injection Heq as <-. exact H.
Qed.

(** [validateAnalysis] accepts a value exactly when the value passes the
    four structural checks (a non-null object with an [issues] array, a
    non-empty [summary] string and a [stats] object) and every element
    of [issues] is an object-like value whose [file], [line],
    [severity], [message] and [category] are truthy and whose severity
    is "error", "warning" or "info". *)
Theorem validateAnalysis_accepts_iff (analysis : value) :
  validateAnalysis analysis = Ok tt <->
  structure_ok analysis = true /\
  exists issues,
    prop analysis "issues" = VArr issues /\
    Forall (fun issue => complete_finding issue = true) issues.
Proof. apply validateAnalysis_accepts. Qed.

Lemma validateAnalysis_accepts_iff_witness :
  validateAnalysis (analysis_of [sample_finding]) = Ok tt.
Proof.
  apply (validateAnalysis_accepts_iff (analysis_of [sample_finding])).
  split; [reflexivity|]. exists [sample_finding].
  split; [reflexivity|]. repeat constructor.
Defined.


(** *** From a validated analysis to comments *)










(** *** The GitHub client *)

(** A client that has not authenticated makes no call: [getFiles],
    [getFile], [createReview] (also for an empty list) and
    [fetchCustomInstructions] throw "GitHub client not authenticated" and
    leave the trace as it is. A client that [authenticate] returns is
    authenticated, and was granted by the host; when the host refuses,
    [authenticate] returns no client and throws "Authentication failed: "
    followed by the message of the refusal. *)
Theorem GitHubClient_requires_authentication
    (w : World) (client : GitHubClient) (owner repo number : value)
    (path ref : string) (comments : list Comment) (id : value) (t : Trace) :
  (octokit client = false ->
   getFiles w client owner repo number t = (Throw not_authenticated, t) /\
   getFile w client owner repo path ref t = (Throw not_authenticated, t) /\
   createReview w client owner repo number comments t
     = (Throw not_authenticated, t) /\
   InstructionProcessor.fetchCustomInstructions w client owner repo t
     = (Throw not_authenticated, t)) /\
  (forall client' t',
     authenticate w client id t = (Ok client', t') ->
     octokit client' = true /\
     getInstallationOctokit w t id = Ok tt /\
     t' = t ++ [Ext (CGetInstallationOctokit id)]) /\
  (forall e,
     getInstallationOctokit w t id = Throw e ->
     authenticate w client id t =
     (Throw (Error ("Authentication failed: " ++ message_of e)%string),
      t ++ [Ext (CGetInstallationOctokit id)])).
Proof.
  split; [|split].
  - intros Hno.
    unfold InstructionProcessor.fetchCustomInstructions, getFiles, getFile,
      createReview, bind.
    rewrite Hno. cbn [negb]. repeat split.
  - intros client' t'. unfold authenticate, try_catch, bind, call, ret, throw.
    destruct (getInstallationOctokit w t id) as [[]|e]; [|discriminate].
    intros H. injection H as <- <-. repeat split.
  - intros e He. unfold authenticate, try_catch, bind, call, ret, throw.
    rewrite He. reflexivity.
Qed.

Lemma GitHubClient_requires_authentication_witness :
  let w := sample_world (Throw (Error "Auth failed")) [sample_file] (Ok [])
             (Ok VNull) in
  createReview w new_GitHubClient (VStr "owner") (VStr "repo") (VNum 1) [] []
    = (Throw not_authenticated, []) /\
  authenticate w new_GitHubClient (VNum 789) [] =
    (Throw (Error "Authentication failed: Auth failed"),
     [Ext (CGetInstallationOctokit (VNum 789))]).
Proof.
  intros w.
  destruct (GitHubClient_requires_authentication w new_GitHubClient
              (VStr "owner") (VStr "repo") (VNum 1) "" "" [] (VNum 789) [])
    as (Hguard & _ & Hfail).
  split.
  - apply Hguard. reflexivity.
  - apply (Hfail (Error "Auth failed")). reflexivity.
Defined.

(** [fetchCustomInstructions], on an authenticated client, reads
    [.reviewthor.md] at [HEAD] with exactly one call. It returns no
    instructions, without throwing, when the host answers 404, when the
    path is not a file and when the file is empty; it returns the parsed
    content of a file that is not empty; and it throws on, unchanged, an
    error whose status is not 404. *)
Theorem fetchCustomInstructions_outcome
    (w : World) (owner repo : value) (t : Trace) :
  let run := InstructionProcessor.fetchCustomInstructions w
               {| octokit := true |} owner repo t in
  let answer := repos_getContent w t owner repo ".reviewthor.md" "HEAD" in
  snd run = t ++ [Ext (CGetContent owner repo ".reviewthor.md" "HEAD")] /\
  (forall cls message,
     answer = Throw (JsError cls message (Some 404)) -> fst run = Ok None) /\
  (answer = Ok None -> fst run = Ok None) /\
  (answer = Ok (Some ""%string) -> fst run = Ok None) /\
  (forall content,
     answer = Ok (Some content) -> content <> ""%string ->
     fst run = Ok (Some (parseInstructionFile w content))) /\
  (forall e,
     answer = Throw e -> status_is_404 e = Ok false -> fst run = Throw e).
Proof.
  cbn zeta.
  unfold InstructionProcessor.fetchCustomInstructions, getFile.
  cbn [octokit negb].
  unfold InstructionProcessor.DEFAULT_BRANCH, bind, try_catch, call, lift,
    ret, throw.
  destruct (repos_getContent w t owner repo ".reviewthor.md" "HEAD")
    as [[content|]|e] eqn:Hanswer; cbn [fst snd].
  - split.
    { destruct (truthy (VStr content)); reflexivity. }
    split; [discriminate|]. split; [discriminate|]. split.
    { intros H. injection H as ->. reflexivity. }
    split; [|discriminate].
    intros c H Hne. injection H as ->.
    destruct (String.eqb c "") eqn:Hc;
      [apply String.eqb_eq in Hc; contradiction|].
    cbn [truthy]. rewrite Hc. reflexivity.
  - split; [reflexivity|]. split; [discriminate|]. split; [reflexivity|].
    split; [discriminate|]. split; discriminate.
  - destruct (status_is_404 e) as [[|]|e'] eqn:H404; cbn [fst snd];
      (split; [reflexivity|]).
    + repeat split; try discriminate; try reflexivity.
      intros e0 He0 Hfalse. injection He0 as <-. congruence.
    + split.
      { intros cls message H. injection H as ->. cbn in H404.
        injection H404 as H404. discriminate. }
      repeat split; try discriminate.
      intros e0 He0 _. injection He0 as <-. reflexivity.
    + split.
      { intros cls message H. injection H as ->. discriminate. }
      repeat split; try discriminate.
      intros e0 He0 Hfalse. injection He0 as <-. congruence.
Qed.

Lemma fetchCustomInstructions_outcome_witness :
  let w := sample_world (Ok tt) [sample_file] (Ok []) (Ok VNull) in
  InstructionProcessor.fetchCustomInstructions w {| octokit := true |}
    (VStr "test-owner") (VStr "test-repo") [] =
  (Ok None,
   [Ext (CGetContent (VStr "test-owner") (VStr "test-repo")
           ".reviewthor.md" "HEAD")]).
Proof.
  intros w.
  destruct (fetchCustomInstructions_outcome w (VStr "test-owner")
              (VStr "test-repo") []) as (Htrace & H404 & _).
  apply injective_projections; cbn [fst snd].
  - apply (H404 "HttpError"%string "Not Found"%string). reflexivity.
  - exact Htrace.
Defined.

(** [createReview] on an authenticated client sends a list of 1 to 100
    comments in a single call that carries all of them, in order, each
    on the right side; the outcome of [createReview] is the answer to
    that call. *)
Theorem createReview_single_call
    (w : World) (owner repo pull_number : value)
    (comments : list Comment) (t : Trace) :
  (0 < List.length comments <= 100)%nat ->
  createReview w {| octokit := true |} owner repo pull_number comments t =
  (pulls_createReview w t owner repo pull_number
     (map to_review_comment comments),
   t ++ [Ext (CCreateReview owner repo pull_number
                (map to_review_comment comments))]) /\
  map rc_path (map to_review_comment comments) = map c_path comments /\
  map rc_line (map to_review_comment comments) = map c_line comments /\
  map rc_body (map to_review_comment comments) = map c_body comments /\
  Forall (fun c => rc_side c = "RIGHT"%string) (map to_review_comment comments).
Proof.
  intros Hlen. split; [apply HandlerProofs.createReview_small; exact Hlen|].
  rewrite !map_map. cbn.
  repeat split; try reflexivity.
  apply HandlerProofs.map_to_review_comment_side.
Qed.

Lemma createReview_single_call_witness :
  let w := sample_world (Ok tt) [sample_file] (Ok []) (Ok VNull) in
  let comment := {| c_path := VStr "src/index.js"; c_line := VNum 10;
                    c_body := "Consider using const" |} in
  createReview w {| octokit := true |} (VStr "o") (VStr "r") (VNum 1)
    [comment] [] =
  (Ok tt,
   [Ext (CCreateReview (VStr "o") (VStr "r") (VNum 1)
           [to_review_comment comment])]).
Proof.
  intros w comment.
  apply (createReview_single_call w (VStr "o") (VStr "r") (VNum 1)
           [comment] []).
  cbn. lia.
Defined.

(** [validateApiKey] never throws: it sends one test request and
    returns whether the request was answered. *)
Theorem validateApiKey_never_throws (w : World) (t : Trace) :
  AnthropicClient.validateApiKey w t =
  (Ok (match messages_create w t "Hello" with
       | Ok _ => true
       | Throw _ => false
       end),
   t ++ [Ext (CMessagesCreate "Hello")]).
Proof.
  unfold AnthropicClient.validateApiKey, AnthropicClient.createMessage.
  unfold bind, try_catch, call, ret, throw.
  destruct (messages_create w t "Hello") as [blocks|e]; [reflexivity|].
  destruct (AnthropicClient.is_APIError e); reflexivity.
Qed.

End ReviewProofs.

(* ===================================================================== *)
(** ** Further theorems: instruction-processor.ts *)
(* ===================================================================== *)

Module InstructionProofs.

Import InstructionProcessor Engine Spec Props.
Local Open Scope list_scope.

Lemma seen_In (x : string) (seen : list string) :
  existsb (String.eqb x) seen = true <-> In x seen.
Proof.
  rewrite existsb_exists. split.
  - intros (y & Hin & Heq). apply String.eqb_eq in Heq. subst. exact Hin.
  - intros Hin. exists x. split; [exact Hin | apply String.eqb_refl].
Qed.

Lemma set_from_In (xs seen : list string) (x : string) :
  In x (set_from seen xs) <-> In x xs /\ ~ In x seen.
Proof.
  revert seen. induction xs as [|y xs IH]; intros seen; cbn [set_from].
  - cbn. tauto.
  - destruct (existsb (String.eqb y) seen) eqn:Hseen.
    + apply seen_In in Hseen. rewrite IH. cbn. split.
      * intros [H1 H2]. auto.
      * intros [[->|H1] H2]; [contradiction | auto].
    + assert (Hnot : ~ In y seen).
      { intros H. apply seen_In in H. congruence. }
      cbn [In]. rewrite IH. cbn [In]. split.
      * intros [<-|[H1 H2]]; [auto|]. split; [auto|]. intros H. apply H2. auto.
      * intros [[<-|H1] H2]; [auto|].
        destruct (string_dec y x) as [->|Hne]; [auto|].
        right. split; [exact H1|]. intros [H|H]; [contradiction | auto].
Qed.

Lemma set_from_NoDup (xs seen : list string) : NoDup (set_from seen xs).
Proof.
  revert seen. induction xs as [|y xs IH]; intros seen; cbn [set_from].
  - constructor.
  - destruct (existsb (String.eqb y) seen); [apply IH|].
    constructor; [|apply IH].
    rewrite set_from_In. cbn. tauto.
Qed.

(** Strings that are already in the set are passed over. *)
Lemma set_from_seen (a b seen : list string) :
  (forall x, In x a -> In x seen) ->
  set_from seen (a ++ b) = set_from seen b.
Proof.
  induction a as [|y a IH]; intros Hseen; [reflexivity|].
  cbn [app set_from].
  assert (Hy : existsb (String.eqb y) seen = true).
  { apply seen_In, Hseen. cbn. auto. }
  rewrite Hy. apply IH. intros x Hx. apply Hseen. cbn. auto.
Qed.

(** A list without duplicates and with nothing in the set yet is kept. *)
Lemma set_from_fresh (xs seen : list string) :
  NoDup xs -> (forall x, In x xs -> ~ In x seen) ->
  set_from seen xs = xs.
Proof.
  intros Hnd. revert seen.
  induction Hnd as [|y xs Hy _ IH]; intros seen Hfresh; [reflexivity|].
  cbn [set_from].
  destruct (existsb (String.eqb y) seen) eqn:Hseen.
  - apply seen_In in Hseen. exfalso. apply (Hfresh y); cbn; auto.
  - f_equal. apply IH. intros x Hx [<-|Hin]; [contradiction|].
    apply (Hfresh x); cbn; auto.
Qed.

Lemma merged_focusAreas (custom : CustomInstructions) sev :
  cfg_focusAreas (mergeWithDefaults custom sev) =
  cfg_focusAreas getDefaultConfig ++
  set_from (rev (cfg_focusAreas getDefaultConfig)) (focusAreas custom).
Proof. reflexivity. Qed.

(** The focus areas of [mergeWithDefaults] are a set: no area occurs
    twice, an area is in the result exactly when it is a default area or
    an area of the repository, and the five default areas come first, in
    their order. Merging the result again changes nothing. *)
Theorem mergeWithDefaults_focusAreas
    (custom : CustomInstructions) (severity : option Severity) :
  let merged := cfg_focusAreas (mergeWithDefaults custom severity) in
  NoDup merged /\
  (forall area,
     In area merged <->
     In area (cfg_focusAreas getDefaultConfig) \/ In area (focusAreas custom)) /\
  firstn 5 merged = cfg_focusAreas getDefaultConfig /\
  cfg_focusAreas (mergeWithDefaults (with_focusAreas merged custom) severity)
    = merged.
Proof.
  cbn zeta.
  assert (Hnd : NoDup (cfg_focusAreas (mergeWithDefaults custom severity))).
  { apply set_from_NoDup. }
  assert (Hin : forall area,
             In area (cfg_focusAreas (mergeWithDefaults custom severity)) <->
             In area (cfg_focusAreas getDefaultConfig) \/
             In area (focusAreas custom)).
  { intros area. unfold mergeWithDefaults, set_of. cbn [cfg_focusAreas].
    rewrite set_from_In, in_app_iff. cbn [In]. tauto. }
  split; [exact Hnd|]. split; [exact Hin|]. split; [reflexivity|].
  rewrite !merged_focusAreas. cbn [with_focusAreas focusAreas].
  f_equal.
  rewrite set_from_seen by (intros x Hx; apply in_rev in Hx; exact Hx).
  apply set_from_fresh.
  - apply set_from_NoDup.
  - intros x Hx. apply set_from_In in Hx. apply Hx.
Qed.

(** [mergeWithDefaults] never drops or overrides a default: the custom
    rules and the ignore patterns of the result are the defaults followed
    by those of the repository, duplicates included, so merging a merged
    list again repeats the four default rules; the severity is that of
    the repository when it gives one and "warning" otherwise; the comment
    limit is 20 and the enabled checks are the defaults whatever the
    repository says. *)
Theorem mergeWithDefaults_keeps_defaults
    (custom : CustomInstructions) (severity : option Severity) :
  let merged := mergeWithDefaults custom severity in
  cfg_customRules merged =
    cfg_customRules getDefaultConfig ++ customRules custom /\
  cfg_ignorePatterns merged =
    cfg_ignorePatterns getDefaultConfig ++ ignorePatterns custom /\
  List.length
    (cfg_customRules
       (mergeWithDefaults (with_customRules (cfg_customRules merged) custom)
                          severity))
    = (List.length (customRules custom) + 8)%nat /\
  cfg_severity merged =
    match severity with Some s => s | None => warning end /\
  cfg_maxCommentsPerPR merged = 20%Z /\
  cfg_enabledChecks merged = cfg_enabledChecks getDefaultConfig.
Proof.
  cbn zeta. repeat split.
  cbn. rewrite Nat.add_comm. reflexivity.
Qed.

(** *** Validation of the instructions *)

Lemma substring0_cons (c : ascii) (s : string) (n : nat) :
  String.substring 0 (S n) (String c s) = String c (String.substring 0 n s).
Proof. reflexivity. Qed.

Lemma substring0_zero (s : string) : String.substring 0 0 s = EmptyString.
Proof. destruct s; reflexivity. Qed.

Lemma substring0_empty (n : nat) :
  String.substring 0 n EmptyString = EmptyString.
Proof. destruct n; reflexivity. Qed.

(** The loop of [isValidGlobPattern], started with [k] open brackets,
    ends well exactly when the depth never falls below zero and is zero
    at the end. *)
Lemma brackets_close_depth (pattern : string) :
  forall k, 0 <= k ->
    brackets_close pattern k = true <->
    (forall n, 0 <= k + bracket_depth (String.substring 0 n pattern)) /\
    k + bracket_depth pattern = 0.
Proof.
  induction pattern as [|c rest IH]; intros k Hk.
  - cbn [brackets_close bracket_depth]. rewrite Z.eqb_eq. split.
    + intros ->. split; [|reflexivity].
      intros n. rewrite substring0_empty. cbn. lia.
    + intros [_ H]. lia.
  - cbn [brackets_close bracket_depth].
    set (d := (if Ascii.eqb c "["%char then 1 else 0) -
              (if Ascii.eqb c "]"%char then 1 else 0)).
    assert (Hclosed :
              (if Ascii.eqb c "]"%char
               then (if Ascii.eqb c "["%char then k + 1 else k) - 1
               else (if Ascii.eqb c "["%char then k + 1 else k)) = k + d).
    { subst d. destruct (Ascii.eqb c "["%char), (Ascii.eqb c "]"%char); lia. }
    rewrite Hclosed.
    destruct (k + d <? 0) eqn:Hneg.
    + apply Z.ltb_lt in Hneg. split; [discriminate|].
      intros [Hpre _]. specialize (Hpre 1%nat).
      rewrite substring0_cons, substring0_zero in Hpre.
      cbn [bracket_depth] in Hpre. fold d in Hpre. lia.
    + apply Z.ltb_ge in Hneg. rewrite (IH (k + d) Hneg). split.
      * intros [Hpre Hend]. split; [|lia].
        intros [|n].
        -- rewrite substring0_zero. cbn. lia.
        -- rewrite substring0_cons. cbn [bracket_depth]. fold d.
           specialize (Hpre n). lia.
      * intros [Hpre Hend]. split; [|lia].
        intros n. specialize (Hpre (S n)).
        rewrite substring0_cons in Hpre. cbn [bracket_depth] in Hpre.
        fold d in Hpre. lia.
Qed.

Lemma brackets_close_append (a b : string) :
  forall k, brackets_close a k = true ->
            brackets_close (a ++ b) k = brackets_close b 0.
Proof.
  induction a as [|c a IH]; intros k; cbn [brackets_close append].
  - rewrite Z.eqb_eq. intros ->. reflexivity.
  - destruct (_ <? 0); [discriminate|]. apply IH.
Qed.

Lemma all_allowed_append (a b : string) :
  all_allowed (a ++ b) = all_allowed a && all_allowed b.
Proof.
  induction a as [|c a IH]; cbn [all_allowed append]; [reflexivity|].
  rewrite IH, andb_assoc. reflexivity.
Qed.

(** [isValidGlobPattern] accepts exactly the patterns that are not
    empty, are written with letters, digits and the characters
    [- _ . * / ? [ ] ! { }] only, and whose square brackets are balanced:
    no prefix closes more brackets than it opens, and the whole pattern
    opens as many as it closes. Braces are not counted. *)
Theorem isValidGlobPattern_iff (pattern : string) :
  isValidGlobPattern pattern = true <->
  pattern <> ""%string /\ all_allowed pattern = true /\
  brackets_balanced pattern.
Proof.
  unfold isValidGlobPattern, validPattern_test, brackets_balanced.
  pose proof (brackets_close_depth pattern 0 (Z.le_refl 0)) as Hdepth.
  cbn [Z.add] in Hdepth.
  destruct (brackets_close pattern 0) eqn:Hclose; cbn [negb].
  - rewrite andb_true_iff, negb_true_iff, String.eqb_neq.
    destruct Hdepth as [Hdepth _]. specialize (Hdepth eq_refl). tauto.
  - split; [discriminate|]. intros (_ & _ & Hbal).
    apply Hdepth in Hbal. discriminate.
Qed.

(** Two patterns that [isValidGlobPattern] accepts make, written one
    after the other, a pattern that it accepts. *)
Theorem isValidGlobPattern_append (a b : string) :
  isValidGlobPattern a = true -> isValidGlobPattern b = true ->
  isValidGlobPattern (a ++ b) = true.
Proof.
  unfold isValidGlobPattern, validPattern_test.
  destruct (brackets_close a 0) eqn:Ha; [|discriminate].
  destruct (brackets_close b 0) eqn:Hb; [|discriminate].
  rewrite (brackets_close_append a b 0 Ha), Hb. cbn [negb].
  rewrite !andb_true_iff, !negb_true_iff, !String.eqb_neq.
  intros [Hne Hall] [_ Hall']. split.
  - destruct a; [congruence | discriminate].
  - rewrite all_allowed_append, Hall, Hall'. reflexivity.
Qed.

Lemma isValidGlobPattern_append_witness :
  isValidGlobPattern ("src/[a-z]*" ++ "/**/*.{js}") = true.
Proof.
  apply (isValidGlobPattern_append "src/[a-z]*" "/**/*.{js}"); reflexivity.
Defined.

Lemma flat_map_errors {A} (test : A -> bool) (report : A -> string)
    (xs : list A) :
  List.length (flat_map (fun x => if test x then [report x] else []) xs) =
  count_if test xs.
Proof.
  unfold count_if. induction xs as [|x xs IH]; [reflexivity|].
  cbn [flat_map filter]. rewrite length_app, IH.
  destruct (test x); reflexivity.
Qed.

Lemma count_if_zero {A} (test : A -> bool) (xs : list A) :
  count_if test xs = 0%nat <-> Forall (fun x => test x = false) xs.
Proof.
  unfold count_if. induction xs as [|x xs IH]; cbn [filter].
  - split; [constructor | reflexivity].
  - destruct (test x) eqn:Hx; cbn [List.length].
    + split; [discriminate|]. intros H. inversion H; congruence.
    + rewrite IH. split.
      * intros H. constructor; assumption.
      * intros H. inversion H; assumption.
Qed.

Lemma Forall_equiv {A} (P Q : A -> Prop) (xs : list A) :
  (forall x, P x <-> Q x) -> Forall P xs <-> Forall Q xs.
Proof.
  intros H. rewrite !Forall_forall.
  split; intros F x Hx; apply H, F, Hx.
Qed.

Lemma errors_length (instructions : CustomInstructions) :
  List.length (errors (validateInstructions instructions)) =
  (count_if too_long (focusAreas instructions) +
   count_if too_long (customRules instructions) +
   count_if (fun pattern => negb (isValidGlobPattern pattern))
            (ignorePatterns instructions))%nat.
Proof.
  unfold validateInstructions. cbn [errors].
  rewrite !length_app.
  rewrite (flat_map_errors too_long
             (fun _ => "Focus area too long (max 200 characters)"%string)).
  rewrite (flat_map_errors too_long
             (fun _ => "Custom rule too long (max 200 characters)"%string)).
  rewrite (flat_map_errors (fun pattern => negb (isValidGlobPattern pattern))
             (fun pattern => ("Invalid ignore pattern: " ++ pattern)%string)).
  lia.
Qed.

Lemma isValid_iff (instructions : CustomInstructions) :
  isValid (validateInstructions instructions) = true <->
  Forall (fun area => too_long area = false) (focusAreas instructions) /\
  Forall (fun rule => too_long rule = false) (customRules instructions) /\
  Forall (fun pattern => isValidGlobPattern pattern = true)
         (ignorePatterns instructions).
Proof.
  assert (Hvalid : isValid (validateInstructions instructions) =
                   (List.length (errors (validateInstructions instructions))
                    =? 0)%nat) by reflexivity.
  rewrite Hvalid, Nat.eqb_eq, errors_length.
  rewrite <- !count_if_zero.
  assert (Hpat : forall xs : list string,
             Forall (fun pattern => isValidGlobPattern pattern = true) xs <->
             count_if (fun pattern => negb (isValidGlobPattern pattern)) xs
             = 0%nat).
  { intros xs. rewrite count_if_zero. apply Forall_equiv.
    intros x. rewrite negb_false_iff. reflexivity. }
  rewrite Hpat. lia.
Qed.

(** [validateInstructions] reports one error for each focus area and
    each custom rule of more than 200 characters and for each ignore
    pattern that [isValidGlobPattern] refuses, and nothing else; the
    instructions are valid exactly when there is no such item. Neither
    the number of items nor the raw content is looked at. *)
Theorem validateInstructions_errors (instructions : CustomInstructions) :
  List.length (errors (validateInstructions instructions)) =
  (count_if too_long (focusAreas instructions) +
   count_if too_long (customRules instructions) +
   count_if (fun pattern => negb (isValidGlobPattern pattern))
            (ignorePatterns instructions))%nat /\
  (isValid (validateInstructions instructions) = true <->
   Forall (fun area => (String.length area <= 200)%nat)
          (focusAreas instructions) /\
   Forall (fun rule => (String.length rule <= 200)%nat)
          (customRules instructions) /\
   Forall (fun pattern => isValidGlobPattern pattern = true)
          (ignorePatterns instructions)).
Proof.
  split; [apply errors_length|].
  rewrite isValid_iff.
  assert (Hlen : forall xs : list string,
             Forall (fun s => too_long s = false) xs <->
             Forall (fun s => (String.length s <= 200)%nat) xs).
  { intros xs. apply Forall_equiv. intros s. unfold too_long, MAX_RULE_LENGTH.
    rewrite Nat.ltb_ge. reflexivity. }
  rewrite !Hlen. reflexivity.
Qed.

(** The defaults pass the validation, and merging keeps validity: the
    three lists of [mergeWithDefaults custom] are valid instructions
    exactly when those of [custom] are. *)
Theorem mergeWithDefaults_valid
    (custom : CustomInstructions) (severity : option Severity) (raw : string) :
  isValid (validateInstructions
             (instructions_of (mergeWithDefaults custom severity) raw)) =
  isValid (validateInstructions custom).
Proof.
  apply eq_true_iff_eq. rewrite !isValid_iff.
  cbn [instructions_of focusAreas customRules ignorePatterns].
  unfold mergeWithDefaults, set_of.
  cbn [cfg_focusAreas cfg_customRules cfg_ignorePatterns].
  rewrite !Forall_app.
  assert (Hareas :
            Forall (fun area => too_long area = false)
                   (set_from [] (cfg_focusAreas getDefaultConfig ++
                                 focusAreas custom)) <->
            Forall (fun area => too_long area = false) (focusAreas custom)).
  { rewrite !Forall_forall. split.
    - intros H x Hx. apply H. apply set_from_In. split; [|intros []].
      apply in_or_app. auto.
    - intros H x Hx. apply set_from_In in Hx. destruct Hx as [Hx _].
      apply in_app_or in Hx. destruct Hx as [Hx|Hx]; [|auto].
      cbn in Hx. repeat (destruct Hx as [<-|Hx]; [reflexivity|]).
      destruct Hx. }
  assert (Hrules : Forall (fun rule => too_long rule = false)
                          (cfg_customRules getDefaultConfig)).
  { repeat constructor. }
  assert (Hpats : Forall (fun pattern => isValidGlobPattern pattern = true)
                         (cfg_ignorePatterns getDefaultConfig)).
  { repeat constructor. }
  rewrite Hareas. tauto.
Qed.

End InstructionProofs.

(* ===================================================================== *)
(** ** Further theorems: the kind of an event *)
(* ===================================================================== *)

Module EventProofs.

Import Webhook Spec Props.
Local Open Scope list_scope.

Lemma opt_get_prop (v : value) (k : string) : opt_get v k = prop v k.
Proof. destruct v; reflexivity. Qed.

Lemma truthy_prop_object (v : value) (k : string) :
  truthy (prop v k) = true -> nullish v = false.
Proof. destruct v; cbn; congruence. Qed.

Ltac pull_request_case name t :=
  destruct (truthy (prop _ "pull_request")); cbn [andb];
  rewrite ?andb_false_r; split;
  [ let H := fresh in
    intros H; injection H as <-; left; split; [reflexivity|];
    exists name; cbn; auto
  | let Ha := fresh in let Hk := fresh in
    intros [(_ & a & _ & Ha & Hk)|(_ & Ha & _)];
    [ injection Ha as <-; destruct t;
      (reflexivity || (cbn in Hk; discriminate))
    | discriminate ]
  | discriminate
  | let H := fresh in intros [(H & _)|(_ & H & _)]; discriminate ].

Lemma determineEventType_kind (payload : value) (t : EventType) :
  determineEventType payload = Ok t <->
  kind_for payload (EventType_name t).
Proof.
  unfold determineEventType, kind_for, includes, pull_request_event.
  destruct (prop payload "action") as [| |b|n|s|l|l] eqn:Haction;
    cbn [is_str existsb orb andb];
    try (destruct (truthy (prop payload "pull_request") && _);
         rewrite ?andb_false_r;
         (split; [discriminate|]);
         intros [(_ & a & _ & H & _)|(_ & H & _)]; discriminate).
  destruct (String.eqb_spec s "opened") as [->|Ho];
    [|destruct (String.eqb_spec s "synchronize") as [->|Hs];
      [|destruct (String.eqb_spec s "reopened") as [->|Hr]]];
    cbn [orb String.eqb Ascii.eqb Bool.eqb andb truthy negb].
  - pull_request_case "opened"%string t.
  - pull_request_case "synchronize"%string t.
  - pull_request_case "reopened"%string t.
  - assert (Hnone :
              (if truthy (prop payload "pull_request") &&
                  negb (String.eqb s "")
               then None else None) = (None : option EventType)).
    { destruct (_ && _); reflexivity. }
    rewrite Hnone.
    destruct (truthy (prop payload "review")) eqn:Hreview; cbn [andb].
    + destruct (String.eqb_spec s "submitted") as [->|Hsub]; split.
      * intros H. injection H as <-. right. auto.
      * intros [(_ & a & Hin & Ha & _)|(_ & _ & Hk)].
        -- injection Ha as <-. cbn in Hin.
           destruct Hin as [H|[H|[H|[]]]]; discriminate.
        -- destruct t; try discriminate. reflexivity.
      * discriminate.
      * intros [(_ & a & Hin & Ha & _)|(_ & Ha & _)].
        -- injection Ha as <-. cbn in Hin.
           destruct Hin as [<-|[<-|[<-|[]]]]; congruence.
        -- injection Ha as ->. congruence.
    + split; [discriminate|].
      intros [(_ & a & Hin & Ha & _)|(H & _)]; [|discriminate].
      injection Ha as <-. cbn in Hin.
      destruct Hin as [<-|[<-|[<-|[]]]]; congruence.
Qed.

Lemma parseEvent_run (payload : value) (t : EventType) :
  fields_present payload = true ->
  determineEventType payload = Ok t ->
  parseEvent payload =
  Ok {| type := t; payload := payload;
        repository_name := prop (prop payload "repository") "name";
        repository_owner :=
          prop (prop (prop payload "repository") "owner") "login";
        installationId := prop (prop payload "installation") "id" |}.
Proof.
  unfold fields_present. rewrite !andb_true_iff.
  intros [[Hid Hname] Howner] Hkind.
  unfold parseEvent, get.
  assert (Hpayload : nullish payload = false).
  { destruct payload; try reflexivity; discriminate. }
  rewrite Hpayload. cbn [rbind].
  rewrite !opt_get_prop, Hid, Hname, Howner, Hkind. reflexivity.
Qed.

(** [parseEvent] returns an event of the kind [kind] exactly when the
    payload names an installation, a repository and its owner, and
    either carries a pull request with one of the actions "opened",
    "synchronize", "reopened", the kind being "pull_request." followed
    by the action, or carries a review with the action "submitted", the
    kind being "pull_request_review.submitted". The action alone decides
    between the two: a submitted review that carries its pull request is
    a review, and an opened pull request that carries a review is a pull
    request. *)
Theorem parseEvent_accepts_iff (payload : value) (kind : string) :
  (exists event,
     parseEvent payload = Ok event /\ EventType_name (type event) = kind) <->
  fields_present payload = true /\ kind_for payload kind.
Proof.
  split.
  - intros (event & Hparse & <-).
    apply WebhookProofs.parseEvent_Ok in Hparse.
    destruct Hparse as (_ & _ & Hkind & Hid & Hname & Howner & Tid & Tname & Towner).
    split.
    + unfold fields_present. rewrite <- Hid, <- Hname, <- Howner.
      rewrite Tid, Tname, Towner. reflexivity.
    + apply determineEventType_kind. exact Hkind.
  - intros [Hfields Hkind].
    assert (Ht : exists t, EventType_name t = kind).
    { destruct Hkind as [(_ & a & Hin & _ & ->)|(_ & _ & ->)].
      - cbn in Hin. destruct Hin as [<-|[<-|[<-|[]]]].
        + exists pull_request_opened. reflexivity.
        + exists pull_request_synchronize. reflexivity.
        + exists pull_request_reopened. reflexivity.
      - exists pull_request_review_submitted. reflexivity. }
    destruct Ht as [t <-].
    apply determineEventType_kind in Hkind.
    eexists. split; [apply (parseEvent_run payload t Hfields Hkind)|].
    reflexivity.
Qed.

End EventProofs.

(* ===================================================================== *)
(** ** Further theorems: context-builder.ts *)
(* ===================================================================== *)

Module ContextProofs.

Import ContextBuilder GitHub Spec Props.
Local Open Scope list_scope.

(** *** Suffixes of strings *)

Lemma length_append (a b : string) :
  String.length (a ++ b) = (String.length a + String.length b)%nat.
Proof. induction a as [|c a IH]; cbn; congruence. Qed.

Lemma append_assoc (a b c : string) :
  ((a ++ b) ++ c = a ++ (b ++ c))%string.
Proof. induction a as [|x a IH]; cbn; congruence. Qed.

Lemma substring0_all (s : string) :
  String.substring 0 (String.length s) s = s.
Proof. induction s as [|c s IH]; cbn; congruence. Qed.

Lemma substring0_append (a b : string) :
  String.substring 0 (String.length a) (a ++ b) = a.
Proof.
  induction a as [|c a IH]; cbn.
  - destruct b; reflexivity.
  - congruence.
Qed.

Lemma substring_append (a b : string) (n : nat) :
  String.substring (String.length a) n (a ++ b) = String.substring 0 n b.
Proof. induction a as [|c a IH]; cbn; [reflexivity | exact IH]. Qed.

Lemma substring_split (s : string) :
  forall k, (k <= String.length s)%nat ->
    s = (String.substring 0 k s ++
         String.substring k (String.length s - k) s)%string.
Proof.
  induction s as [|c s IH]; intros k Hk.
  - cbn in Hk. assert (k = 0%nat) as -> by lia. reflexivity.
  - destruct k as [|k].
    + cbn. rewrite substring0_all. reflexivity.
    + cbn in Hk. cbn. rewrite <- IH by lia. reflexivity.
Qed.

(** The last characters of [b ++ e], as many as [e] has, are [e]. *)
Lemma endsWith_append (b e p : string) :
  String.length e = String.length p ->
  endsWith (b ++ e) p = String.eqb e p.
Proof.
  intros Hlen. unfold endsWith. rewrite length_append, <- Hlen.
  replace (String.length b + String.length e - String.length e)%nat
    with (String.length b) by lia.
  rewrite substring_append, substring0_all.
  assert (Hle : (String.length e <=? String.length b + String.length e)%nat
                = true) by (apply Nat.leb_le; lia).
  rewrite Hle. reflexivity.
Qed.

Lemma endsWith_iff (s p : string) :
  endsWith s p = true <-> exists pre, s = (pre ++ p)%string.
Proof.
  split.
  - unfold endsWith. rewrite andb_true_iff, Nat.leb_le, String.eqb_eq.
    intros [Hle Hsub].
    exists (String.substring 0 (String.length s - String.length p) s).
    pose proof (substring_split s (String.length s - String.length p)
                  ltac:(lia)) as Hsplit.
    replace (String.length s - (String.length s - String.length p))%nat
      with (String.length p) in Hsplit by lia.
    rewrite Hsub in Hsplit. exact Hsplit.
  - intros [pre ->]. rewrite endsWith_append by reflexivity.
    apply String.eqb_refl.
Qed.

(** A string that ends with [c :: p] ends with [p]. *)
Lemma endsWith_tail (s : string) (c : ascii) (p : string) :
  endsWith s (String c p) = true -> endsWith s p = true.
Proof.
  rewrite !endsWith_iff. intros [pre ->].
  exists (pre ++ String c EmptyString)%string.
  rewrite append_assoc. reflexivity.
Qed.

Lemma after_last_dot_append (pre e : string) :
  forall segment,
    after_last_dot segment (pre ++ String "."%char e) = after_last_dot e e.
Proof.
  induction pre as [|c pre IH]; intros segment; cbn [append after_last_dot].
  - reflexivity.
  - destruct (Ascii.eqb c "."%char); apply IH.
Qed.

Lemma detectLanguage_extension (pre e : string) :
  detectLanguage (pre ++ String "."%char e) =
  detectLanguage (String "."%char e).
Proof.
  unfold detectLanguage, last_segment.
  rewrite after_last_dot_append. reflexivity.
Qed.

Lemma substring_append_shift (a b : string) (j n : nat) :
  String.substring (String.length a + j) n (a ++ b) = String.substring j n b.
Proof. induction a as [|c a IH]; cbn; [reflexivity | exact IH]. Qed.

(** Whether [b ++ e] ends with [p], for a [p] no longer than [e], is
    decided by [e]. *)
Lemma endsWith_append_ge (b e p : string) :
  (String.length p <= String.length e)%nat ->
  endsWith (b ++ e) p = endsWith e p.
Proof.
  intros Hle. unfold endsWith. rewrite length_append.
  replace (String.length b + String.length e - String.length p)%nat
    with (String.length b + (String.length e - String.length p))%nat by lia.
  rewrite substring_append_shift.
  assert (H1 : (String.length p <=? String.length b + String.length e)%nat
               = true) by (apply Nat.leb_le; lia).
  assert (H2 : (String.length p <=? String.length e)%nat = true)
    by (apply Nat.leb_le; lia).
  rewrite H1, H2. reflexivity.
Qed.

Lemma endsWith_append_longer (b e p : string) (c : ascii) :
  (String.length p <= String.length e)%nat ->
  endsWith e p = false ->
  endsWith (b ++ e) (String c p) = false.
Proof.
  intros Hle Hno.
  destruct (endsWith (b ++ e) (String c p)) eqn:Hends; [|reflexivity].
  apply endsWith_tail in Hends.
  rewrite endsWith_append_ge in Hends by exact Hle. congruence.
Qed.

(** *** The language of a file *)

(** Every file that the listing of [getFiles] keeps has a language:
    [detectLanguage] answers "javascript" or "typescript" for it, never
    "unknown". *)
Theorem source_file_language (name : string) :
  is_source_file name = true ->
  detectLanguage name = VStr "javascript" \/
  detectLanguage name = VStr "typescript".
Proof.
  unfold is_source_file. rewrite !orb_true_iff.
  intros [[[H|H]|H]|H]; apply endsWith_iff in H; destruct H as [pre ->].
  - left. apply (detectLanguage_extension pre "js").
  - left. apply (detectLanguage_extension pre "jsx").
  - right. apply (detectLanguage_extension pre "ts").
  - right. apply (detectLanguage_extension pre "tsx").
Qed.

Lemma source_file_language_witness :
  detectLanguage "src/index.tsx" = VStr "javascript" \/
  detectLanguage "src/index.tsx" = VStr "typescript".
Proof. apply (source_file_language "src/index.tsx"). reflexivity. Defined.

(** The converse fails: a module file, [.mjs] or [.cjs], is JavaScript
    for [detectLanguage], and the listing of [getFiles] drops it. *)
Theorem module_file_not_listed (base ext : string) :
  In ext [".mjs"; ".cjs"]%string ->
  detectLanguage (base ++ ext) = VStr "javascript" /\
  is_source_file (base ++ ext) = false.
Proof.
  intros [<-|[<-|[]]].
  - split; [apply (detectLanguage_extension base "mjs")|].
    unfold is_source_file.
    rewrite !endsWith_append_ge by (cbn; lia). reflexivity.
  - split; [apply (detectLanguage_extension base "cjs")|].
    unfold is_source_file.
    rewrite !endsWith_append_ge by (cbn; lia). reflexivity.
Qed.

Lemma module_file_not_listed_witness :
  detectLanguage ("lib/loader" ++ ".mjs") = VStr "javascript" /\
  is_source_file ("lib/loader" ++ ".mjs") = false.
Proof.
  apply (module_file_not_listed "lib/loader" ".mjs"). cbn. auto.
Defined.

(** *** Test files *)

Lemma strip_source_extension_append (base ext : string) :
  In ext [".js"; ".jsx"; ".ts"; ".tsx"]%string ->
  strip_source_extension (base ++ ext) = base.
Proof.
  assert (Hsub : forall e n,
             n = String.length e ->
             String.substring 0 (String.length (base ++ e) - n) (base ++ e)
             = base).
  { intros e n ->. rewrite length_append, Nat.add_sub.
    apply substring0_append. }
  unfold strip_source_extension.
  intros [<-|[<-|[<-|[<-|[]]]]].
  - rewrite endsWith_append_ge by (cbn; lia).
    cbn [endsWith String.length Nat.leb Nat.sub String.substring String.eqb
         Ascii.eqb Bool.eqb andb].
    apply Hsub. reflexivity.
  - rewrite (endsWith_append_ge base ".jsx" ".js") by (cbn; lia).
    rewrite (endsWith_append_ge base ".jsx" ".jsx") by (cbn; lia).
    cbn [endsWith String.length Nat.leb Nat.sub String.substring String.eqb
         Ascii.eqb Bool.eqb andb].
    apply Hsub. reflexivity.
  - rewrite (endsWith_append_ge base ".ts" ".js") by (cbn; lia).
    rewrite (endsWith_append_longer base ".ts" "jsx" "."%char)
      by (cbn; first [lia | reflexivity]).
    rewrite (endsWith_append_ge base ".ts" ".ts") by (cbn; lia).
    cbn [endsWith String.length Nat.leb Nat.sub String.substring String.eqb
         Ascii.eqb Bool.eqb andb].
    apply Hsub. reflexivity.
  - rewrite (endsWith_append_ge base ".tsx" ".js") by (cbn; lia).
    rewrite (endsWith_append_ge base ".tsx" ".jsx") by (cbn; lia).
    rewrite (endsWith_append_ge base ".tsx" ".ts") by (cbn; lia).
    rewrite (endsWith_append_ge base ".tsx" ".tsx") by (cbn; lia).
    cbn [endsWith String.length Nat.leb Nat.sub String.substring String.eqb
         Ascii.eqb Bool.eqb andb].
    apply Hsub. reflexivity.
Qed.

Lemma is_source_file_js (name : string) :
  is_source_file (name ++ ".js") = true.
Proof.
  unfold is_source_file.
  rewrite (endsWith_append_ge name ".js" ".js") by (cbn; lia). reflexivity.
Qed.

Lemma is_source_file_ts (name : string) :
  is_source_file (name ++ ".ts") = true.
Proof.
  unfold is_source_file.
  rewrite (endsWith_append_ge name ".ts" ".ts") by (cbn; lia).
  rewrite (endsWith_append_ge name ".ts" ".js") by (cbn; lia).
  destruct (endsWith (name ++ ".ts") ".jsx"); reflexivity.
Qed.

(** [findTestFiles] looks at the path only through its name without the
    extension: for a path [base ++ ext] with one of the four source
    extensions the six candidates are built from [base], so a file and
    its counterpart in the other language share their candidates. For
    every path, each candidate is a file that the listing of [getFiles]
    would keep. *)
Theorem findTestFiles_candidates (base ext : string) :
  In ext [".js"; ".jsx"; ".ts"; ".tsx"]%string ->
  findTestFiles (base ++ ext) =
    [base ++ ".test.js"; base ++ ".test.ts";
     base ++ ".spec.js"; base ++ ".spec.ts";
     "__tests__/" ++ base ++ ".js"; "__tests__/" ++ base ++ ".ts"]%string /\
  forall filePath,
    Forall (fun candidate => is_source_file candidate = true)
           (findTestFiles filePath).
Proof.
  intros Hext. split.
  - unfold findTestFiles.
    rewrite (strip_source_extension_append base ext Hext). reflexivity.
  - intros filePath. unfold findTestFiles.
    set (baseName := strip_source_extension filePath).
    repeat constructor.
    + change (baseName ++ ".test.js")%string
        with (baseName ++ (".test" ++ ".js"))%string.
      rewrite <- append_assoc. apply is_source_file_js.
    + change (baseName ++ ".test.ts")%string
        with (baseName ++ (".test" ++ ".ts"))%string.
      rewrite <- append_assoc. apply is_source_file_ts.
    + change (baseName ++ ".spec.js")%string
        with (baseName ++ (".spec" ++ ".js"))%string.
      rewrite <- append_assoc. apply is_source_file_js.
    + change (baseName ++ ".spec.ts")%string
        with (baseName ++ (".spec" ++ ".ts"))%string.
      rewrite <- append_assoc. apply is_source_file_ts.
    + rewrite <- append_assoc. apply is_source_file_js.
    + rewrite <- append_assoc. apply is_source_file_ts.
Qed.

Lemma findTestFiles_candidates_witness :
  findTestFiles ("src/utils/helper" ++ ".tsx") =
    ["src/utils/helper" ++ ".test.js"; "src/utils/helper" ++ ".test.ts";
     "src/utils/helper" ++ ".spec.js"; "src/utils/helper" ++ ".spec.ts";
     "__tests__/" ++ "src/utils/helper" ++ ".js";
     "__tests__/" ++ "src/utils/helper" ++ ".ts"]%string /\
  forall filePath,
    Forall (fun candidate => is_source_file candidate = true)
           (findTestFiles filePath).
Proof.
  apply (findTestFiles_candidates "src/utils/helper" ".tsx"). cbn. auto.
Defined.

(** *** What the packed context really counts *)

Lemma length_substring0 (s : string) (k : nat) :
  (String.length (String.substring 0 k s) <= k)%nat.
Proof.
  revert k. induction s as [|c s IH]; intros [|k]; cbn; try lia.
  specialize (IH k). lia.
Qed.

Lemma len_substring0 (s : string) (n : Z) :
  len (substring0 s n) <= Z.max 0 n.
Proof.
  unfold len, substring0.
  pose proof (length_substring0 s (Z.to_nat n)). lia.
Qed.

Section Recount.

Variable B : Z.
Lemma sum_file_tokens_app (pre post : list FileContext) :
  sum_file_tokens (with_budget B) (pre ++ post) =
  sum_file_tokens (with_budget B) pre + sum_file_tokens (with_budget B) post.
Proof.
  induction pre as [|f pre IH]; [reflexivity|].
  cbn [app]. rewrite !ContextBuilderProofs.sum_file_tokens_cons.
  rewrite IH. lia.
Qed.

(** The loop stops within the budget: the files it keeps whole fit. *)
Lemma pack_loop_fits (fs : list FileContext) :
  forall currentTokens optimizedFiles,
    B < currentTokens + sum_file_tokens (with_budget B) fs ->
    currentTokens <= B ->
    exists pre f post,
      fs = pre ++ f :: post /\
      currentTokens + sum_file_tokens (with_budget B) pre <= B /\
      pack_loop (with_budget B) fs currentTokens optimizedFiles =
      optimizedFiles ++ pre ++
      [truncateFile (with_budget B) f (B - (currentTokens + sum_file_tokens (with_budget B) pre))].
Proof.
  induction fs as [|f fs IH]; intros cur acc Hover Hle.
  - cbn in Hover. lia.
  - rewrite ContextBuilderProofs.sum_file_tokens_cons in Hover.
    cbn [pack_loop].
    change (MAX_TOKENS (with_budget B)) with B.
    destruct (cur + estimateFileTokens (with_budget B) f <=? B) eqn:Hfit.
    + apply Z.leb_le in Hfit.
      destruct (IH (cur + estimateFileTokens (with_budget B) f) (acc ++ [f]))
        as (pre & g & post & -> & Hpre & Hrun); [lia | lia |].
      exists (f :: pre), g, post. split; [reflexivity|].
      rewrite ContextBuilderProofs.sum_file_tokens_cons.
      split; [lia|].
      rewrite Hrun, <- app_assoc, Z.add_assoc. reflexivity.
    + exists [], f, fs. split; [reflexivity|].
      cbn [sum_file_tokens fold_right app]. rewrite Z.add_0_r.
      split; [exact Hle | reflexivity].
Qed.

Lemma ceil_tokens_add (r x : Z) :
  ceil_tokens (with_budget B) (4 * r + x) = r + ceil_tokens (with_budget B) x.
Proof.
  unfold ceil_tokens. cbn [with_budget AVG_CHARS_PER_TOKEN].
  replace (4 * r + x + 4 - 1) with (r * 4 + (x + 4 - 1)) by lia.
  rewrite Z.div_add_l by lia. reflexivity.
Qed.

Lemma ceil_tokens_mono (a b : Z) :
  a <= b -> ceil_tokens (with_budget B) a <= ceil_tokens (with_budget B) b.
Proof.
  intros H. unfold ceil_tokens. cbn [with_budget AVG_CHARS_PER_TOKEN].
  apply Z.div_le_mono; lia.
Qed.

(** The characters of a file cut down to [remaining] tokens. *)
Lemma truncateFile_chars (f : FileContext) (remaining : Z) :
  0 <= remaining ->
  let f' := truncateFile (with_budget B) f remaining in
  estimateFileChars f' <= 4 * remaining + (len (path f) + 66) /\
  (len (path f) + 50 <= 4 * remaining ->
   estimateFileChars f' <= 4 * remaining + 16) /\
  (len (path f) + 50 + len (diff f) <= 4 * remaining ->
   estimateFileChars f' <= 4 * remaining + 0).
Proof.
  intros Hr. cbn zeta. unfold truncateFile, estimateFileChars.
  cbn [with_budget AVG_CHARS_PER_TOKEN].
  assert (Hpath : 0 <= len (path f)) by (unfold len; lia).
  assert (Hdiff : 0 <= len (diff f)) by (unfold len; lia).
  destruct (len (diff f) <=? remaining * 4 - (len (path f) + 50)) eqn:Hfit;
    cbn [path content diff].
  - apply Z.leb_le in Hfit. change (len "") with 0. repeat split; lia.
  - apply Z.leb_gt in Hfit.
    rewrite ContextBuilderProofs.len_append.
    change (len "") with 0. change (len truncation_marker) with 16.
    pose proof (len_substring0 (diff f)
                  (remaining * 4 - (len (path f) + 50))) as Hsub.
    repeat split; lia.
Qed.

Lemma recount_le (p : PRContext) (pre : list FileContext) (f' : FileContext)
    (remaining extra : Z) :
  remaining = B - (estimateTokens (with_budget B) [] p + sum_file_tokens (with_budget B) pre) ->
  estimateFileChars f' <= 4 * remaining + extra ->
  estimateTokens (with_budget B) (pre ++ [f']) p <=
  B + ceil_tokens (with_budget B) extra.
Proof.
  intros Hrem Hchars.
  pose proof (ContextBuilderProofs.estimateTokens_le B (pre ++ [f']) p) as Hle.
  rewrite sum_file_tokens_app in Hle.
  cbn [sum_file_tokens fold_right] in Hle.
  pose proof (ceil_tokens_mono _ _ Hchars) as Hmono.
  rewrite ceil_tokens_add in Hmono.
  unfold estimateFileTokens in Hle. lia.
Qed.

End Recount.

(** When [optimizeForTokenLimit] cuts a context whose title and
    description fit the budget [B], it reports [B] tokens, and its own
    estimate of what it returns can be more: the files kept whole fit
    the budget, and the last file, cut down to the [remaining] tokens,
    adds at most the tokens of its path and of the truncation marker.
    The estimate of the result is at most [B] when the last file fits
    with its whole diff, at most [B + 4] when its path fits, and at most
    [B] plus the tokens of its path and 66 characters in every case. *)
Theorem optimizeForTokenLimit_recount (B : Z) (context : FullContext) :
  estimateTokens (with_budget B) [] (pr context) <= B ->
  B < estimateTokens (with_budget B) (files context) (pr context) ->
  let this := with_budget B in
  let result := optimizeForTokenLimit this context in
  tokenCount result = B /\
  exists pre f post remaining,
    files context = pre ++ f :: post /\
    opt_files result = pre ++ [truncateFile this f remaining] /\
    remaining =
      B - (estimateTokens this [] (pr context) + sum_file_tokens this pre) /\
    0 <= remaining /\
    estimateTokens this (opt_files result) (pr context) <=
      B + ceil_tokens this (len (path f) + 66) /\
    (len (path f) + 50 <= 4 * remaining ->
     estimateTokens this (opt_files result) (pr context) <= B + 4) /\
    (len (path f) + 50 + len (diff f) <= 4 * remaining ->
     estimateTokens this (opt_files result) (pr context) <= B).
Proof.
  intros Hpr Hover. cbn zeta.
  unfold optimizeForTokenLimit.
  change (MAX_TOKENS (with_budget B)) with B.
  destruct (estimateTokens (with_budget B) (files context) (pr context) <=? B)
    eqn:Hfit; [apply Z.leb_le in Hfit; lia|].
  cbn [tokenCount opt_files]. split; [reflexivity|].
  pose proof (ContextBuilderProofs.estimateTokens_le B (files context)
                (pr context)) as Hle.
  destruct (pack_loop_fits B (files context)
              (estimateTokens (with_budget B) [] (pr context)) [])
    as (pre & f & post & Hfiles & Hpre & Hrun); [lia | exact Hpr |].
  cbn [app] in Hrun.
  exists pre, f, post,
    (B - (estimateTokens (with_budget B) [] (pr context) +
          sum_file_tokens (with_budget B) pre)).
  split; [exact Hfiles|]. split; [exact Hrun|]. split; [reflexivity|].
  split; [lia|].
  rewrite Hrun.
  destruct (truncateFile_chars B f
              (B - (estimateTokens (with_budget B) [] (pr context) +
                    sum_file_tokens (with_budget B) pre)) ltac:(lia))
    as (Hall & Hpath & Hwhole).
  split; [|split].
  - apply recount_le with (remaining :=
      B - (estimateTokens (with_budget B) [] (pr context) +
           sum_file_tokens (with_budget B) pre)); [reflexivity | exact Hall].
  - intros H. specialize (Hpath H).
    apply Z.le_trans with (B + ceil_tokens (with_budget B) 16);
      [|apply Z.le_refl].
    apply recount_le with (remaining :=
      B - (estimateTokens (with_budget B) [] (pr context) +
           sum_file_tokens (with_budget B) pre)); [reflexivity | exact Hpath].
  - intros H. specialize (Hwhole H).
    apply Z.le_trans with (B + ceil_tokens (with_budget B) 0);
      [|change (ceil_tokens (with_budget B) 0) with 0; lia].
    apply recount_le with (remaining :=
      B - (estimateTokens (with_budget B) [] (pr context) +
           sum_file_tokens (with_budget B) pre)); [reflexivity | exact Hwhole].
Qed.

Lemma optimizeForTokenLimit_recount_witness :
  let this := with_budget 60 in
  let result := optimizeForTokenLimit this long_diff_context in
  tokenCount result = 60 /\
  exists pre f post remaining,
    files long_diff_context = pre ++ f :: post /\
    opt_files result = pre ++ [truncateFile this f remaining] /\
    remaining =
      60 - (estimateTokens this [] (pr long_diff_context) +
            sum_file_tokens this pre) /\
    0 <= remaining /\
    estimateTokens this (opt_files result) (pr long_diff_context) <=
      60 + ceil_tokens this (len (path f) + 66) /\
    (len (path f) + 50 <= 4 * remaining ->
     estimateTokens this (opt_files result) (pr long_diff_context) <= 60 + 4) /\
    (len (path f) + 50 + len (diff f) <= 4 * remaining ->
     estimateTokens this (opt_files result) (pr long_diff_context) <= 60).
Proof.
  apply (optimizeForTokenLimit_recount 60 long_diff_context).
  - vm_compute. intros H. discriminate H.
  - vm_compute. reflexivity.
Defined.

(** The bound of four tokens is reached: with a budget of 60 tokens the
    context above comes back with an estimate of 64. *)
Example optimizeForTokenLimit_overshoots :
  let result := optimizeForTokenLimit (with_budget 60) long_diff_context in
  tokenCount result = 60 /\
  estimateTokens (with_budget 60) (opt_files result) (pr long_diff_context)
  = 64.
Proof. vm_compute. split; reflexivity. Qed.

End ContextProofs.

(* ===================================================================== *)
(** ** Further theorems: ignored paths, prompts *)
(* ===================================================================== *)

Module PatternProofs.

Import Webhook ContextBuilder GitHub PromptManager Pipeline Spec Props.
Local Open Scope list_scope.

Lemma prefix_iff (a s : string) :
  String.prefix a s = true <-> exists rest, s = (a ++ rest)%string.
Proof.
  revert s. induction a as [|c a IH]; intros s; simpl.
  - split; [intros _; exists s; reflexivity | intros _; destruct s; reflexivity].
  - destruct s as [|d s]; simpl;
      [split; [discriminate | intros [rest H]; discriminate]|].
    destruct (ascii_dec c d) as [->|Hne].
    + rewrite IH. split; intros [rest H]; exists rest; congruence.
    + split; [discriminate|]. intros [rest H]. congruence.
Qed.

Lemma prefix_append (a b : string) : String.prefix a (a ++ b) = true.
Proof. apply prefix_iff. exists b. reflexivity. Qed.

Lemma drop_last3_append (base : string) :
  drop_last3 (base ++ "/**") = base.
Proof.
  unfold drop_last3. rewrite ContextProofs.length_append.
  cbn [String.length]. rewrite Nat.add_sub.
  apply ContextProofs.substring0_append.
Qed.

(** The run of [matchesPattern] on a pattern [base/**]: the regular
    expression of the world is not asked. *)
Lemma matchesPattern_directory_run (w : World) (base name : string) :
  matchesPattern w (VStr name) (base ++ "/**") =
  Ok (startsWith name (base ++ "/") || String.eqb name base).
Proof.
  unfold matchesPattern.
  rewrite (ContextProofs.endsWith_append_ge base "/**" "/**") by (cbn; lia).
  cbn [endsWith String.length Nat.leb Nat.sub String.substring String.eqb
       Ascii.eqb Bool.eqb andb].
  rewrite drop_last3_append. reflexivity.
Qed.

Lemma inside_iff (base name : string) :
  startsWith name (base ++ "/") || String.eqb name base = true <->
  inside base name.
Proof.
  unfold startsWith, inside.
  rewrite orb_true_iff, prefix_iff, String.eqb_eq. split.
  - intros [[rest ->] | ->]; [right | left; reflexivity].
    exists rest. apply ContextProofs.append_assoc.
  - intros [-> | [rest ->]]; [right; reflexivity | left].
    exists rest. symmetry. apply ContextProofs.append_assoc.
Qed.

(** For a pattern [base/**], [matchesPattern] does not build a regular
    expression: it answers, for every file name, whether the name is
    [base] or lies below it. *)
Theorem matchesPattern_directory (w : World) (base name : string) :
  exists hit,
    matchesPattern w (VStr name) (base ++ "/**") = Ok hit /\
    (hit = true <-> inside base name).
Proof.
  exists (startsWith name (base ++ "/") || String.eqb name base).
  split.
  - apply matchesPattern_directory_run.
  - apply inside_iff.
Qed.

Lemma matches_some_false (w : World) (path : value) (patterns : list string) :
  matches_some w path patterns = Ok false ->
  forall pattern, In pattern patterns ->
                  matchesPattern w path pattern = Ok false.
Proof.
  induction patterns as [|p patterns IH]; intros Hnone pattern Hin;
    [destruct Hin|].
  cbn [matches_some] in Hnone.
  destruct (matchesPattern w path p) as [[|]|e] eqn:Hp; cbn [rbind] in Hnone;
    try discriminate.
  destruct Hin as [<-|Hin]; [exact Hp | apply IH; assumption].
Qed.

Lemma reviewable_outside (w : World) (file : File) :
  reviewable w file -> outside_ignored_directories file.
Proof.
  intros (_ & _ & Hnone) dir Hdir Hinside.
  assert (Hpattern : In (dir ++ "/**")%string defaultConfig.ignoredPaths).
  { cbn in Hdir.
    destruct Hdir as [<-|[<-|[<-|[<-|[<-|[]]]]]]; cbn; auto 10. }
  pose proof (matches_some_false w _ _ Hnone _ Hpattern) as Hmiss.
  rewrite matchesPattern_directory_run in Hmiss. injection Hmiss as Hmiss.
  apply inside_iff in Hinside. congruence.
Qed.

(** No file of an ignored directory is sent for review: whatever the
    host lists and whatever the regular expressions of the other patterns
    answer, each request for a review that [handlePullRequest] makes is
    built from files that are not one of [node_modules], [dist],
    [build], [coverage], [vendor] at the root of the repository and do
    not lie below one. *)
Theorem handlePullRequest_skips_ignored_directories
    (w : World) (event : GitHubEvent) (correlationId : string) :
  triple (review_outside_ignored w event)
         (handlePullRequest w event correlationId) (fun _ => True).
Proof.
  eapply HandlerProofs.triple_effects;
    [|apply HandlerProofs.handlePullRequest_effects].
  intros [level message c err|[]|p] He; try exact I.
  cbn [review_outside_ignored]. cbn [handler_effect] in He.
  destruct He as (kept & Hprompt & _ & Hkept).
  exists kept. split; [exact Hprompt|].
  eapply Forall_impl; [|exact Hkept].
  intros file. apply reviewable_outside.
Qed.

(** *** Prompts with instructions *)

Lemma append_empty_r (s : string) : (s ++ "")%string = s.
Proof. induction s as [|c s IH]; cbn; congruence. Qed.

(** [buildPromptWithInstructions] only appends: the base prompt is a
    prefix of the result in every case; the result is the base prompt
    itself exactly when there are no instructions or they are empty;
    otherwise it ends with the instructions, under their heading. *)
Theorem buildPromptWithInstructions_appends
    (basePrompt : string) (customInstructions : option string) :
  let prompt := buildPromptWithInstructions basePrompt customInstructions in
  String.prefix basePrompt prompt = true /\
  (prompt = basePrompt <->
   customInstructions = None \/ customInstructions = Some ""%string) /\
  (forall instructions,
     customInstructions = Some instructions -> instructions <> ""%string ->
     prompt = (basePrompt ++ nl ++ nl ++ "Additional Instructions:" ++ nl ++
               instructions)%string /\
     endsWith prompt instructions = true).
Proof.
  cbn zeta. unfold buildPromptWithInstructions.
  destruct customInstructions as [instructions|].
  - cbn [truthy]. rewrite negb_involutive.
    destruct (String.eqb_spec instructions "") as [->|Hne].
    + split; [|split].
      * rewrite <- (append_empty_r basePrompt) at 2. apply prefix_append.
      * split; auto.
      * intros i Hi. injection Hi as <-. congruence.
    + split; [apply prefix_append|]. split.
      * split.
        -- intros H. exfalso.
           apply (f_equal String.length) in H.
           rewrite ContextProofs.length_append in H.
           unfold nl in H. cbn [append String.length] in H. lia.
        -- intros [H|H]; [discriminate | injection H as ->; congruence].
      * intros i Hi _. injection Hi as <-. split; [reflexivity|].
        rewrite <- !ContextProofs.append_assoc.
        rewrite ContextProofs.endsWith_append_ge by lia.
        apply ContextProofs.endsWith_iff. exists ""%string. reflexivity.
  - split; [|split].
    + rewrite <- (append_empty_r basePrompt) at 2. apply prefix_append.
    + split; auto.
    + intros i Hi. discriminate.
Qed.

End PatternProofs.
